(** * PENSA feature comparison, projection and combined clustering

    A shallow embedding of [analysis.py], [pensa/pca.py] and the driver
    [scripts/calculate_combined_clusters.py].

    Conventions of the embedding.
    - A NumPy float is idealised as an exact rational ([Qc], rationals in
      lowest terms, so that equality of arrays is plain equality).  Rounding,
      [nan] and [inf] are not represented; where NumPy would produce [nan]
      (a mean or a quotient over an empty sample) the embedding divides by
      zero in [Qc], which yields [0], and the theorems that depend on the
      value assume the sample is not empty.
    - A 1-D array is a [list]; a 2-D array is the list of its rows.
    - Python control flow that can raise is written in the monad [Py]:
      a computation yields the console/plot/file effects it performed and
      then either an exception or a value.  Properties of a function are
      stated with [on_return] (what holds of every call that returns) and
      [returns] (the inputs on which the call does return).
    - Calls into PyEMMA (clustering, PCA), SciPy (KL terms, Jensen-Shannon,
      Kolmogorov-Smirnov) and MDAnalysis (trajectories) are parameters of
      the sections that use them.  So is [np.arange], whose success depends
      on the memory of the machine. *)

From Stdlib Require Import QArith Qcanon Qround ZArith String.
From stdpp Require Import base numbers list strings pretty sorting.

(** ** Exceptions, effects and the [Py] monad *)

Inductive exn : Type :=
  | AssertionError
  | NameError (name : string)
  | IndexError
  | KeyError (key : string)
  | ValueError
  | MemoryError.

(** A 2-D array of floats. *)
Abbreviation matrix := (list (list Qc)).

(** What a call leaves behind outside its return value. *)
Inductive event : Type :=
  | Print (i n : nat) (name : string) (numbers : list Qc)
  | PrintLine (text : string)
  | PrintShape (key : string) (rows columns : nat)
  | KMeans (data : matrix) (k : Z) (max_iter : Z)
  | Regspace (data : matrix) (min_dist : Qc)
  | Bar (xs : list Qc) (heights : list nat) (label : string)
  | Savefig (file : string)
  | OpenWriter (file : string)
  | WriteFrame (file : string) (source : string) (frame : Z).

Definition Py (A : Type) : Type := (list event * (exn + A))%type.

Definition ret {A} (a : A) : Py A := ([], inr a).
Definition raise {A} (e : exn) : Py A := ([], inl e).
Definition emit (e : event) : Py unit := ([e], inr tt).

Definition bind {A B} (m : Py A) (f : A -> Py B) : Py B :=
  match m with
  | (out, inl e) => (out, inl e)
  | (out, inr a) => let '(out', r) := f a in (out ++ out', r)
  end.

Notation "'let*' p ':=' m 'in' k" := (bind m (fun p => k))
  (at level 10, p pattern, m at level 100, k at level 200, only parsing).
Notation "m ;;; k" := (bind m (fun _ => k))
  (at level 100, k at level 200, right associativity, only parsing).

(** [assert c] *)
Definition assert_ (c : bool) : Py unit :=
  if c then ret tt else raise AssertionError.

(** [l[i]] for a non-negative index. *)
Definition getitem {A} (l : list A) (i : nat) : Py A :=
  match l !! i with
  | Some x => ret x
  | None => raise IndexError
  end.

(** [l[i] = v] for a non-negative index. *)
Definition setitem {A} (l : list A) (i : nat) (v : A) : Py (list A) :=
  if decide (i < length l) then ret (<[i:=v]> l) else raise IndexError.

(** [for i in idx: s = body(i, s)] *)
Fixpoint for_each {I S} (idx : list I) (body : I -> S -> Py S) (s : S) : Py S :=
  match idx with
  | [] => ret s
  | i :: idx' => let* s' := body i s in for_each idx' body s'
  end.

(** [range(n)] *)
Definition range (n : nat) : list nat := seq 0 n.

(** ** NumPy primitives *)

Definition Qc_of_nat (n : nat) : Qc := Qc_of_Z (Z.of_nat n).

Definition np_zeros (n : nat) : list Qc := replicate n 0%Qc.
Definition np_ones (n : nat) : list Qc := replicate n 1%Qc.

(** [np.sum] of a 1-D array. *)
Definition np_sum (l : list Qc) : Qc := foldr Qcplus 0%Qc l.

(** [np.mean] of a 1-D array that is not empty.  (For an empty array NumPy
    gives [nan]; the quotient here is [0], and no theorem reads it.) *)
Definition np_mean (l : list Qc) : Qc := (np_sum l / Qc_of_nat (length l))%Qc.

(** [np.concatenate] of 1-D arrays, or of 2-D arrays along axis 0 when the
    rows have the same width. *)
Definition np_concatenate {A} (l1 l2 : list A) : list A := l1 ++ l2.

(** ** The feature-extraction collaborator (PyEMMA featurizer) *)

Record feature : Type := { feature_describe : list string }.

Record featurizer : Type := {
  describe : list string;
  active_features : list feature
}.

(** ** [analysis.py]: mean difference *)

Definition half : Qc := Q2Qc (1 # 2).

Definition mean_difference_analysis
    (features_a features_g : featurizer) (all_data_a all_data_g : matrix)
    (verbose : bool) : Py (list string * list Qc * list Qc) :=
  assert_ (bool_decide (describe features_a = describe features_g)) ;;;
  assert_ (bool_decide (length all_data_a = length all_data_g)) ;;;
  let* f0 := getitem (active_features features_a) 0 in
  let data_names := feature_describe f0 in
  let data_diff := np_zeros (length data_names) in
  let data_avg := np_zeros (length data_names) in
  let* (data_avg, data_diff) :=
    for_each (range (length all_data_a))
      (fun i '(data_avg, data_diff) =>
         let* data_a := getitem all_data_a i in
         let* data_g := getitem all_data_g i in
         let mean_a := np_mean data_a in
         let mean_g := np_mean data_g in
         let diff_ag := (mean_a - mean_g)%Qc in
         let mean_ag := (half * (mean_a + mean_g))%Qc in
         let* data_avg := setitem data_avg i mean_ag in
         let* data_diff := setitem data_diff i diff_ag in
         (if verbose
          then let* name := getitem data_names i in
               let* avg_i := getitem data_avg i in
               let* diff_i := getitem data_diff i in
               emit (Print i (length all_data_a) name [avg_i; diff_i])
          else ret tt) ;;;
         ret (data_avg, data_diff))
      (data_avg, data_diff) in
  ret (data_names, data_avg, data_diff).

(** ** NumPy: extrema, [linspace] and [histogram] *)

Definition Qc_min (x y : Qc) : Qc := if decide (x ≤ y)%Qc then x else y.
Definition Qc_max (x y : Qc) : Qc := if decide (x ≤ y)%Qc then y else x.

(** [np.min] and [np.max] reject an empty array. *)
Definition np_min (l : list Qc) : Py Qc :=
  match l with
  | [] => raise ValueError
  | x :: l' => ret (foldr Qc_min x l')
  end.

Definition np_max (l : list Qc) : Py Qc :=
  match l with
  | [] => raise ValueError
  | x :: l' => ret (foldr Qc_max x l')
  end.

(** [np.linspace(first, last, bins + 1)] *)
Definition np_linspace (first last : Qc) (bins : nat) : list Qc :=
  map (fun j => (first + Qc_of_nat j * ((last - first) / Qc_of_nat bins))%Qc)
      (seq 0 (S bins)).

(** The edges [np.histogram] chooses when [bins] is left at its default of
    ten equal-width bins: they span the sample, and a sample of a single
    distinct value gets the range widened by one half on each side. *)
Definition histogram_default_edges (a : list Qc) : list Qc :=
  let '(first, last) :=
    match a with
    | [] => (0%Qc, 1%Qc)
    | x :: a' => (foldr Qc_min x a', foldr Qc_max x a')
    end in
  let '(first, last) :=
    if decide (first = last) then ((first - half)%Qc, (last + half)%Qc)
    else (first, last) in
  np_linspace first last 10.

(** How many sample values lie strictly below / at or below an edge. *)
Definition count_lt (a : list Qc) (e : Qc) : Z :=
  Z.of_nat (length (filter (fun x => (x < e)%Qc) a)).
Definition count_le (a : list Qc) (e : Qc) : Z :=
  Z.of_nat (length (filter (fun x => (x ≤ e)%Qc) a)).

(** NumPy's [_search_sorted_inclusive]: the last edge is inclusive. *)
Definition search_sorted_inclusive (a edges : list Qc) : list Z :=
  match reverse edges with
  | [] => []
  | e_last :: rev_init =>
      map (count_lt a) (reverse rev_init) ++ [count_le a e_last]
  end.

(** [np.diff] *)
Definition np_diff_Z (l : list Z) : list Z :=
  zip_with (fun lo hi => (hi - lo)%Z) l (tail l).
Definition np_diff (l : list Qc) : list Qc :=
  zip_with (fun lo hi => (hi - lo)%Qc) l (tail l).

Fixpoint monotonic (edges : list Qc) : bool :=
  match edges with
  | e0 :: ((e1 :: _) as rest) => bool_decide (e0 ≤ e1)%Qc && monotonic rest
  | _ => true
  end.

(** [np.histogram(a, density=True, bins=edges)] for an explicit edge array:
    counts per bin, divided by the bin width and by the total count. *)
Definition np_histogram (a edges : list Qc) : Py (list Qc * list Qc) :=
  if monotonic edges then
    let n := np_diff_Z (search_sorted_inclusive a edges) in
    let db := np_diff edges in
    let total := Qc_of_Z (foldr Z.add 0%Z n) in
    ret (zip_with (fun n_j db_j => (Qc_of_Z n_j / db_j / total)%Qc) n db, edges)
  else raise ValueError.

(** [np.histogram(a, density=True)] *)
Definition np_histogram_default (a : list Qc) : Py (list Qc * list Qc) :=
  np_histogram a (histogram_default_edges a).

(** [x / s] broadcast over an array. *)
Definition np_divide (x : list Qc) (s : Qc) : list Qc :=
  map (fun x_j => (x_j / s)%Qc) x.

(** ** [analysis.py]: relative entropy and Kolmogorov-Smirnov *)

Section divergences.

(** [scipy.special.kl_div] on one pair of entries,
    [scipy.spatial.distance.jensenshannon] with its [base], and
    [scipy.stats.ks_2samp] giving (statistic, p-value). *)
Variable kl_div : Qc -> Qc -> Qc.
Variable jensenshannon : list Qc -> list Qc -> Qc -> Qc.
Variable ks_2samp : list Qc -> list Qc -> Py (Qc * Qc).

(** [np.arange(start, stop, step)] allocates an array of
    [ceil((stop - start) / step)] values.  It raises [ValueError] when that
    length cannot be computed or exceeds the index range (a zero step), and
    [MemoryError] when the machine cannot hold the array; which lengths it
    can hold is not a property of the program, so the call is taken as
    given. *)
Variable np_arange : Qc -> Qc -> Qc -> Py (list Qc).

(** Lines 47-52 of the loop body: the shared edges and the two
    renormalised histograms. *)
Definition binned_distributions (data_a data_g : list Qc)
    : Py (list Qc * list Qc * list Qc) :=
  let data_both := np_concatenate data_a data_g in
  let* histo_both := np_histogram_default data_both in
  let* histo_a := np_histogram data_a (snd histo_both) in
  let distr_a := np_divide (fst histo_a) (np_sum (fst histo_a)) in
  let* histo_g := np_histogram data_g (snd histo_both) in
  let distr_g := np_divide (fst histo_g) (np_sum (fst histo_g)) in
  ret (snd histo_both, distr_a, distr_g).

(** The last argument of the diagnostic [print] reads [js_dist],
    [rel_ent_ag] and [rel_ent_ga].  No statement of the function or of the
    module binds any of them, so evaluating the first one raises
    [NameError]; the arguments before it have been evaluated by then. *)
Definition relative_entropy_analysis
    (features_a features_g : featurizer) (all_data_a all_data_g : matrix)
    (bin_width : Qc) (verbose : bool)
    : Py (list string * list Qc * list Qc * list Qc) :=
  assert_ (bool_decide (describe features_a = describe features_g)) ;;;
  assert_ (bool_decide (length all_data_a = length all_data_g)) ;;;
  let* f0 := getitem (active_features features_a) 0 in
  let data_names := feature_describe f0 in
  let data_jsdist := np_zeros (length data_names) in
  let data_kld_ag := np_zeros (length data_names) in
  let data_kld_ga := np_zeros (length data_names) in
  let data_avg := np_zeros (length data_names) in
  let* (data_jsdist, data_kld_ag, data_kld_ga, data_avg) :=
    for_each (range (length all_data_a))
      (fun i '(data_jsdist, data_kld_ag, data_kld_ga, data_avg) =>
         let* data_a := getitem all_data_a i in
         let* data_g := getitem all_data_g i in
         let data_both := np_concatenate data_a data_g in
         let* data_avg := setitem data_avg i (np_mean data_both) in
         let* bins_min := np_min data_both in
         let* bins_max := np_max data_both in
         let* bins := np_arange bins_min bins_max bin_width in
         let* (_, distr_a, distr_g) := binned_distributions data_a data_g in
         let* data_kld_ag :=
           setitem data_kld_ag i (np_sum (zip_with kl_div distr_a distr_g)) in
         let* data_kld_ga :=
           setitem data_kld_ga i (np_sum (zip_with kl_div distr_g distr_a)) in
         let* data_jsdist :=
           setitem data_jsdist i (jensenshannon distr_a distr_g 2%Qc) in
         (if verbose
          then let* name := getitem data_names i in
               let* avg_i := getitem data_avg i in
               raise (NameError "js_dist")
          else ret tt) ;;;
         ret (data_jsdist, data_kld_ag, data_kld_ga, data_avg))
      (data_jsdist, data_kld_ag, data_kld_ga, data_avg) in
  ret (data_names, data_jsdist, data_kld_ag, data_kld_ga).

Definition kolmogorov_smirnov_analysis
    (features_a features_g : featurizer) (all_data_a all_data_g : matrix)
    (bin_width : Qc) (verbose : bool)
    : Py (list string * list Qc * list Qc) :=
  assert_ (bool_decide (describe features_a = describe features_g)) ;;;
  assert_ (bool_decide (length all_data_a = length all_data_g)) ;;;
  let* f0 := getitem (active_features features_a) 0 in
  let data_names := feature_describe f0 in
  let data_avg := np_zeros (length data_names) in
  let data_kss := np_zeros (length data_names) in
  let data_ksp := np_zeros (length data_names) in
  let* (data_avg, data_kss, data_ksp) :=
    for_each (range (length all_data_a))
      (fun i '(data_avg, data_kss, data_ksp) =>
         let* data_a := getitem all_data_a i in
         let* data_g := getitem all_data_g i in
         let* ks := ks_2samp data_a data_g in
         let* data_kss := setitem data_kss i (fst ks) in
         let* data_ksp := setitem data_ksp i (snd ks) in
         let data_both := np_concatenate data_a data_g in
         let* data_avg := setitem data_avg i (np_mean data_both) in
         (if verbose
          then let* name := getitem data_names i in
               let* avg_i := getitem data_avg i in
               emit (Print i (length all_data_a) name [avg_i; fst ks; snd ks])
          else ret tt) ;;;
         ret (data_avg, data_kss, data_ksp))
      (data_avg, data_kss, data_ksp) in
  ret (data_names, data_kss, data_ksp).

End divergences.

(** ** NumPy: sorting, indexing, masks *)

(** [np.argsort(a)]: the indices of [a] in ascending order of value.  The
    embedding sorts the index list with a merge sort that compares indices
    by the value they point at.  Among equal values NumPy's order depends on
    the sort it selects, and the order chosen here is not NumPy's: the
    theorems below use, and state, only that the result permutes the indices
    and ascends. *)
Definition key_le (a : list Qc) (i j : nat) : Prop :=
  (nth i a 0 ≤ nth j a 0)%Qc.

#[global] Instance key_le_dec a i j : Decision (key_le a i j).
Proof. unfold key_le. apply _. Defined.

Definition np_argsort (a : list Qc) : list nat :=
  merge_sort (key_le a) (seq 0 (length a)).

(** [a[idx]] for an index array. *)
Fixpoint np_take {A} (a : list A) (idx : list nat) : Py (list A) :=
  match idx with
  | [] => ret []
  | i :: idx' =>
      let* x := getitem a i in
      let* xs := np_take a idx' in
      ret (x :: xs)
  end.

(** [a[mask]] for a boolean array, which must be as long as [a]. *)
Definition np_mask {A} (a : list A) (mask : list bool) : Py (list A) :=
  if decide (length mask = length a)
  then ret (map fst (filter (fun xb => snd xb = true) (zip a mask)))
  else raise IndexError.

(** [a == v] broadcast over an array. *)
Definition np_equal {A} `{EqDecision A} (a : list A) (v : A) : list bool :=
  map (fun x => bool_decide (x = v)) a.

(** [np.where(a == v)[0]] *)
Definition np_where_equal {A} `{EqDecision A} (a : list A) (v : A) : list nat :=
  filter (fun p => a !! p = Some v) (seq 0 (length a)).

(** [np.unique(a)]: the distinct values, ascending. *)
Definition np_unique (a : list Z) : list Z := merge_sort Z.le (remove_dups a).

(** [np.unique(a, return_counts=True)] *)
Definition np_unique_counts (a : list Z) : list Z * list nat :=
  let c := np_unique a in
  (c, map (fun v => length (filter (fun x => x = v) a)) c).

(** [np.arange(n) + start] *)
Definition np_arange_from (n : nat) (start : Z) : list Z :=
  map (fun k => (Z.of_nat k + start)%Z) (seq 0 n).

(** [np.concatenate([m1, m2], 0)] for 2-D arrays: the rows of [m1] then
    those of [m2]; the widths have to agree.  (A matrix without rows
    carries no width here and is accepted.) *)
Definition np_concatenate_rows (m1 m2 : matrix) : Py matrix :=
  match m1, m2 with
  | r1 :: _, r2 :: _ =>
      if decide (length r1 = length r2) then ret (m1 ++ m2) else raise ValueError
  | _, _ => ret (m1 ++ m2)
  end.

(** [np.dot] of two 1-D arrays. *)
Definition np_dot (x y : list Qc) : Py Qc :=
  if decide (length x = length y)
  then ret (np_sum (zip_with Qcmult x y))
  else raise ValueError.

(** [m[:, j]] *)
Fixpoint np_column (m : matrix) (j : nat) : Py (list Qc) :=
  match m with
  | [] => ret []
  | row :: m' =>
      let* x := getitem row j in
      let* xs := np_column m' j in
      ret (x :: xs)
  end.

(** [np.mean(m, 0)]: the mean of every column. *)
Definition np_mean_axis0 (m : matrix) : list Qc :=
  match m with
  | [] => []
  | row :: _ => map (fun j => np_mean (map (fun r => nth j r 0%Qc) m))
                    (seq 0 (length row))
  end.

Definition square (x : Qc) : Qc := (x * x)%Qc.

(** [(m - c)**2] with the row [c] broadcast over the rows of [m]. *)
Definition squared_deviations (m : matrix) (c : list Qc) : matrix :=
  map (fun row => zip_with (fun x c_j => square (x - c_j)) row c) m.

(** [np.sum] of a 2-D array. *)
Definition np_sum2 (m : matrix) : Qc := np_sum (concat m).

(** ** [analysis.py]: sorting features *)

(** NumPy stores both columns of the returned table as text; the embedding
    keeps each row as the pair (name, value). *)
Definition sort_features (names : list string) (sortby : list Qc)
    : Py (list (string * Qc)) :=
  let sort_id := reverse (np_argsort sortby) in
  let* (sorted_names, sorted_values) :=
    for_each sort_id
      (fun i '(sorted_names, sorted_values) =>
         let* name := getitem names i in
         let* value := getitem sortby i in
         ret (sorted_names ++ [name], sorted_values ++ [value]))
      ([], []) in
  ret (zip sorted_names sorted_values).

(** ** MDAnalysis trajectories *)

(** [u.trajectory[k]] on a trajectory of [n] frames: the frame number read.
    A negative index counts from the end. *)
Definition trajectory_getitem (n : nat) (k : Z) : Py Z :=
  if decide (0 ≤ k < Z.of_nat n)%Z then ret k
  else if decide (- Z.of_nat n ≤ k < 0)%Z then ret (Z.of_nat n + k)%Z
  else raise IndexError.

(** ** [pensa/pca.py] (the same functions are repeated in [analysis.py]) *)

(** The PyEMMA PCA object, as far as the code reads it. *)
Record pca_model : Type := {
  eigenvalues : list Qc;
  eigenvectors : matrix
}.

Section pca.

(** [pyemma.coordinates.pca(data, dim)] and the number of frames of the
    trajectory file of a given name. *)
Variable pyemma_pca : matrix -> option nat -> pca_model.
Variable trajectory_frames : string -> nat.

Definition project_on_pc (data : matrix) (ev_idx : nat)
    (pca : option pca_model) : Py (list Qc) :=
  let pca := match pca with
             | None => pyemma_pca data None
             | Some pca => pca
             end in
  let projection := np_zeros (length data) in
  for_each (range (length data))
    (fun ti projection =>
       let* frame := getitem data ti in
       let* axis := np_column (eigenvectors pca) ev_idx in
       let* p := np_dot frame axis in
       setitem projection ti p)
    projection.

(** The first three statements of the loop body of both sorting
    functions: project, argsort, permute the projection. *)
Definition sorted_projection (data : matrix) (evi : nat) (pca : pca_model)
    : Py (list Qc * list nat * list Qc) :=
  let* proj := project_on_pc data evi (Some pca) in
  let sort_idx := np_argsort proj in
  let* proj_sort := np_take proj sort_idx in
  ret (proj, sort_idx, proj_sort).

Definition pc_file (out_name : string) (evi : nat) : string :=
  "pca/" +:+ out_name +:+ "_pc" +:+ pretty evi +:+ ".xtc".

Definition sort_traj_along_pc (data : matrix) (pca : pca_model)
    (start_frame : Z) (ref name out_name : string) (num_pc : nat) : Py unit :=
  let oidx := np_arange_from (length data) start_frame in
  let u := "traj/" +:+ name +:+ ".xtc" in
  for_each (range num_pc)
    (fun evi _ =>
       let* (proj, sort_idx, proj_sort) := sorted_projection data evi pca in
       let* oidx_sort := np_take oidx sort_idx in
       emit (OpenWriter (pc_file out_name evi)) ;;;
       for_each (range (length data))
         (fun i _ =>
            let* k := getitem oidx_sort i in
            let* ts := trajectory_getitem (trajectory_frames u) k in
            emit (WriteFrame (pc_file out_name evi) u ts))
         tt)
    tt.

Definition sort_trajs_along_common_pc (data_g data_a : matrix)
    (start_frame : Z) (ref_g ref_a name_g name_a out_name : string)
    : Py unit :=
  let* data := np_concatenate_rows data_g data_a in
  let cond := np_concatenate (np_ones (length data_g))
                             (np_zeros (length data_a)) in
  let oidx := np_concatenate (np_arange_from (length data_g) start_frame)
                             (np_arange_from (length data_a) start_frame) in
  let pca := pyemma_pca data (Some 3) in
  let ug := "traj/" +:+ name_g +:+ ".xtc" in
  let ua := "traj/" +:+ name_a +:+ ".xtc" in
  for_each (range 12)
    (fun evi _ =>
       let* (proj, sort_idx, proj_sort) := sorted_projection data evi pca in
       let* cond_sort := np_take cond sort_idx in
       let* oidx_sort := np_take oidx sort_idx in
       emit (OpenWriter (pc_file out_name evi)) ;;;
       for_each (range (length data))
         (fun i _ =>
            let* c := getitem cond_sort i in
            if decide (c = 1%Qc) then
              let* k := getitem oidx_sort i in
              let* ts := trajectory_getitem (trajectory_frames ug) k in
              emit (WriteFrame (pc_file out_name evi) ug ts)
            else if decide (c = 0%Qc) then
              let* k := getitem oidx_sort i in
              let* ts := trajectory_getitem (trajectory_frames ua) k in
              emit (WriteFrame (pc_file out_name evi) ua ts)
            else ret tt)
         tt)
    tt.

End pca.

(** ** [analysis.py]: clustering *)

Section clustering.

(** [pyemma.coordinates.cluster_kmeans(data, k, max_iter)] and
    [cluster_regspace(data, min_dist)], each followed by
    [.get_output()[0][:,0]]: the cluster index of every row.  They are taken
    as functions of their arguments (a fixed seed for the k-means
    initialisation); every invocation is also recorded as an effect. *)
Variable cluster_kmeans : matrix -> Z -> Z -> Py (list Z).
Variable cluster_regspace : matrix -> Qc -> Py (list Z).
Variable trajectory_frames : string -> nat.

Definition known_algorithm (algorithm : string) : bool :=
  bool_decide (algorithm ∈ ["kmeans"; "rspace"]).

Definition obtain_clusters (data : matrix) (algorithm : string)
    (num_clusters : Z) (min_dist : Qc) (max_iter : Z) : Py (list Z) :=
  assert_ (known_algorithm algorithm) ;;;
  let* cl_idx :=
    if decide (algorithm = "kmeans") then
      emit (KMeans data num_clusters max_iter) ;;;
      cluster_kmeans data num_clusters max_iter
    else
      emit (Regspace data min_dist) ;;;
      cluster_regspace data min_dist in
  let '(c, nc) := np_unique_counts cl_idx in
  emit (Bar (map Qc_of_Z c) nc "") ;;;
  ret cl_idx.

(** The body of the centroid loop for one cluster id. *)
Definition cluster_members (data : matrix) (cidx : list Z) (i : Z)
    : Py matrix :=
  np_take data (np_where_equal cidx i).

Definition bar_shift : Qc := Q2Qc (15 # 100).

Definition obtain_combined_clusters (data_g data_a : matrix)
    (start_frame : Z) (label_g label_a : string) (algorithm : string)
    (num_clusters : Z) (min_dist : Qc) (max_iter : Z) (plot : bool)
    (saveas : option string)
    : Py (list Z * list Qc * list Z * Qc * list (list Qc)) :=
  let* data := np_concatenate_rows data_g data_a in
  let cond := np_concatenate (np_ones (length data_g))
                             (np_zeros (length data_a)) in
  let oidx := np_concatenate (np_arange_from (length data_g) start_frame)
                             (np_arange_from (length data_a) start_frame) in
  assert_ (known_algorithm algorithm) ;;;
  let* cidx :=
    if decide (algorithm = "kmeans") then
      emit (KMeans data num_clusters 100) ;;;
      cluster_kmeans data num_clusters 100
    else
      emit (Regspace data min_dist) ;;;
      cluster_regspace data min_dist in
  let* (centroids, total_wss) :=
    for_each (np_unique cidx)
      (fun i '(centroids, total_wss) =>
         let* cluster_data := cluster_members data cidx i in
         let cluster_centroid := np_mean_axis0 cluster_data in
         let centroids := centroids ++ [cluster_centroid] in
         let cluster_wss :=
           np_sum2 (squared_deviations cluster_data cluster_centroid) in
         ret (centroids, (total_wss + cluster_wss)%Qc))
      ([], 0%Qc) in
  (if plot then
     let '(c, nc) := np_unique_counts cidx in
     let* cidx_g := np_mask cidx (np_equal cond 1%Qc) in
     let '(cg, ncg) := np_unique_counts cidx_g in
     let* cidx_a := np_mask cidx (np_equal cond 0%Qc) in
     let '(ca, nca) := np_unique_counts cidx_a in
     emit (Bar (map (fun v => (Qc_of_Z v - bar_shift)%Qc) cg) ncg label_g) ;;;
     emit (Bar (map (fun v => (Qc_of_Z v + bar_shift)%Qc) ca) nca label_a) ;;;
     match saveas with
     | Some file => emit (Savefig file)
     | None => ret tt
     end
   else ret tt) ;;;
  ret (cidx, cond, oidx, total_wss, centroids).

(** [np.max] of an integer array. *)
Definition np_max_Z (l : list Z) : Py Z :=
  match l with
  | [] => raise ValueError
  | x :: l' => ret (foldr Z.max x l')
  end.

Definition cluster_file (out_name : string) (nr : nat) : string :=
  out_name +:+ "_c" +:+ pretty nr +:+ ".xtc".

Definition write_cluster_traj (cluster_idx : list Z)
    (top_file trj_file out_name : string) (start_frame : Z) : Py unit :=
  let* largest := np_max_Z cluster_idx in
  let num_clusters := (largest + 1)%Z in
  for_each (range (Z.to_nat num_clusters))
    (fun nr _ =>
       emit (OpenWriter (cluster_file out_name nr)) ;;;
       for_each (range (trajectory_frames trj_file))
         (fun frame _ =>
            if decide (start_frame ≤ Z.of_nat frame)%Z then
              let* c := getitem cluster_idx
                                (Z.to_nat (Z.of_nat frame - start_frame)) in
              if decide (c = Z.of_nat nr)
              then emit (WriteFrame (cluster_file out_name nr) trj_file
                                    (Z.of_nat frame))
              else ret tt
            else ret tt)
         tt)
    tt.

End clustering.

(** ** [scripts/calculate_combined_clusters.py] *)

Record arguments : Type := {
  ref_file_a : string;
  trj_file_a : string;
  ref_file_b : string;
  trj_file_b : string;
  label_a : string;
  label_b : string;
  out_plots : string;
  out_frames_a : string;
  out_frames_b : string;
  start_frame : Z;
  feature_type : string;
  algorithm : string;
  max_num_clusters : Z;
  write_num_clusters : Z;
  write : bool;
  wss : bool
}.

(** A Python [dict] with string keys, in insertion order. *)
Abbreviation dict V := (list (string * V)).

Fixpoint dict_getitem {V} (d : dict V) (key : string) : Py V :=
  match d with
  | [] => raise (KeyError key)
  | (k, v) :: d' => if decide (k = key) then ret v else dict_getitem d' key
  end.

(** [m.shape] of a 2-D array. *)
Definition shape (m : matrix) : nat * nat :=
  (length m, match m with [] => 0 | row :: _ => length row end).

Section driver.

(** [get_features] comes from a module of the package that is not part
    of the sources at hand; it is taken as given. *)
Variable get_features :
  string -> string -> Z -> Py (dict featurizer * dict matrix).
Variable cluster_kmeans : matrix -> Z -> Z -> Py (list Z).
Variable cluster_regspace : matrix -> Qc -> Py (list Z).
Variable trajectory_frames : string -> nat.

Definition report_dimensions (trj_file : string) (data : dict matrix)
    : Py unit :=
  emit (PrintLine ("Feature dimensions from " +:+ trj_file)) ;;;
  for_each data
    (fun '(k, m) _ => emit (PrintShape k (fst (shape m)) (snd (shape m))))
    tt.

(** Lines 71-75: write out the frames of each cluster, per simulation. *)
Definition write_branch (args : arguments) (cidx : list Z) (cond : list Qc)
    : Py unit :=
  let* selected_a := np_mask cidx (np_equal cond 0%Qc) in
  write_cluster_traj trajectory_frames selected_a
    (ref_file_a args) (trj_file_a args) (out_frames_a args)
    (start_frame args) ;;;
  let* selected_b := np_mask cidx (np_equal cond 0%Qc) in
  write_cluster_traj trajectory_frames selected_b
    (ref_file_b args) (trj_file_b args) (out_frames_b args)
    (start_frame args).

Definition main (args : arguments) : Py unit :=
  let* (feat_a, data_a) :=
    get_features (ref_file_a args) (trj_file_a args) (start_frame args) in
  let* (feat_b, data_b) :=
    get_features (ref_file_b args) (trj_file_b args) (start_frame args) in
  report_dimensions (trj_file_a args) data_a ;;;
  report_dimensions (trj_file_b args) data_b ;;;
  let ftype := feature_type args in
  let* features_a := dict_getitem data_a ftype in
  let* features_b := dict_getitem data_b ftype in
  let* (cidx, cond, oidx, wss_total, centroids) :=
    obtain_combined_clusters cluster_kmeans cluster_regspace
      features_a features_b (start_frame args)
      (label_a args) (label_b args) (algorithm args)
      (write_num_clusters args) (Qc_of_Z 12) 100 true
      (Some (out_plots args +:+ "_combined-clusters_" +:+ ftype +:+ ".pdf")) in
  (if write args then write_branch args cidx cond else ret tt) ;;;
  (if wss args then emit (PrintLine "WSS analysis not yet implemented.")
   else ret tt).

End driver.

(** ** [analysis.py]: one feature by name, and the distance filter *)

Definition get_feature_timeseries (feat : dict featurizer) (data : dict matrix)
    (feature_type feature_name : string) : Py (list Qc) :=
  let* features := dict_getitem feat feature_type in
  let* index := getitem (np_where_equal (describe features) feature_name) 0 in
  let* values := dict_getitem data feature_type in
  np_column values index.

(** [m[:, j]] for a 2-D array of integers (as [np_column], an array
    without rows is accepted). *)
Fixpoint np_column_Z (m : list (list Z)) (j : nat) : Py (list Z) :=
  match m with
  | [] => ret []
  | row :: m' =>
      let* x := getitem row j in
      let* xs := np_column_Z m' j in
      ret (x :: xs)
  end.

(** [a > v] and [a < v] broadcast over an array. *)
Definition np_greater (a : list Qc) (v : Qc) : list bool :=
  map (fun x => bool_decide (v < x)%Qc) a.
Definition np_less (a : list Qc) (v : Qc) : list bool :=
  map (fun x => bool_decide (x < v)%Qc) a.
Definition np_greater_Z (a : list Z) (v : Z) : list bool :=
  map (fun x => bool_decide (v < x)%Z) a.

(** [criteria *= other] on boolean arrays: the elementwise conjunction,
    stored in place.  [other] must have the length of [criteria] or
    length one, in which case it is broadcast. *)
Definition np_imul_bool (criteria other : list bool) : Py (list bool) :=
  if decide (length other = length criteria)
  then ret (zip_with andb criteria other)
  else match other with
       | [b] => ret (map (fun c => c && b) criteria)
       | _ => raise ValueError
       end.

Section reports.

(** [fmt % x] for a format with one float conversion. *)
Variable percent_format : string -> Qc -> string.

(** The line [print(name, '; %1.3f'%avg, '; %1.3f'%relen)] writes: the
    three arguments joined by single spaces. *)
Definition distance_line (name : string) (avg relen : Qc) : string :=
  name +:+ " " +:+ percent_format "; %1.3f" avg
       +:+ " " +:+ percent_format "; %1.3f" relen.

(** [dist_id] holds one row of atom numbers per distance; the boolean
    masks are recomputed for every printed line, as in the source. *)
Definition sort_distances (dist_names : list string)
    (dist_avg dist_relen : list Qc) (dist_id : list (list Z)) : Py unit :=
  let min_rel_ent := Q2Qc (2 # 10) in
  let min_av_dist := 0%Qc in
  let max_av_dist := Q2Qc (25 # 10) in
  let min_id_diff := 300%Z in
  let* second := np_column_Z dist_id 1 in
  let* first := np_column_Z dist_id 0 in
  let dist_id_diff := zip_with Z.sub second first in
  let criteria := np_greater_Z dist_id_diff min_id_diff in
  let* criteria := np_imul_bool criteria (np_greater dist_relen min_rel_ent) in
  let* criteria := np_imul_bool criteria (np_less dist_avg max_av_dist) in
  let* criteria := np_imul_bool criteria (np_greater dist_avg min_av_dist) in
  let* selected := np_mask dist_relen criteria in
  let sort_id := reverse (np_argsort selected) in
  for_each sort_id
    (fun i _ =>
       let* names := np_mask dist_names criteria in
       let* name := getitem names i in
       let* avgs := np_mask dist_avg criteria in
       let* avg := getitem avgs i in
       let* relens := np_mask dist_relen criteria in
       let* relen := getitem relens i in
       emit (PrintLine (distance_line name avg relen)))
    tt.

End reports.

(** ** [analysis.py]: values per residue, and the distance matrix *)

(** [s.split(' ')]: the pieces between single spaces, empty ones included. *)
Fixpoint split_space (s : string) : list string :=
  match s with
  | EmptyString => [EmptyString]
  | String c s' =>
      if Ascii.eqb c Ascii.Space then EmptyString :: split_space s'
      else match split_space s' with
           | piece :: pieces => String c piece :: pieces
           | [] => [String c EmptyString]
           end
  end.

(** [s[:-1]] *)
Fixpoint all_but_last (s : string) : string :=
  match s with
  | EmptyString => EmptyString
  | String c EmptyString => EmptyString
  | String c s' => String c (all_but_last s')
  end.

(** The position an integer index denotes in a sequence of [n] items: a
    negative index counts from the end. *)
Definition py_index (n : nat) (k : Z) : Py nat :=
  if decide (0 ≤ k < Z.of_nat n)%Z then ret (Z.to_nat k)
  else if decide (- Z.of_nat n ≤ k < 0)%Z then ret (Z.to_nat (Z.of_nat n + k))
  else raise IndexError.

(** [l[k]] for an integer index. *)
Definition getitem_Z {A} (l : list A) (k : Z) : Py A :=
  let* i := py_index (length l) k in
  getitem l i.

(** [enumerate(l)] *)
Definition enumerate {A} (l : list A) : list (nat * A) :=
  zip (seq 0 (length l)) l.

(** [np.zeros([rows, columns])] *)
Definition np_zeros2 (rows columns : Z) : Py matrix :=
  if decide (0 ≤ rows /\ 0 ≤ columns)%Z
  then ret (replicate (Z.to_nat rows) (np_zeros (Z.to_nat columns)))
  else raise ValueError.

(** [m[i, j] = v] *)
Definition setitem2 (m : matrix) (i j : Z) (v : Qc) : Py matrix :=
  let* r := py_index (length m) i in
  let* row := getitem m r in
  let* c := py_index (length row) j in
  setitem m r (<[c:=v]> row).

Section visualization.

(** The builtin [int(text)], which raises [ValueError] on text that is not
    an integer literal, and the residue ids of the structure in a file
    ([mda.Universe(file).residues.resids]). *)
Variable python_int : string -> option Z.
Variable residue_ids : string -> list Z.

Definition int (text : string) : Py Z :=
  match python_int text with
  | Some z => ret z
  | None => raise ValueError
  end.

(** The figure is recorded by the file it is saved to, and
    [u.atoms.write(pdb_filename)] by the file it opens. *)
Definition residue_visualization (names : list string) (data : list Qc)
    (ref_filename pdf_filename pdb_filename : string)
    (selection y_label : string) : Py (list Z * list Qc) :=
  let vis_resids := residue_ids ref_filename in
  let default := if decide (selection = "max") then 0%Qc else 1%Qc in
  let vis_values := map (Qcmult default) (np_ones (length vis_resids)) in
  let* vis_values :=
    for_each (enumerate names)
      (fun '(i, name) vis_values =>
         let* token := getitem_Z (split_space name) (-1) in
         let* resid := int (all_but_last token) in
         let* index := getitem (np_where_equal vis_resids resid) 0 in
         if decide (selection = "max") then
           let* current := getitem vis_values index in
           let* value := getitem data i in
           setitem vis_values index (Qc_max current value)
         else if decide (selection = "min") then
           let* current := getitem vis_values index in
           let* value := getitem data i in
           setitem vis_values index (Qc_min current value)
         else ret vis_values)
      vis_values in
  emit (Savefig pdf_filename) ;;;
  emit (OpenWriter pdb_filename) ;;;
  ret (vis_resids, vis_values).

(** [vmin] and [vmax] only reach the plotting call; the figure is
    recorded by the file it is saved to. *)
Definition distances_visualization (dist_names : list string)
    (dist_diff : list Qc) (out_filename : string) (vmin vmax : option Qc)
    : Py matrix :=
  let* first_name := getitem dist_names 0 in
  let* token := getitem (split_space first_name) 2 in
  let* firstres := int token in
  let* last_name := getitem_Z dist_names (-1) in
  let* token := getitem (split_space last_name) 2 in
  let* lastres := int token in
  emit (PrintLine ("first: " +:+ pretty firstres +:+ " , last: "
                   +:+ pretty lastres)) ;;;
  let size := (lastres - firstres + 2)%Z in
  let* diff := np_zeros2 size size in
  let* diff :=
    for_each (enumerate dist_names)
      (fun '(n, name) diff =>
         let splitname := split_space name in
         let* token := getitem splitname 2 in
         let* resi := int token in
         let* token := getitem splitname 7 in
         let* resj := int token in
         let i := (resi - firstres)%Z in
         let j := (resj - firstres)%Z in
         let* value := getitem dist_diff n in
         let* diff := setitem2 diff i j value in
         let* value := getitem dist_diff n in
         setitem2 diff j i value)
      diff in
  emit (Savefig out_filename) ;;;
  ret diff.

End visualization.

(** ** Sample inputs

    Small concrete inputs, and stand-ins for the library routines, on which
    the theorems below are instantiated. *)

Definition sample_features : featurizer := {|
  describe := ["PHI 0 ALA 2"; "PSI 0 ALA 2"];
  active_features := [ {| feature_describe := ["PHI 0 ALA 2"; "PSI 0 ALA 2"] |} ]
|}.

Definition other_features : featurizer := {|
  describe := ["PHI 0 GLY 2"; "PSI 0 GLY 2"];
  active_features := [ {| feature_describe := ["PHI 0 GLY 2"; "PSI 0 GLY 2"] |} ]
|}.

(** Scenario 1 of the specification: two features, two frames each. *)
Definition all_zero : matrix := [[0%Qc; 0%Qc]; [0%Qc; 0%Qc]].
Definition all_one : matrix := [[1%Qc; 1%Qc]; [1%Qc; 1%Qc]].

(** One feature against two, and one feature without any frame. *)
Definition one_feature : matrix := [[0%Qc; 0%Qc]].
Definition no_frame : matrix := [[]].

Definition default_bin_width : Qc := Q2Qc (1 # 1000).

(** [np.arange] on a machine that holds every array asked for. *)
Definition sample_np_arange (start stop step : Qc) : Py (list Qc) :=
  if decide (step = 0%Qc) then raise ValueError
  else
    let len := Z.to_nat (Qceiling ((stop - start) / step)%Qc) in
    ret (map (fun k => (start + Qc_of_nat k * step)%Qc) (seq 0 len)).

Definition sample_kl_div (x y : Qc) : Qc := 0%Qc.
Definition sample_jensenshannon (p q : list Qc) (base : Qc) : Qc := 0%Qc.
Definition sample_ks_2samp (x y : list Qc) : Py (Qc * Qc) := ret (1%Qc, 0%Qc).

(** Three frames with two features, and the unit axes. *)
Definition sample_frames : matrix :=
  [[Qc_of_Z 3; Qc_of_Z 1]; [Qc_of_Z 1; Qc_of_Z 2]; [Qc_of_Z 2; Qc_of_Z 0]].
Definition sample_pca : pca_model := {|
  eigenvalues := [1%Qc; 1%Qc];
  eigenvectors := [[1%Qc; 0%Qc]; [0%Qc; 1%Qc]]
|}.
Definition sample_pyemma_pca (data : matrix) (dim : option nat) : pca_model :=
  sample_pca.

(** Two well separated ensembles, and a clustering stand-in that splits the
    rows by their first coordinate. *)
Definition blob_g : matrix := [[0%Qc; 0%Qc]; [0%Qc; 1%Qc]].
Definition blob_a : matrix := [[Qc_of_Z 10; Qc_of_Z 10]].

Definition split_by_first_coordinate (data : matrix) : list Z :=
  map (fun row => if decide (nth 0 row 0%Qc ≤ Qc_of_Z 5)%Qc then 0%Z else 1%Z) data.
Definition sample_kmeans (data : matrix) (k max_iter : Z) : Py (list Z) :=
  ret (split_by_first_coordinate data).
Definition sample_regspace (data : matrix) (min_dist : Qc) : Py (list Z) :=
  ret (split_by_first_coordinate data).

Definition sample_arguments : arguments := {|
  ref_file_a := "traj/a.gro";
  trj_file_a := "traj/a.xtc";
  ref_file_b := "traj/b.gro";
  trj_file_b := "traj/b.xtc";
  label_a := "Sim A";
  label_b := "Sim B";
  out_plots := "plots/out";
  out_frames_a := "clusters/a";
  out_frames_b := "clusters/b";
  start_frame := 0;
  feature_type := "bb-torsions";
  algorithm := "kmeans";
  max_num_clusters := 12;
  write_num_clusters := 2;
  write := true;
  wss := false
|}.
Definition sample_trajectory_frames (file : string) : nat := 2.

(** A rendering of [fmt % x], an [int] that reads three numerals, and a
    structure of two residues. *)
Definition sample_percent_format (fmt : string) (x : Qc) : string :=
  fmt +:+ pretty (Qnum (this x)) +:+ "/" +:+ pretty (Zpos (Qden (this x))).
Definition sample_python_int (text : string) : option Z :=
  if decide (text = "2"%string) then Some 2%Z
  else if decide (text = "3"%string) then Some 3%Z
  else if decide (text = "4"%string) then Some 4%Z
  else None.
Definition sample_residue_ids (file : string) : list Z := [2; 3]%Z.

(** Inputs for the irregular cases: a featurizer that names one feature of
    two, a trajectory of five frames, a PCA with twelve components of
    one-feature data, feature dictionaries with and without the requested
    type, torsion names that end in a residue number, one distance name. *)
Definition one_name_features : featurizer := {|
  describe := ["PHI 0 ALA 2"; "PSI 0 ALA 2"];
  active_features := [ {| feature_describe := ["PHI 0 ALA 2"] |} ]
|}.
Definition long_trajectory_frames (file : string) : nat := 5.
Definition twelve_axes_pca (data : matrix) (dim : option nat) : pca_model := {|
  eigenvalues := [1%Qc];
  eigenvectors := [replicate 12 1%Qc]
|}.
Definition sample_feature_dict : dict featurizer :=
  [("bb-torsions"%string, sample_features)].
Definition sample_data_dict : dict matrix :=
  [("bb-torsions"%string, sample_frames)].
Definition sample_get_features (ref trj : string) (start : Z)
    : Py (dict featurizer * dict matrix) :=
  ret ([("sc-torsions"%string, sample_features)],
       [("sc-torsions"%string, blob_g)]).
Definition sample_residue_names : list string :=
  ["COS(PHI 0 ALA 2)"; "SIN(PHI 0 ALA 2)"; "COS(PHI 0 GLY 3)"]%string.
Definition sample_residue_data : list Qc := [half; 1%Qc; half].
Definition sample_dist_names : list string :=
  ["DIST: ALA 2 CA 10 - GLY 3 CA 20"]%string.
Definition sample_dist_id : list (list Z) := [[1; 400]; [1; 500]; [1; 600]]%Z.

(** * Specification vocabulary *)

(** [returns m P]: the computation runs to completion, and its effects and
    value satisfy [P].  [on_return m P]: whenever it runs to completion, they
    satisfy [P].  [fails m]: it ends in an exception. *)
Definition returns {A} (m : Py A) (P : list event -> A -> Prop) : Prop :=
  match m with
  | (out, inr a) => P out a
  | (_, inl _) => False
  end.

Definition on_return {A} (m : Py A) (P : list event -> A -> Prop) : Prop :=
  match m with
  | (out, inr a) => P out a
  | (_, inl _) => True
  end.

Definition fails {A} (m : Py A) : Prop :=
  match m with
  | (_, inl _) => True
  | (_, inr _) => False
  end.

(** What the loop body of [relative_entropy_analysis] leaves at index [i]
    for the samples [a] and [g] of one feature: both histograms are taken
    over the edges of the pooled sample, each is divided by its own sum so
    that (the sample not being empty) it adds up to one, and the three
    scores are computed from the two renormalised histograms. *)
Definition binned_from_shared_edges
    (kl_div : Qc -> Qc -> Qc) (jensenshannon : list Qc -> list Qc -> Qc -> Qc)
    (data_jsdist data_kld_ag data_kld_ga : list Qc)
    (i : nat) (a g : list Qc) : Prop :=
  let edges := histogram_default_edges (np_concatenate a g) in
  exists histo_a histo_g,
    np_histogram a edges = ret (histo_a, edges) /\
    np_histogram g edges = ret (histo_g, edges) /\
    let distr_a := np_divide histo_a (np_sum histo_a) in
    let distr_g := np_divide histo_g (np_sum histo_g) in
    (a <> [] -> np_sum distr_a = 1%Qc) /\
    (g <> [] -> np_sum distr_g = 1%Qc) /\
    data_kld_ag !! i = Some (np_sum (zip_with kl_div distr_a distr_g)) /\
    data_kld_ga !! i = Some (np_sum (zip_with kl_div distr_g distr_a)) /\
    data_jsdist !! i = Some (jensenshannon distr_a distr_g 2%Qc).

(** The rows of [data] whose cluster index is [i], in order. *)
Definition members (data : matrix) (cidx : list Z) (i : Z) : matrix :=
  (filter (fun rc => rc.2 = i) (zip data cidx)).*1.

(** The squared Euclidean distance of a row to a centre. *)
Definition squared_distance (row c : list Qc) : Qc :=
  np_sum (zip_with (fun x c_j => square (x - c_j)) row c).

(** [raises m e]: the computation ends in the exception [e]. *)
Definition raises {A} (m : Py A) (e : exn) : Prop := snd m = inl e.

(** The frames of a trajectory of [frames] frames that
    [write_cluster_traj] assigns to cluster [nr]. *)
Definition frames_of_cluster (cluster_idx : list Z) (frames : nat)
    (start_frame : Z) (nr : nat) : list nat :=
  filter (fun frame => (start_frame ≤ Z.of_nat frame)%Z /\
            cluster_idx !! Z.to_nat (Z.of_nat frame - start_frame)
            = Some (Z.of_nat nr))
         (range frames).

(** The projection of every frame on eigenvector [evi]. *)
Definition projection (data : matrix) (pca : pca_model) (evi : nat) : list Qc :=
  map (fun frame =>
         np_sum (zip_with Qcmult frame
                   (map (fun v => nth evi v 0%Qc) (eigenvectors pca))))
      data.

(** The four thresholds of [sort_distances] on one distance. *)
Definition passes_distance_criteria (avg relen : Qc) (ids : list Z) : Prop :=
  (300 < nth 1 ids 0 - nth 0 ids 0)%Z /\
  (Q2Qc (2 # 10) < relen)%Qc /\ (avg < Q2Qc (25 # 10))%Qc /\ (0 < avg)%Qc.

#[global] Instance passes_distance_criteria_dec avg relen ids :
  Decision (passes_distance_criteria avg relen ids).
Proof. unfold passes_distance_criteria. apply _. Defined.

(** The position in the structure of the residue that a feature name ends
    in, as [residue_visualization] finds it. *)
Definition residue_position (python_int : string -> option Z)
    (vis_resids : list Z) (name : string) : option nat :=
  token ← last (split_space name);
  resid ← python_int (all_but_last token);
  head (np_where_equal vis_resids resid).

(** [m[r][c]], if there is such an entry. *)
Definition entry (m : matrix) (r c : nat) : option Qc :=
  row ← m !! r; row !! c.

(** A matrix of [size] rows of [size] entries. *)
Definition square_of_side (size : nat) (m : matrix) : Prop :=
  length m = size /\ Forall (fun row => length row = size) m.

(** * Reasoning about [Py] computations *)

Lemma returns_bind {A B} (m : Py A) (f : A -> Py B) (P : list event -> B -> Prop) :
  returns m (fun out a => returns (f a) (fun out' b => P (out ++ out') b)) ->
  returns (bind m f) P.
Proof.
  destruct m as [out [e|a]]; simpl; [done|].
  destruct (f a) as [out' [e|b]]; done.
Qed.

Lemma returns_impl {A} (m : Py A) (P Q : list event -> A -> Prop) :
  returns m P -> (forall out a, P out a -> Q out a) -> returns m Q.
Proof. destruct m as [out [e|a]]; simpl; auto. Qed.

Lemma fails_bind_l {A B} (m : Py A) (f : A -> Py B) :
  fails m -> fails (bind m f).
Proof. by destruct m as [out [e|a]]. Qed.

Lemma fails_bind_r {A B} (m : Py A) (f : A -> Py B) :
  (forall a, fails (f a)) -> fails (bind m f).
Proof.
  intros Hf. destruct m as [out [e|a]]; simpl; [done|].
  specialize (Hf a). by destruct (f a) as [out' [e|b]].
Qed.

Lemma for_each_returns {I S} (Inv : list I -> list event -> S -> Prop)
    (idx : list I) (body : I -> S -> Py S) (s0 : S) :
  Inv [] [] s0 ->
  (forall done i rest out s, idx = done ++ i :: rest -> Inv done out s ->
     returns (body i s) (fun out' s' => Inv (done ++ [i]) (out ++ out') s')) ->
  returns (for_each idx body s0) (Inv idx).
Proof.
  intros H0 Hstep.
  cut (forall rest done out s, idx = done ++ rest -> Inv done out s ->
         returns (for_each rest body s) (fun out' s' => Inv idx (out ++ out') s')).
  { intros Hgen. apply (Hgen idx [] [] s0); done. }
  induction rest as [|i rest IH]; intros done out s Hidx HInv.
  - simpl. rewrite !app_nil_r in *. by subst.
  - simpl. apply returns_bind.
    eapply returns_impl; [by eapply Hstep|].
    intros out' s' HInv'. simpl.
    eapply returns_impl.
    + apply (IH (done ++ [i]) (out ++ out') s'); [|done].
      by rewrite <- app_assoc.
    + intros out'' s''. by rewrite app_assoc.
Qed.

Lemma for_each_range_returns {S} (Inv : nat -> list event -> S -> Prop)
    (n : nat) (body : nat -> S -> Py S) (s0 : S) :
  Inv 0 [] s0 ->
  (forall i out s, i < n -> Inv i out s ->
     returns (body i s) (fun out' s' => Inv (Datatypes.S i) (out ++ out') s')) ->
  returns (for_each (range n) body s0) (Inv n).
Proof.
  intros H0 Hstep.
  eapply returns_impl.
  - apply (for_each_returns (fun done => Inv (length done))); [done|].
    intros done i rest out s Hidx HInv.
    assert (i = length done /\ i < n) as [-> Hlt].
    { unfold range in Hidx.
      assert (seq 0 n !! length done = Some i) as Hl.
      { rewrite Hidx. by rewrite list_lookup_middle. }
      apply lookup_seq in Hl. simpl in Hl. destruct Hl; split; [done|lia]. }
    rewrite length_app. simpl. rewrite Nat.add_1_r. by apply Hstep.
  - intros out s. unfold range. by rewrite length_seq.
Qed.

Lemma returns_getitem {A} (l : list A) i x (P : list event -> A -> Prop) :
  l !! i = Some x -> P [] x -> returns (getitem l i) P.
Proof. intros Hl HP. unfold getitem. by rewrite Hl. Qed.

Lemma returns_setitem {A} (l : list A) i x (P : list event -> list A -> Prop) :
  i < length l -> P [] (<[i:=x]> l) -> returns (setitem l i x) P.
Proof. intros Hl HP. unfold setitem. by rewrite (decide_True _ _ Hl). Qed.

Lemma returns_assert (c : bool) (P : list event -> unit -> Prop) :
  c = true -> P [] tt -> returns (assert_ c) P.
Proof. by intros ->. Qed.

Lemma bind_ret {A B} (a : A) (f : A -> Py B) : bind (ret a) f = f a.
Proof. unfold bind, ret. by destruct (f a). Qed.

Lemma getitem_Some {A} (l : list A) i x : l !! i = Some x -> getitem l i = ret x.
Proof. intros H. unfold getitem. by rewrite H. Qed.

Lemma setitem_lt {A} (l : list A) i x :
  i < length l -> setitem l i x = ret (<[i:=x]> l).
Proof. intros H. unfold setitem. by rewrite (decide_True _ _ H). Qed.

Lemma assert_true (c : bool) : c = true -> assert_ c = ret tt.
Proof. by intros ->. Qed.

Lemma np_concatenate_rows_app (m1 m2 data : matrix) out :
  np_concatenate_rows m1 m2 = (out, inr data) -> out = [] /\ data = m1 ++ m2.
Proof.
  unfold np_concatenate_rows. destruct m1 as [|r1 m1], m2 as [|r2 m2];
    try (by intros [= <- <-]).
  case_decide; [by intros [= <- <-]|done].
Qed.

Lemma on_return_bind {A B} (m : Py A) (f : A -> Py B) (P : list event -> B -> Prop) :
  on_return m (fun out a => on_return (f a) (fun out' b => P (out ++ out') b)) ->
  on_return (bind m f) P.
Proof.
  destruct m as [out [e|a]]; simpl; [done|].
  destruct (f a) as [out' [e|b]]; done.
Qed.

Lemma on_return_impl {A} (m : Py A) (P Q : list event -> A -> Prop) :
  on_return m P -> (forall out a, P out a -> Q out a) -> on_return m Q.
Proof. destruct m as [out [e|a]]; simpl; auto. Qed.

Lemma on_return_assert (c : bool) (P : list event -> unit -> Prop) :
  (c = true -> P [] tt) -> on_return (assert_ c) P.
Proof. destruct c; simpl; auto. Qed.

Lemma on_return_getitem {A} (l : list A) i (P : list event -> A -> Prop) :
  (forall x, l !! i = Some x -> P [] x) -> on_return (getitem l i) P.
Proof. intros HP. unfold getitem. destruct (l !! i); simpl; auto. Qed.

Lemma on_return_setitem {A} (l : list A) i x (P : list event -> list A -> Prop) :
  (i < length l -> P [] (<[i:=x]> l)) -> on_return (setitem l i x) P.
Proof. intros HP. unfold setitem. case_decide; simpl; auto. Qed.

Lemma on_return_for_each {I S} (Inv : list I -> list event -> S -> Prop)
    (idx : list I) (body : I -> S -> Py S) (s0 : S) :
  Inv [] [] s0 ->
  (forall done i rest out s, idx = done ++ i :: rest -> Inv done out s ->
     on_return (body i s) (fun out' s' => Inv (done ++ [i]) (out ++ out') s')) ->
  on_return (for_each idx body s0) (Inv idx).
Proof.
  intros H0 Hstep.
  cut (forall rest done out s, idx = done ++ rest -> Inv done out s ->
         on_return (for_each rest body s) (fun out' s' => Inv idx (out ++ out') s')).
  { intros Hgen. apply (Hgen idx [] [] s0); done. }
  induction rest as [|i rest IH]; intros done out s Hidx HInv.
  - simpl. rewrite !app_nil_r in *. by subst.
  - simpl. apply on_return_bind.
    eapply on_return_impl; [by eapply Hstep|].
    intros out' s' HInv'. simpl.
    eapply on_return_impl.
    + apply (IH (done ++ [i]) (out ++ out') s'); [|done].
      by rewrite <- app_assoc.
    + intros out'' s''. by rewrite app_assoc.
Qed.

Lemma on_return_for_each_range {S} (Inv : nat -> list event -> S -> Prop)
    (n : nat) (body : nat -> S -> Py S) (s0 : S) :
  Inv 0 [] s0 ->
  (forall i out s, i < n -> Inv i out s ->
     on_return (body i s) (fun out' s' => Inv (Datatypes.S i) (out ++ out') s')) ->
  on_return (for_each (range n) body s0) (Inv n).
Proof.
  intros H0 Hstep.
  eapply on_return_impl.
  - apply (on_return_for_each (fun done => Inv (length done))); [done|].
    intros done i rest out s Hidx HInv.
    assert (i = length done /\ i < n) as [-> Hlt].
    { unfold range in Hidx.
      assert (seq 0 n !! length done = Some i) as Hl.
      { rewrite Hidx. by rewrite list_lookup_middle. }
      apply lookup_seq in Hl. simpl in Hl. destruct Hl; split; [done|lia]. }
    rewrite length_app. simpl. rewrite Nat.add_1_r. by apply Hstep.
  - intros out s. unfold range. by rewrite length_seq.
Qed.

Lemma on_return_emit (e : event) (P : list event -> unit -> Prop) :
  P [e] tt -> on_return (emit e) P.
Proof. done. Qed.

Lemma on_return_True {A} (m : Py A) : on_return m (fun _ _ => True).
Proof. by destruct m as [out [e|a]]. Qed.

Lemma on_return_np_min (l : list Qc) (P : list event -> Qc -> Prop) :
  (forall x, l <> [] -> P [] x) -> on_return (np_min l) P.
Proof. intros HP. destruct l; simpl; [done|]. by apply HP. Qed.

Lemma on_return_np_max (l : list Qc) (P : list event -> Qc -> Prop) :
  (forall x, l <> [] -> P [] x) -> on_return (np_max l) P.
Proof. intros HP. destruct l; simpl; [done|]. by apply HP. Qed.

Lemma on_return_np_dot (x y : list Qc) (P : list event -> Qc -> Prop) :
  (length x = length y -> P [] (np_sum (zip_with Qcmult x y))) ->
  on_return (np_dot x y) P.
Proof. intros HP. unfold np_dot. case_decide; simpl; auto. Qed.

Lemma np_column_inv (m : matrix) (j : nat) out axis :
  np_column m j = (out, inr axis) ->
  out = [] /\ axis = map (fun v => nth j v 0%Qc) m.
Proof.
  revert out axis. induction m as [|v m IH]; intros out axis; simpl.
  - by intros [= <- <-].
  - unfold getitem. destruct (v !! j) as [x|] eqn:Hx; [|done].
    rewrite bind_ret. destruct (np_column m j) as [out' [e|axis']]; [done|].
    destruct (IH out' axis' eq_refl) as [-> ->]. simpl.
    intros [= <- <-]. by rewrite (nth_lookup_Some _ _ 0%Qc _ Hx).
Qed.

Lemma on_return_np_column (m : matrix) (j : nat) (P : list event -> list Qc -> Prop) :
  P [] (map (fun v => nth j v 0%Qc) m) -> on_return (np_column m j) P.
Proof.
  intros HP. destruct (np_column m j) as [out [e|axis]] eqn:E; [done|].
  by destruct (np_column_inv _ _ _ _ E) as [-> ->].
Qed.

Lemma on_return_np_concatenate_rows (m1 m2 : matrix) (P : list event -> matrix -> Prop) :
  P [] (m1 ++ m2) -> on_return (np_concatenate_rows m1 m2) P.
Proof.
  intros HP. destruct (np_concatenate_rows m1 m2) as [out [e|data]] eqn:E; [done|].
  by destruct (np_concatenate_rows_app _ _ _ _ E) as [-> ->].
Qed.

Ltac fails_tac :=
  first [ done
        | apply fails_bind_l; solve [fails_tac]
        | apply fails_bind_r; intros ?; fails_tac
        | case_match; fails_tac ].

(** * Exact arithmetic *)

Section arithmetic.
Local Open Scope Qc_scope.

Lemma Qc_of_nat_0 : Qc_of_nat 0 = 0.
Proof. apply Z2Qc_inj_0. Qed.

Lemma Qc_of_nat_S n : Qc_of_nat (S n) = Qc_of_nat n + 1.
Proof.
  unfold Qc_of_nat. rewrite Nat2Z.inj_succ, <- Z.add_1_r, Z2Qc_inj_add.
  by rewrite Z2Qc_inj_1.
Qed.

Lemma Qc_of_nat_pos n : (0 < n)%nat -> 0 < Qc_of_nat n.
Proof.
  intros Hn. unfold Qc_of_nat. rewrite <- Z2Qc_inj_0.
  apply (proj1 (Z2Qc_inj_lt 0 (Z.of_nat n))). lia.
Qed.

Lemma Qc_of_nat_nonzero n : (0 < n)%nat -> Qc_of_nat n <> 0.
Proof.
  intros Hn Hz. apply Qc_of_nat_pos in Hn. rewrite Hz in Hn.
  by apply (irreflexivity Qclt 0).
Qed.

Lemma foldr_Qc_min_le x l :
  foldr Qc_min x l ≤ x /\ Forall (fun y => foldr Qc_min x l ≤ y) l.
Proof.
  induction l as [|y l [IH1 IH2]]; simpl.
  - split; [reflexivity|constructor].
  - unfold Qc_min at 1 3. case_decide as Hle.
    + split; [by trans (foldr Qc_min x l)|]. constructor; [reflexivity|].
      eapply Forall_impl; [exact IH2|]. intros z Hz. by trans (foldr Qc_min x l).
    + split; [done|]. constructor; [|done].
      destruct (total Qcle y (foldr Qc_min x l)); done.
Qed.

Lemma foldr_Qc_max_ge x l :
  x ≤ foldr Qc_max x l /\ Forall (fun y => y ≤ foldr Qc_max x l) l.
Proof.
  induction l as [|y l [IH1 IH2]]; simpl.
  - split; [reflexivity|constructor].
  - unfold Qc_max at 1 3. case_decide as Hle.
    + split; [done|]. constructor; [done|done].
    + assert (foldr Qc_max x l ≤ y) by (destruct (total Qcle y (foldr Qc_max x l)); done).
      split; [by trans (foldr Qc_max x l)|]. constructor; [reflexivity|].
      eapply Forall_impl; [exact IH2|]. intros z Hz. by trans (foldr Qc_max x l).
Qed.

Lemma default_edges_range a :
  exists first last, first < last /\
    histogram_default_edges a = np_linspace first last 10 /\
    Forall (fun x => first ≤ x ≤ last) a.
Proof.
  unfold histogram_default_edges.
  destruct a as [|x a].
  - case_decide as H; [done|]. exists 0, 1. done.
  - destruct (foldr_Qc_min_le x a) as [Hm1 Hm2].
    destruct (foldr_Qc_max_ge x a) as [HM1 HM2].
    set (lo := foldr Qc_min x a) in *. set (hi := foldr Qc_max x a) in *.
    assert (Hall : Forall (fun y => lo ≤ y ≤ hi) (x :: a)).
    { constructor; [done|]. rewrite Forall_forall in Hm2, HM2. apply Forall_forall.
      intros y Hy. split; auto. }
    case_decide as Heq.
    + exists (lo - half), (hi + half). split_and!; [| done |].
      * rewrite Heq. apply Qclt_minus_iff.
        replace (hi + half + - (hi - half)) with (half + half) by ring. done.
      * eapply Forall_impl; [exact Hall|]. intros y [H1 H2]. split.
        -- trans lo; [|done]. apply Qcle_minus_iff.
           replace (lo + - (lo - half)) with half by ring. done.
        -- trans hi; [done|]. apply Qcle_minus_iff.
           replace (hi + half + - hi) with half by ring. done.
    + exists lo, hi. split_and!; [|done|done].
      inversion Hall as [|? ? [H1 H2] _]; subst.
      apply Qcle_lt_or_eq in H1. apply Qcle_lt_or_eq in H2.
      destruct H1 as [H1| ->]; destruct H2 as [H2| <-]; try done.
      * by trans x.
Qed.

Lemma np_sum_scale (l : list Qc) (s : Qc) : np_sum (np_divide l s) = np_sum l / s.
Proof.
  unfold np_divide. induction l as [|x l IH]; simpl.
  - unfold Qcdiv. ring.
  - rewrite IH. unfold Qcdiv. ring.
Qed.

Lemma np_divide_sum_1 (h : list Qc) :
  np_sum h <> 0 -> np_sum (np_divide h (np_sum h)) = 1.
Proof. intros Hs. rewrite np_sum_scale. unfold Qcdiv. by apply Qcmult_inv_r. Qed.

Lemma telescope (x : Z) (l : list Z) :
  foldr Z.add 0%Z (np_diff_Z (x :: l)) = (default x (last (x :: l)) - x)%Z.
Proof.
  revert x. induction l as [|y l IH]; intros x.
  - simpl. lia.
  - change (np_diff_Z (x :: y :: l)) with ((y - x)%Z :: np_diff_Z (y :: l)).
    simpl foldr. rewrite IH. rewrite (last_cons_cons x y l).
    destruct (last (y :: l)) eqn:E; simpl; [lia|].
    by apply last_None in E.
Qed.

Lemma count_lt_none a e : Forall (fun x => e ≤ x) a -> count_lt a e = 0%Z.
Proof.
  intros H. unfold count_lt. induction H as [|x a Hx Ha IH]; [done|].
  rewrite filter_cons_False; [done|]. by apply Qcle_not_lt.
Qed.

Lemma count_le_all a e : Forall (fun x => x ≤ e) a -> count_le a e = Z.of_nat (length a).
Proof.
  intros H. unfold count_le. induction H as [|x a Hx Ha IH]; [done|].
  rewrite filter_cons_True by done. simpl length. lia.
Qed.

Lemma seq_pos s n : (0 < n)%nat -> seq s n = s :: seq (S s) (pred n).
Proof. destruct n; [lia|done]. Qed.

Lemma length_np_diff_Z l : length (np_diff_Z l) = pred (length l).
Proof.
  unfold np_diff_Z. destruct l as [|x l]; [done|].
  rewrite length_zip_with. cbn [length tail]. lia.
Qed.

Lemma sum_density (t w : Qc) (n : list Z) (k : nat) :
  length n = k ->
  np_sum (zip_with (fun n_j db_j => Qc_of_Z n_j / db_j / t) n (replicate k w))
  = Qc_of_Z (foldr Z.add 0%Z n) / w / t.
Proof.
  revert k. induction n as [|z n IH]; intros k Hk; simpl.
  - rewrite Z2Qc_inj_0. unfold Qcdiv. ring.
  - destruct k as [|k]; [done|]. simpl. rewrite (IH k) by (by injection Hk).
    rewrite Z2Qc_inj_add. unfold Qcdiv. ring.
Qed.

Section equal_width.
Variables (first last : Qc) (bins : nat).
Hypothesis first_lt_last : first < last.
Hypothesis bins_pos : (0 < bins)%nat.

Let width : Qc := (last - first) / Qc_of_nat bins.
Let edge (j : nat) : Qc := first + Qc_of_nat j * width.

Lemma width_pos : 0 < width.
Proof.
  unfold width, Qcdiv. apply Qcmult_pos_pos.
  - by apply Qclt_minus_iff in first_lt_last.
  - apply Qcinv_pos. by apply Qc_of_nat_pos.
Qed.

Lemma edge_S j : edge (S j) - edge j = width.
Proof. unfold edge. rewrite Qc_of_nat_S. ring. Qed.

Lemma edge_0 : edge 0 = first.
Proof. unfold edge. rewrite Qc_of_nat_0. ring. Qed.

Lemma edge_last : edge bins = last.
Proof.
  unfold edge, width. field. by apply Qc_of_nat_nonzero.
Qed.

Lemma linspace_edges : np_linspace first last bins = map edge (seq 0 (S bins)).
Proof. done. Qed.

Lemma monotonic_edges s n : monotonic (map edge (seq s n)) = true.
Proof.
  revert s. induction n as [|n IH]; intros s; [done|].
  destruct n as [|n]; [done|].
  change (monotonic (map edge (seq s (S (S n)))))
    with (bool_decide (edge s ≤ edge (S s)) && monotonic (map edge (seq (S s) (S n)))).
  rewrite IH, andb_true_r. apply bool_decide_eq_true_2.
  apply Qcle_minus_iff. change (edge (S s) + - edge s) with (edge (S s) - edge s).
  rewrite edge_S. apply Qclt_le_weak, width_pos.
Qed.

Lemma diff_edges s n : np_diff (map edge (seq s (S n))) = replicate n width.
Proof.
  revert s. induction n as [|n IH]; intros s; [done|].
  change (np_diff (map edge (seq s (S (S n)))))
    with ((edge (S s) - edge s) :: np_diff (map edge (seq (S s) (S n)))).
  by rewrite IH, edge_S.
Qed.

Lemma search_sorted_edges a :
  search_sorted_inclusive a (map edge (seq 0 (S bins))) =
  map (count_lt a) (map edge (seq 0 bins)) ++ [count_le a (edge bins)].
Proof.
  unfold search_sorted_inclusive.
  rewrite seq_S, map_app, reverse_app. simpl. by rewrite reverse_involutive.
Qed.

Lemma total_count a :
  Forall (fun x => first ≤ x ≤ last) a ->
  foldr Z.add 0%Z (np_diff_Z (search_sorted_inclusive a (map edge (seq 0 (S bins)))))
  = Z.of_nat (length a).
Proof.
  intros Hin. rewrite search_sorted_edges.
  rewrite (seq_pos 0 bins bins_pos). simpl map. rewrite <- app_comm_cons.
  rewrite telescope. rewrite app_comm_cons, last_snoc. simpl.
  rewrite edge_0, edge_last.
  rewrite count_lt_none, count_le_all; [lia| |];
    eapply Forall_impl; try exact Hin; simpl; intros ? [? ?]; done.
Qed.

Lemma histogram_equal_width a :
  Forall (fun x => first ≤ x ≤ last) a -> a <> [] ->
  exists h, np_histogram a (np_linspace first last bins)
            = ret (h, np_linspace first last bins) /\
            length h = bins /\ 0 < np_sum h.
Proof.
  intros Hin Hne. unfold np_histogram. rewrite linspace_edges, monotonic_edges.
  eexists; split; [reflexivity|].
  rewrite total_count by done. rewrite diff_edges.
  set (n := np_diff_Z _).
  assert (Hlen : length n = bins).
  { unfold n. rewrite length_np_diff_Z, search_sorted_edges.
    rewrite length_app, !length_map, length_seq. simpl. lia. }
  assert (Hsum : foldr Z.add 0%Z n = Z.of_nat (length a)) by (by apply total_count).
  clearbody n. split.
  - rewrite length_zip_with, length_replicate. lia.
  - assert (Ht : Qc_of_Z (Z.of_nat (length a)) <> 0).
    { apply (Qc_of_nat_nonzero (length a)). destruct a; [done|simpl; lia]. }
    rewrite <- Hsum in Ht |- *.
    set (t := Qc_of_Z (foldr Z.add 0%Z n)) in *.
    rewrite (sum_density t width n bins Hlen). fold t.
    pose proof width_pos as Hw.
    replace (t / width / t) with (/ width); [by apply Qcinv_pos|].
    field. split; [|done].
    intros Hz. rewrite Hz in Hw. by apply (irreflexivity Qclt 0).
Qed.

Lemma histogram_returns a :
  exists h, np_histogram a (np_linspace first last bins)
            = ret (h, np_linspace first last bins).
Proof.
  unfold np_histogram. rewrite linspace_edges, monotonic_edges. by eexists.
Qed.

End equal_width.

Lemma np_mean_zeros n : np_mean (replicate n 0) = 0.
Proof.
  unfold np_mean. assert (np_sum (replicate n 0) = 0) as ->.
  { induction n as [|n IH]; [done|]. simpl. rewrite IH. ring. }
  unfold Qcdiv. ring.
Qed.

Lemma np_mean_ones n : (0 < n)%nat -> np_mean (replicate n 1) = 1.
Proof.
  intros Hn. unfold np_mean. rewrite length_replicate.
  assert (np_sum (replicate n 1) = Qc_of_nat n) as ->.
  { clear. induction n as [|n IH]; [by rewrite Qc_of_nat_0|].
    simpl. rewrite IH, Qc_of_nat_S. ring. }
  unfold Qcdiv. apply Qcmult_inv_r. by apply Qc_of_nat_nonzero.
Qed.

Lemma binned_distributions_spec (a g : list Qc) :
  let edges := histogram_default_edges (a ++ g) in
  exists ha hg,
    np_histogram a edges = ret (ha, edges) /\
    np_histogram g edges = ret (hg, edges) /\
    binned_distributions a g
      = ret (edges, np_divide ha (np_sum ha), np_divide hg (np_sum hg)) /\
    (a <> [] -> np_sum (np_divide ha (np_sum ha)) = 1) /\
    (g <> [] -> np_sum (np_divide hg (np_sum hg)) = 1).
Proof.
  intros edges.
  destruct (default_edges_range (a ++ g)) as (lo & hi & Hlt & Hedges & Hin).
  apply Forall_app in Hin as [Hin_a Hin_g].
  assert (Hbins : (0 < 10)%nat) by lia.
  destruct (histogram_returns lo hi 10 Hlt Hbins a) as [ha Ha].
  destruct (histogram_returns lo hi 10 Hlt Hbins g) as [hg Hg].
  destruct (histogram_returns lo hi 10 Hlt Hbins (a ++ g)) as [hb Hb].
  exists ha, hg. unfold edges. rewrite Hedges. split_and!; [done..| | |].
  - unfold binned_distributions, np_histogram_default, np_concatenate.
    rewrite Hedges, Hb, bind_ret. simpl snd.
    rewrite Ha, bind_ret, Hg, bind_ret. done.
  - intros Hne. apply np_divide_sum_1.
    destruct (histogram_equal_width lo hi 10 Hlt Hbins a Hin_a Hne)
      as (h & Hh & _ & Hpos).
    rewrite Ha in Hh. injection Hh as <-.
    intros Hz. rewrite Hz in Hpos. by apply (irreflexivity Qclt 0).
  - intros Hne. apply np_divide_sum_1.
    destruct (histogram_equal_width lo hi 10 Hlt Hbins g Hin_g Hne)
      as (h & Hh & _ & Hpos).
    rewrite Hg in Hh. injection Hh as <-.
    intros Hz. rewrite Hz in Hpos. by apply (irreflexivity Qclt 0).
Qed.
End arithmetic.

(** * Mean difference *)

Section mean_difference.
Local Open Scope Qc_scope.

Lemma mean_difference_total fa fg (A G : matrix) verbose f0 :
  describe fa = describe fg ->
  length A = length G ->
  active_features fa !! 0%nat = Some f0 ->
  (length A <= length (feature_describe f0))%nat ->
  returns (mean_difference_analysis fa fg A G verbose)
    (fun _ '(data_names, data_avg, data_diff) =>
       data_names = feature_describe f0 /\
       forall i a g, A !! i = Some a -> G !! i = Some g ->
         data_diff !! i = Some (np_mean a - np_mean g) /\
         data_avg !! i = Some (half * (np_mean a + np_mean g)) /\
         (forall n m, (0 < n)%nat -> (0 < m)%nat ->
            a = replicate n 0 -> g = replicate m 1 ->
            data_diff !! i = Some (- 1))).
Proof.
  intros Hd Hl Hf0 Hn. unfold mean_difference_analysis.
  apply returns_bind, returns_assert; [by apply bool_decide_eq_true_2|].
  apply returns_bind, returns_assert; [by apply bool_decide_eq_true_2|].
  apply returns_bind, (returns_getitem _ _ _ _ Hf0).
  apply returns_bind.
  set (N := length (feature_describe f0)) in *.
  eapply returns_impl.
  - apply (for_each_range_returns (fun k _ '(avg, diff) =>
      length avg = N /\ length diff = N /\
      forall i a g, (i < k)%nat -> A !! i = Some a -> G !! i = Some g ->
        diff !! i = Some (np_mean a - np_mean g) /\
        avg !! i = Some (half * (np_mean a + np_mean g)))).
    + unfold np_zeros. rewrite !length_replicate. split_and!; [done..|]. intros; lia.
    + intros i out [avg diff] Hi (Havg & Hdiff & Hinv).
      destruct (lookup_lt_is_Some_2 A i Hi) as [a Ha].
      destruct (lookup_lt_is_Some_2 G i ltac:(lia)) as [g Hg].
      apply returns_bind, (returns_getitem _ _ _ _ Ha).
      apply returns_bind, (returns_getitem _ _ _ _ Hg).
      apply returns_bind, returns_setitem; [lia|].
      apply returns_bind, returns_setitem; [lia|].
      apply returns_bind.
      assert (Hpost :
        length (<[i:=half * (np_mean a + np_mean g)]> avg) = N /\
        length (<[i:=np_mean a - np_mean g]> diff) = N /\
        forall j a' g', (j < S i)%nat -> A !! j = Some a' -> G !! j = Some g' ->
          <[i:=np_mean a - np_mean g]> diff !! j = Some (np_mean a' - np_mean g') /\
          <[i:=half * (np_mean a + np_mean g)]> avg !! j
          = Some (half * (np_mean a' + np_mean g'))).
      { rewrite !length_insert. split_and!; [done..|].
        intros j a' g' Hj Ha' Hg'. destruct (decide (j = i)) as [->|Hne].
        - rewrite !list_lookup_insert_eq by lia.
          by simplify_eq.
        - rewrite !list_lookup_insert_ne by done. apply Hinv; [lia|done..]. }
      destruct verbose; simpl.
      * destruct (lookup_lt_is_Some_2 (feature_describe f0) i ltac:(lia)) as [name Hname].
        apply returns_bind, (returns_getitem _ _ _ _ Hname).
        apply returns_bind, (returns_getitem _ _ (half * (np_mean a + np_mean g)));
          [by rewrite list_lookup_insert_eq by lia|].
        apply returns_bind, (returns_getitem _ _ (np_mean a - np_mean g));
          [by rewrite list_lookup_insert_eq by lia|].
        simpl. apply Hpost.
      * apply Hpost.
  - intros out [avg diff] (Havg & Hdiff & Hinv). simpl. split; [done|].
    intros i a g Ha Hg.
    destruct (Hinv i a g) as [H1 H2]; [by eapply lookup_lt_Some|done..|].
    split_and!; [done..|].
    intros n m _ Hm -> ->. rewrite H1. f_equal.
    rewrite np_mean_zeros, np_mean_ones by done. ring.
Qed.

Lemma mean_difference_on_return fa fg (A G : matrix) verbose :
  on_return (mean_difference_analysis fa fg A G verbose)
    (fun _ '(data_names, data_avg, data_diff) =>
       forall i a g, A !! i = Some a -> G !! i = Some g ->
         data_diff !! i = Some (np_mean a - np_mean g) /\
         data_avg !! i = Some (half * (np_mean a + np_mean g))).
Proof.
  unfold mean_difference_analysis.
  apply on_return_bind, on_return_assert; intros _.
  apply on_return_bind, on_return_assert; intros _.
  apply on_return_bind, on_return_getitem; intros f0 _.
  apply on_return_bind.
  eapply on_return_impl.
  - apply (on_return_for_each_range (fun k _ '(avg, diff) =>
      forall i a g, (i < k)%nat -> A !! i = Some a -> G !! i = Some g ->
        diff !! i = Some (np_mean a - np_mean g) /\
        avg !! i = Some (half * (np_mean a + np_mean g)))).
    + intros; lia.
    + intros i out [avg diff] Hi Hinv.
      apply on_return_bind, on_return_getitem; intros a Ha.
      apply on_return_bind, on_return_getitem; intros g Hg.
      apply on_return_bind, on_return_setitem; intros Havg.
      apply on_return_bind, on_return_setitem; intros Hdiff.
      apply on_return_bind.
      eapply (on_return_impl _ (fun _ _ => True)).
      { by destruct (if verbose then _ else _) as [? [?|?]]. }
      intros _ _ _. simpl.
      intros j a' g' Hj Ha' Hg'. destruct (decide (j = i)) as [->|Hne].
      * rewrite !list_lookup_insert_eq by lia. by simplify_eq.
      * rewrite !list_lookup_insert_ne by done. apply Hinv; [lia|done..].
  - intros out [avg diff] Hinv. simpl.
    intros i a g Ha Hg. apply Hinv; [by eapply lookup_lt_Some|done..].
Qed.

(** C7. For every feature index [i] at which both samples have a value,
    [mean_difference_analysis] stores in its difference array the mean of
    ensemble A's sample minus the mean of ensemble B's sample, and in its
    average array one half of the sum of the two means; when A's sample is
    all 0 and B's all 1 the difference is -1.  This holds of every call that
    returns, and the call returns whenever the two assertions hold and the
    first active feature names every row. *)
Theorem mean_difference_values fa fg (A G : matrix) verbose :
  on_return (mean_difference_analysis fa fg A G verbose)
    (fun _ '(_, data_avg, data_diff) =>
       forall i a g, A !! i = Some a -> G !! i = Some g ->
         a <> [] -> g <> [] ->
         data_diff !! i = Some (np_mean a - np_mean g) /\
         data_avg !! i = Some (half * (np_mean a + np_mean g)) /\
         (forall n m, a = replicate n 0 -> g = replicate m 1 ->
            data_diff !! i = Some (- 1)))
  /\ forall f0,
       describe fa = describe fg ->
       length A = length G ->
       active_features fa !! 0%nat = Some f0 ->
       (length A <= length (feature_describe f0))%nat ->
       returns (mean_difference_analysis fa fg A G verbose)
         (fun _ '(data_names, _, _) => data_names = feature_describe f0).
Proof.
  split.
  - eapply on_return_impl; [apply mean_difference_on_return|].
    intros out [[names avg] diff] Hvalues i a g Ha Hg Hane Hgne.
    destruct (Hvalues i a g Ha Hg) as [Hdiff Havg]. split_and!; [done..|].
    intros n m -> ->. rewrite Hdiff. f_equal.
    rewrite np_mean_zeros, np_mean_ones; [ring|].
    destruct m; [done|lia].
  - intros f0 Hd Hl Hf0 Hn.
    eapply returns_impl; [by apply (mean_difference_total fa fg A G verbose f0)|].
    by intros out [[names avg] diff] [-> _].
Qed.

End mean_difference.

(** * Relative entropy, Kolmogorov-Smirnov and the shared assertions *)

Section divergence_properties.
Variable kl_div : Qc -> Qc -> Qc.
Variable jensenshannon : list Qc -> list Qc -> Qc -> Qc.
Variable ks_2samp : list Qc -> list Qc -> Py (Qc * Qc).
Variable np_arange : Qc -> Qc -> Qc -> Py (list Qc).

(** C1, as amended.  With [verbose] set and at least one feature row, the
    call never returns its four arrays.  On inputs that pass the two
    assertions, with a named first feature and a pooled first sample that
    has a value, so that [np.min] and [np.max] return, and for which the
    call of [np.arange] in the first iteration returns, it reaches the
    diagnostic print and stops there, in the first loop iteration and
    before anything is printed, with the undefined name [js_dist]. *)
Theorem relative_entropy_verbose_name_error fa fg (A G : matrix) bw :
  1 <= length A ->
  fails (relative_entropy_analysis kl_div jensenshannon np_arange
           fa fg A G bw true) /\
  (forall f0 a g bins_min bins_max out bins,
     describe fa = describe fg -> length A = length G ->
     active_features fa !! 0 = Some f0 -> feature_describe f0 <> [] ->
     A !! 0 = Some a -> G !! 0 = Some g ->
     np_min (a ++ g) = ret bins_min -> np_max (a ++ g) = ret bins_max ->
     np_arange bins_min bins_max bw = (out, inr bins) ->
     relative_entropy_analysis kl_div jensenshannon np_arange
       fa fg A G bw true
     = (out, inl (NameError "js_dist"))).
Proof.
  intros HA. split.
  - unfold relative_entropy_analysis.
    apply fails_bind_r; intros _. apply fails_bind_r; intros _.
    apply fails_bind_r; intros f0. apply fails_bind_l.
    destruct A as [|a A']; [simpl in HA; lia|].
    unfold range. simpl seq. cbn [for_each length].
    apply fails_bind_l. fails_tac.
  - intros f0 a g bins_min bins_max out bins
      Hd Hl Hf0 Hnames Ha Hg Hmin Hmax Harange.
    unfold relative_entropy_analysis.
    rewrite !assert_true, !bind_ret by (by apply bool_decide_eq_true_2).
    rewrite (getitem_Some _ _ _ Hf0), bind_ret.
    destruct A as [|a' A']; [done|].
    unfold range. simpl seq. cbn [for_each length].
    rewrite (getitem_Some _ _ _ Ha), bind_ret.
    rewrite (getitem_Some _ _ _ Hg), bind_ret.
    assert (Hlen : 0 < length (np_zeros (length (feature_describe f0)))).
    { unfold np_zeros. rewrite length_replicate.
      destruct (feature_describe f0); [done|simpl; lia]. }
    rewrite (setitem_lt _ _ _ Hlen), bind_ret.
    unfold np_concatenate.
    rewrite Hmin, bind_ret, Hmax, bind_ret, Harange.
    destruct (binned_distributions_spec a g) as (ha & hg & _ & _ & Hbinned & _).
    destruct (feature_describe f0) as [|name names] eqn:En; [done|].
    cbn [bind]. rewrite Hbinned, bind_ret.
    rewrite !(setitem_lt _ _ _ Hlen), !bind_ret.
    rewrite (getitem_Some _ 0 name) by done. rewrite bind_ret.
    rewrite (getitem_Some _ 0 (np_mean (a ++ g))), bind_ret by done.
    simpl. by rewrite app_nil_r.
Qed.

Local Open Scope Qc_scope.

Lemma relative_entropy_total fa fg (A G : matrix) bw f0 :
  describe fa = describe fg -> length A = length G ->
  active_features fa !! 0%nat = Some f0 ->
  (length A <= length (feature_describe f0))%nat ->
  (forall i a g, A !! i = Some a -> G !! i = Some g ->
     exists bins_min bins_max out bins,
       np_min (a ++ g) = ret bins_min /\ np_max (a ++ g) = ret bins_max /\
       np_arange bins_min bins_max bw = (out, inr bins)) ->
  returns (relative_entropy_analysis kl_div jensenshannon np_arange
             fa fg A G bw false)
    (fun _ '(_, data_jsdist, data_kld_ag, data_kld_ga) =>
       forall i a g, A !! i = Some a -> G !! i = Some g ->
         binned_from_shared_edges kl_div jensenshannon
           data_jsdist data_kld_ag data_kld_ga i a g).
Proof.
  intros Hd Hl Hf0 Hn Hne. unfold relative_entropy_analysis.
  apply returns_bind, returns_assert; [by apply bool_decide_eq_true_2|].
  apply returns_bind, returns_assert; [by apply bool_decide_eq_true_2|].
  apply returns_bind, (returns_getitem _ _ _ _ Hf0).
  apply returns_bind.
  set (N := length (feature_describe f0)) in *.
  eapply returns_impl.
  - apply (for_each_range_returns (fun k _ '(js, kag, kga, avg) =>
      length js = N /\ length kag = N /\ length kga = N /\ length avg = N /\
      forall i a g, (i < k)%nat -> A !! i = Some a -> G !! i = Some g ->
        binned_from_shared_edges kl_div jensenshannon js kag kga i a g)).
    + unfold np_zeros. rewrite !length_replicate. split_and!; [done..|]. intros; lia.
    + intros i out [[[js kag] kga] avg] Hi (Hjs & Hkag & Hkga & Havg & Hinv).
      destruct (lookup_lt_is_Some_2 A i Hi) as [a Ha].
      destruct (lookup_lt_is_Some_2 G i ltac:(lia)) as [g Hg].
      apply returns_bind, (returns_getitem _ _ _ _ Ha).
      apply returns_bind, (returns_getitem _ _ _ _ Hg).
      apply returns_bind, returns_setitem; [lia|].
      unfold np_concatenate.
      destruct (Hne i a g Ha Hg)
        as (bins_min & bins_max & out_bins & bins & -> & -> & Harange).
      rewrite !bind_ret. apply returns_bind. rewrite Harange. cbn [returns].
      destruct (binned_distributions_spec a g)
        as (ha & hg & Hha & Hhg & -> & Hsa & Hsg).
      rewrite bind_ret.
      apply returns_bind, returns_setitem; [lia|].
      apply returns_bind, returns_setitem; [lia|].
      apply returns_bind, returns_setitem; [lia|].
      simpl. rewrite !length_insert. split_and!; [done..|].
      intros j a' g' Hj Ha' Hg'. destruct (decide (j = i)) as [->|Hneq].
      * simplify_eq. exists ha, hg. split_and!; [done|done|..]; simpl;
          rewrite ?list_lookup_insert_eq by lia; auto.
      * destruct (Hinv j a' g') as (ha' & hg' & ? & ? & ? & ? & ? & ? & ?); [lia|done..|].
        exists ha', hg'. split_and!; [done|done|..]; simpl;
          rewrite ?list_lookup_insert_ne by done; auto.
  - intros out [[[js kag] kga] avg] (_ & _ & _ & _ & Hinv). simpl.
    intros i a g Ha Hg. apply Hinv; [by eapply lookup_lt_Some|done..].
Qed.

Lemma relative_entropy_on_return fa fg (A G : matrix) bw verbose :
  on_return (relative_entropy_analysis kl_div jensenshannon np_arange
               fa fg A G bw verbose)
    (fun _ '(_, data_jsdist, data_kld_ag, data_kld_ga) =>
       forall i a g, A !! i = Some a -> G !! i = Some g ->
         binned_from_shared_edges kl_div jensenshannon
           data_jsdist data_kld_ag data_kld_ga i a g).
Proof.
  unfold relative_entropy_analysis.
  apply on_return_bind, on_return_assert; intros _.
  apply on_return_bind, on_return_assert; intros _.
  apply on_return_bind, on_return_getitem; intros f0 _.
  apply on_return_bind.
  eapply on_return_impl.
  - apply (on_return_for_each_range (fun k _ '(js, kag, kga, avg) =>
      length js = length kag /\ length kga = length kag /\
      forall i a g, (i < k)%nat -> A !! i = Some a -> G !! i = Some g ->
        binned_from_shared_edges kl_div jensenshannon js kag kga i a g)).
    + unfold np_zeros. rewrite !length_replicate. split_and!; [done..|]. intros; lia.
    + intros i out [[[js kag] kga] avg] Hi (Hjs & Hkga & Hinv).
      apply on_return_bind, on_return_getitem; intros a Ha.
      apply on_return_bind, on_return_getitem; intros g Hg.
      apply on_return_bind, on_return_setitem; intros _.
      apply on_return_bind, on_return_np_min; intros bins_min _.
      apply on_return_bind, on_return_np_max; intros bins_max _.
      apply on_return_bind.
      eapply on_return_impl; [apply on_return_True|]. intros out_bins bins _.
      destruct (binned_distributions_spec a g)
        as (ha & hg & Hha & Hhg & -> & Hsa & Hsg).
      rewrite bind_ret.
      apply on_return_bind, on_return_setitem; intros Hlt.
      apply on_return_bind, on_return_setitem; intros _.
      apply on_return_bind, on_return_setitem; intros _.
      apply on_return_bind.
      eapply (on_return_impl _ (fun _ _ => True)); [apply on_return_True|].
      intros _ _ _. simpl. rewrite !length_insert. split_and!; [done..|].
      intros j a' g' Hj Ha' Hg'. destruct (decide (j = i)) as [->|Hneq].
      * simplify_eq. exists ha, hg. split_and!; [done|done|..]; simpl;
          rewrite ?list_lookup_insert_eq by lia; auto.
      * destruct (Hinv j a' g') as (ha' & hg' & ? & ? & ? & ? & ? & ? & ?); [lia|done..|].
        exists ha', hg'. split_and!; [done|done|..]; simpl;
          rewrite ?list_lookup_insert_ne by done; auto.
  - intros out [[[js kag] kga] avg] (_ & _ & Hinv). simpl.
    intros i a g Ha Hg. apply Hinv; [by eapply lookup_lt_Some|done..].
Qed.

(** C2. For every feature index [i], [relative_entropy_analysis] bins both
    ensembles over one and the same edge array, the one NumPy derives from
    the concatenated sample, and divides each histogram by its sum, so that
    each adds up to 1, before it computes the Kullback-Leibler and
    Jensen-Shannon values it stores at [i].  This holds of every call that
    returns; and the call returns, with [verbose] off, whenever the two
    assertions hold, the first active feature names every row, every pooled
    sample has a value, so that [np.min] and [np.max] return, and the call
    of [np.arange] returns for every row. *)
Theorem shared_edges_and_renormalisation fa fg (A G : matrix) bw :
  (forall verbose,
     on_return
       (relative_entropy_analysis kl_div jensenshannon np_arange
          fa fg A G bw verbose)
       (fun _ '(_, data_jsdist, data_kld_ag, data_kld_ga) =>
          forall i a g, A !! i = Some a -> G !! i = Some g ->
            binned_from_shared_edges kl_div jensenshannon
              data_jsdist data_kld_ag data_kld_ga i a g))
  /\ forall f0,
       describe fa = describe fg -> length A = length G ->
       active_features fa !! 0%nat = Some f0 ->
       (length A <= length (feature_describe f0))%nat ->
       (forall i a g, A !! i = Some a -> G !! i = Some g ->
          exists bins_min bins_max out bins,
            np_min (a ++ g) = ret bins_min /\
            np_max (a ++ g) = ret bins_max /\
            np_arange bins_min bins_max bw = (out, inr bins)) ->
       returns
         (relative_entropy_analysis kl_div jensenshannon np_arange
            fa fg A G bw false)
         (fun _ _ => True).
Proof.
  split.
  - intros verbose. apply relative_entropy_on_return.
  - intros f0 Hd Hl Hf0 Hn Hne.
    eapply returns_impl; [by apply (relative_entropy_total fa fg A G bw f0)|].
    done.
Qed.

(** C5. When the feature name lists differ, or the two data arrays differ
    in their first dimension, each of the three analyses raises
    [AssertionError] at once: nothing has been printed, and the outcome
    depends neither on the samples nor on the statistical routines. *)
Theorem analyses_reject_mismatch fa fg (A G : matrix) bw verbose :
  describe fa <> describe fg \/ length A <> length G ->
  relative_entropy_analysis kl_div jensenshannon np_arange fa fg A G bw verbose
  = ([], inl AssertionError)
  /\ kolmogorov_smirnov_analysis ks_2samp fa fg A G bw verbose
     = ([], inl AssertionError)
  /\ mean_difference_analysis fa fg A G verbose
     = ([], inl AssertionError).
Proof.
  intros H.
  unfold relative_entropy_analysis, kolmogorov_smirnov_analysis, mean_difference_analysis.
  destruct (decide (describe fa = describe fg)) as [Hd|Hd].
  - destruct H as [H|H]; [done|].
    rewrite (bool_decide_eq_true_2 _ Hd), (bool_decide_eq_false_2 _ H). done.
  - rewrite (bool_decide_eq_false_2 _ Hd). done.
Qed.

End divergence_properties.

(** * Sorting: [sort_features] and the projections *)

Section sorting.
Local Open Scope Qc_scope.

#[local] Instance key_le_total a : Total (key_le a).
Proof. intros i j. unfold key_le. apply (total Qcle). Qed.
#[local] Instance key_le_trans a : Transitive (key_le a).
Proof. intros i j k. unfold key_le. apply Qcle_trans. Qed.

Lemma np_argsort_Permutation a : np_argsort a ≡ₚ seq 0 (length a).
Proof. apply merge_sort_Permutation. Qed.

Lemma np_argsort_in_range a : Forall (fun i => (i < length a)%nat) (np_argsort a).
Proof.
  apply Forall_forall. intros i Hi. rewrite np_argsort_Permutation in Hi.
  apply elem_of_seq in Hi. lia.
Qed.

Lemma np_argsort_sorted a : StronglySorted (key_le a) (np_argsort a).
Proof. apply (StronglySorted_merge_sort _). Qed.

Lemma np_take_in_range {A} (d : A) (a : list A) (idx : list nat) :
  Forall (fun i => (i < length a)%nat) idx ->
  np_take a idx = ret (map (fun i => nth i a d) idx).
Proof.
  induction 1 as [|i idx Hi _ IH]; [done|].
  simpl. destruct (lookup_lt_is_Some_2 a i Hi) as [x Hx].
  rewrite (getitem_Some _ _ _ Hx), bind_ret, IH, bind_ret.
  by rewrite (nth_lookup_Some _ _ d _ Hx).
Qed.

Lemma StronglySorted_lookup {A} (R : relation A) (l : list A) i j x y :
  (forall z, R z z) -> StronglySorted R l -> (i <= j)%nat ->
  l !! i = Some x -> l !! j = Some y -> R x y.
Proof.
  intros Hrefl Hs. revert i j.
  induction Hs as [|z l Hs IH Hall]; intros i j Hij Hi Hj; [done|].
  destruct i as [|i], j as [|j]; simpl in *; try lia.
  - simplify_eq. apply Hrefl.
  - simplify_eq. rewrite Forall_forall in Hall. apply Hall.
    by eapply list_elem_of_lookup_2.
  - apply (IH i j); [lia|done..].
Qed.

Lemma StronglySorted_reverse {A} (R : relation A) `{!Transitive R} (l : list A) :
  StronglySorted R l -> StronglySorted (flip R) (reverse l).
Proof.
  intros Hs. apply Sorted_StronglySorted; [by intros x y z ? ?; trans y|].
  apply Sorted_reverse. by apply StronglySorted_Sorted.
Qed.

Lemma zip_as_map {A B} (da : A) (db : B) (la : list A) (lb : list B) :
  length la = length lb ->
  zip la lb = map (fun i => (nth i la da, nth i lb db)) (seq 0 (length la)).
Proof.
  revert lb. induction la as [|x la IH]; intros [|y lb] Hl; try done.
  simpl. f_equal. rewrite <- seq_shift, map_map. apply IH. by injection Hl.
Qed.

Lemma zip_map_map {I A B} (f : I -> A) (g : I -> B) (l : list I) :
  zip (map f l) (map g l) = map (fun i => (f i, g i)) l.
Proof. induction l; simpl; by f_equal. Qed.

(** C9. For name and value arrays of equal length, [sort_features] returns
    one (name, value) pair per input entry: its rows are a permutation of
    the input pairs, none is dropped, and the values descend. *)
Theorem sort_features_permutes_descending
    (names : list string) (sortby : list Qc) :
  length names = length sortby ->
  returns (sort_features names sortby)
    (fun out sort =>
       out = [] /\
       sort ≡ₚ zip names sortby /\
       length sort = length names /\
       forall i j p q, (i <= j)%nat -> sort !! i = Some p -> sort !! j = Some q ->
                       q.2 ≤ p.2).
Proof.
  intros Hlen. unfold sort_features.
  set (sort_id := reverse (np_argsort sortby)).
  assert (Hrange : Forall (fun i => (i < length sortby)%nat) sort_id).
  { unfold sort_id. rewrite Forall_reverse. apply np_argsort_in_range. }
  set (name_at := fun i => nth i names ""%string).
  set (value_at := fun i => nth i sortby 0).
  apply returns_bind.
  eapply returns_impl.
  - apply (for_each_returns (fun done out '(sn, sv) =>
      out = [] /\ sn = map name_at done /\ sv = map value_at done)); [done|].
    intros done i rest out [sn sv] Hidx (-> & -> & ->).
    assert (Hi : (i < length sortby)%nat).
    { rewrite Forall_forall in Hrange. apply Hrange. rewrite Hidx.
      apply elem_of_app. right. apply elem_of_cons. by left. }
    destruct (lookup_lt_is_Some_2 names i ltac:(lia)) as [name Hname].
    destruct (lookup_lt_is_Some_2 sortby i Hi) as [value Hvalue].
    rewrite (getitem_Some _ _ _ Hname), bind_ret.
    rewrite (getitem_Some _ _ _ Hvalue), bind_ret. simpl.
    rewrite !map_app. simpl. unfold name_at, value_at.
    by rewrite (nth_lookup_Some _ _ _ _ Hname), (nth_lookup_Some _ _ _ _ Hvalue).
  - intros out [sn sv] (-> & -> & ->). simpl.
    rewrite zip_map_map. split_and!; [done| | |].
    + rewrite (zip_as_map ""%string 0 names sortby Hlen).
      apply Permutation_map. unfold sort_id.
      rewrite reverse_Permutation, np_argsort_Permutation. by rewrite Hlen.
    + rewrite length_map. unfold sort_id.
      by rewrite length_reverse, np_argsort_Permutation, length_seq.
    + intros i j p q Hij Hp Hq.
      apply (StronglySorted_lookup (fun p q : string * Qc => q.2 ≤ p.2)
               (map (fun i => (name_at i, value_at i)) sort_id) i j p q);
        [intros z; apply Qcle_refl| |done..].
      apply (StronglySorted_fmap _ (flip (key_le sortby))); [done|].
      apply (StronglySorted_reverse _), np_argsort_sorted.
Qed.

Lemma np_column_in_range (m : matrix) (j : nat) :
  Forall (fun v => (j < length v)%nat) m ->
  np_column m j = ret (map (fun v => nth j v 0) m).
Proof.
  induction 1 as [|v m Hv _ IH]; [done|].
  simpl. destruct (lookup_lt_is_Some_2 v j Hv) as [x Hx].
  rewrite (getitem_Some _ _ _ Hx), bind_ret, IH, bind_ret.
  by rewrite (nth_lookup_Some _ _ 0 _ Hx).
Qed.

Lemma np_dot_same_length (x y : list Qc) :
  length x = length y -> np_dot x y = ret (np_sum (zip_with Qcmult x y)).
Proof. intros H. unfold np_dot. by rewrite (decide_True _ _ H). Qed.

Section projection.
Variable pyemma_pca : matrix -> option nat -> pca_model.

Lemma project_on_pc_spec (data : matrix) (ev_idx : nat) (pca : pca_model) :
  Forall (fun frame => length frame = length (eigenvectors pca)) data ->
  Forall (fun v => (ev_idx < length v)%nat) (eigenvectors pca) ->
  returns (project_on_pc pyemma_pca data ev_idx (Some pca))
  (fun out projection =>
     let axis := map (fun v => nth ev_idx v 0) (eigenvectors pca) in
     out = [] /\ length projection = length data /\
     forall ti frame, data !! ti = Some frame ->
       projection !! ti = Some (np_sum (zip_with Qcmult frame axis))).
Proof.
  intros Hshape Hidx. unfold project_on_pc.
  set (axis := map (fun v => nth ev_idx v 0) (eigenvectors pca)).
  eapply returns_impl.
  - apply (for_each_range_returns (fun k out projection =>
    out = [] /\ length projection = length data /\
    forall ti frame, (ti < k)%nat -> data !! ti = Some frame ->
      projection !! ti = Some (np_sum (zip_with Qcmult frame axis)))).
  + unfold np_zeros. rewrite length_replicate. split_and!; [done..|]. intros; lia.
  + intros ti out projection Hti (-> & Hlen & Hinv).
    destruct (lookup_lt_is_Some_2 data ti Hti) as [frame Hframe].
    rewrite (getitem_Some _ _ _ Hframe), bind_ret.
    rewrite (np_column_in_range _ _ Hidx), bind_ret. fold axis.
    rewrite np_dot_same_length, bind_ret.
    2:{ unfold axis. rewrite length_map.
        rewrite Forall_forall in Hshape. apply Hshape.
        by eapply list_elem_of_lookup_2. }
    rewrite setitem_lt by lia. simpl.
    rewrite length_insert. split_and!; [done..|].
    intros tj frame' Htj Hframe'. destruct (decide (tj = ti)) as [->|Hne].
    * rewrite list_lookup_insert_eq by lia. by simplify_eq.
    * rewrite list_lookup_insert_ne by done. apply Hinv; [lia|done].
  - intros out projection (-> & Hlen & Hinv). simpl. split_and!; [done..|].
  intros ti frame Hframe. apply Hinv; [by eapply lookup_lt_Some|done].
Qed.

Lemma sorted_projection_total
    (data : matrix) (evi : nat) (pca : pca_model) :
  Forall (fun frame => length frame = length (eigenvectors pca)) data ->
  Forall (fun v => (evi < length v)%nat) (eigenvectors pca) ->
  returns (sorted_projection pyemma_pca data evi pca)
    (fun out '(proj, sort_idx, proj_sort) =>
       let axis := map (fun v => nth evi v 0) (eigenvectors pca) in
       out = [] /\ length proj = length data /\
       (forall ti frame, data !! ti = Some frame ->
          proj !! ti = Some (np_sum (zip_with Qcmult frame axis))) /\
       sort_idx = np_argsort proj /\
       sort_idx ≡ₚ seq 0 (length proj) /\
       proj_sort = map (fun i => nth i proj 0) sort_idx /\
       forall i j x y, (i <= j)%nat ->
         proj_sort !! i = Some x -> proj_sort !! j = Some y -> x ≤ y).
Proof.
  intros Hshape Hidx. unfold sorted_projection.
  apply returns_bind.
  eapply returns_impl; [by apply project_on_pc_spec|].
  intros out proj (-> & Hlen & Hproj).
  rewrite (np_take_in_range 0 proj (np_argsort proj) (np_argsort_in_range proj)).
  rewrite bind_ret. simpl.
  split_and!; [done..|apply np_argsort_Permutation|done|].
  intros i j x y Hij Hx Hy.
  apply (StronglySorted_lookup Qcle
         (map (fun i => nth i proj 0) (np_argsort proj)) i j x y);
  [apply Qcle_refl| |done..].
  apply (StronglySorted_fmap _ (key_le proj)); [done|].
  apply np_argsort_sorted.
Qed.

Lemma project_on_pc_on_return (data : matrix) (ev_idx : nat) (pca : pca_model) :
  on_return (project_on_pc pyemma_pca data ev_idx (Some pca))
    (fun out projection =>
       let axis := map (fun v => nth ev_idx v 0) (eigenvectors pca) in
       out = [] /\ length projection = length data /\
       forall ti frame, data !! ti = Some frame ->
         projection !! ti = Some (np_sum (zip_with Qcmult frame axis))).
Proof.
  unfold project_on_pc.
  set (axis := map (fun v => nth ev_idx v 0) (eigenvectors pca)).
  eapply on_return_impl.
  - apply (on_return_for_each_range (fun k out projection =>
      out = [] /\ length projection = length data /\
      forall ti frame, (ti < k)%nat -> data !! ti = Some frame ->
        projection !! ti = Some (np_sum (zip_with Qcmult frame axis)))).
    + unfold np_zeros. rewrite length_replicate. split_and!; [done..|]. intros; lia.
    + intros ti out projection Hti (-> & Hlen & Hinv).
      apply on_return_bind, on_return_getitem; intros frame Hframe.
      apply on_return_bind, on_return_np_column. fold axis.
      apply on_return_bind, on_return_np_dot; intros _.
      apply on_return_setitem; intros _. simpl.
      rewrite length_insert. split_and!; [done..|].
      intros tj frame' Htj Hframe'. destruct (decide (tj = ti)) as [->|Hne].
      * rewrite list_lookup_insert_eq by lia. by simplify_eq.
      * rewrite list_lookup_insert_ne by done. apply Hinv; [lia|done].
  - intros out projection (-> & Hlen & Hinv). simpl. split_and!; [done..|].
    intros ti frame Hframe. apply Hinv; [by eapply lookup_lt_Some|done].
Qed.

Lemma sorted_projection_on_return (data : matrix) (evi : nat) (pca : pca_model) :
  on_return (sorted_projection pyemma_pca data evi pca)
    (fun out '(proj, sort_idx, proj_sort) =>
       let axis := map (fun v => nth evi v 0) (eigenvectors pca) in
       out = [] /\ length proj = length data /\
       (forall ti frame, data !! ti = Some frame ->
          proj !! ti = Some (np_sum (zip_with Qcmult frame axis))) /\
       sort_idx = np_argsort proj /\
       sort_idx ≡ₚ seq 0 (length proj) /\
       proj_sort = map (fun i => nth i proj 0) sort_idx /\
       forall i j x y, (i <= j)%nat ->
         proj_sort !! i = Some x -> proj_sort !! j = Some y -> x ≤ y).
Proof.
  unfold sorted_projection. apply on_return_bind.
  eapply on_return_impl; [apply project_on_pc_on_return|].
  intros out proj (-> & Hlen & Hproj).
  rewrite (np_take_in_range 0 proj (np_argsort proj) (np_argsort_in_range proj)).
  rewrite bind_ret. simpl.
  split_and!; [done..|apply np_argsort_Permutation|done|].
  intros i j x y Hij Hx Hy.
  apply (StronglySorted_lookup Qcle
           (map (fun i => nth i proj 0) (np_argsort proj)) i j x y);
    [apply Qcle_refl| |done..].
  apply (StronglySorted_fmap _ (key_le proj)); [done|].
  apply np_argsort_sorted.
Qed.

(** C8. In the loop body shared by [sort_traj_along_pc] and
    [sort_trajs_along_common_pc], the projection of every frame is the dot
    product of its feature vector with column [evi] of the eigenvector
    matrix, and [proj_sort = proj[sort_idx]] never decreases.  This holds
    whenever the three statements complete; and they complete whenever the
    frames are as wide as the eigenvector matrix is high and the matrix has
    a column [evi]. *)
Theorem sorted_projection_non_decreasing
    (data : matrix) (evi : nat) (pca : pca_model) :
  on_return (sorted_projection pyemma_pca data evi pca)
    (fun out '(proj, sort_idx, proj_sort) =>
       let axis := map (fun v => nth evi v 0) (eigenvectors pca) in
       out = [] /\ length proj = length data /\
       (forall ti frame, data !! ti = Some frame ->
          proj !! ti = Some (np_sum (zip_with Qcmult frame axis))) /\
       sort_idx = np_argsort proj /\
       sort_idx ≡ₚ seq 0 (length proj) /\
       proj_sort = map (fun i => nth i proj 0) sort_idx /\
       forall i j x y, (i <= j)%nat ->
         proj_sort !! i = Some x -> proj_sort !! j = Some y -> x ≤ y)
  /\ (Forall (fun frame => length frame = length (eigenvectors pca)) data ->
      Forall (fun v => (evi < length v)%nat) (eigenvectors pca) ->
      returns (sorted_projection pyemma_pca data evi pca) (fun _ _ => True)).
Proof.
  split.
  - apply sorted_projection_on_return.
  - intros Hshape Hidx.
    eapply returns_impl; [by apply sorted_projection_total|]. done.
Qed.
End projection.
End sorting.

(** * Combined clustering and the driver *)

Section clustering_lemmas.
Local Open Scope Qc_scope.

Lemma np_sum_app l1 l2 : np_sum (l1 ++ l2) = np_sum l1 + np_sum l2.
Proof.
  induction l1 as [|x l1 IH]; simpl; [ring|]. rewrite IH. ring.
Qed.

Lemma np_sum_nonneg l : Forall (fun x => 0 ≤ x) l -> 0 ≤ np_sum l.
Proof.
  induction 1 as [|x l Hx _ IH]; simpl; [done|]. by apply Qcplus_nonneg_nonneg.
Qed.

Lemma square_nonneg x : 0 ≤ square x.
Proof.
  unfold square. destruct (total Qcle 0 x) as [H|H].
  - by apply Qcmult_nonneg_nonneg.
  - replace (x * x) with ((- x) * (- x)) by ring.
    assert (0 ≤ - x).
    { apply Qcopp_le_compat in H. by replace (- 0) with 0 in H by ring. }
    by apply Qcmult_nonneg_nonneg.
Qed.

Lemma squared_distance_nonneg row c : 0 ≤ squared_distance row c.
Proof.
  unfold squared_distance. apply np_sum_nonneg.
  revert c. induction row as [|x row IH]; intros [|c_j c]; simpl; try by constructor.
  constructor; [apply square_nonneg|apply IH].
Qed.

Lemma np_sum2_squared_deviations m c :
  np_sum2 (squared_deviations m c) = np_sum (map (fun row => squared_distance row c) m).
Proof.
  unfold np_sum2, squared_deviations. induction m as [|row m IH]; [done|].
  simpl. rewrite np_sum_app, IH. done.
Qed.

Lemma where_take_aux
    (cpre : list Z) (pre : matrix) (cidx : list Z) (data : matrix) (i : Z) :
  length cpre = length pre -> length cidx = length data ->
  map (fun p => nth p (pre ++ data) [])
      (filter (fun p => (cpre ++ cidx) !! p = Some i) (seq (length cpre) (length cidx)))
  = members data cidx i.
Proof.
  revert data cpre pre.
  induction cidx as [|c cidx IH]; intros [|row data] cpre pre Hpre Hlen;
    try done.
  simpl in Hlen. injection Hlen as Hlen.
  cbn [length seq]. unfold members. cbn [zip zip_with].
  specialize (IH data (cpre ++ [c]) (pre ++ [row])).
  rewrite !length_app, <- !app_assoc in IH. simpl in IH.
  rewrite Nat.add_1_r in IH. specialize (IH ltac:(lia) Hlen).
  destruct (decide (c = i)) as [->|Hne].
  - rewrite filter_cons_True by (by rewrite list_lookup_middle).
    rewrite (filter_cons_True _ (row, i)) by done. cbn [map fmap list_fmap].
    rewrite IH. f_equal. rewrite Hpre. by rewrite nth_middle.
  - rewrite filter_cons_False by (rewrite list_lookup_middle by done; congruence).
    rewrite (filter_cons_False _ (row, c)) by done. apply IH.
Qed.

Lemma cluster_members_spec (data : matrix) (cidx : list Z) (i : Z) :
  length cidx = length data ->
  cluster_members data cidx i = ret (members data cidx i).
Proof.
  intros Hlen. unfold cluster_members.
  rewrite (np_take_in_range [] data).
  - f_equal. f_equal. by apply (where_take_aux [] []).
  - unfold np_where_equal. apply Forall_forall. intros p Hp.
    apply list_elem_of_filter in Hp as [_ Hp]. apply elem_of_seq in Hp. lia.
Qed.

Lemma members_nonempty (data : matrix) (cidx : list Z) (i : Z) :
  length cidx = length data -> i ∈ cidx -> members data cidx i <> [].
Proof.
  unfold members. revert data. induction cidx as [|c cidx IH]; intros [|row data] Hlen Hi;
    try done.
  - by apply elem_of_nil in Hi.
  - cbn [zip zip_with]. destruct (decide (c = i)) as [->|Hne].
    + by rewrite filter_cons_True.
    + rewrite filter_cons_False by done. apply IH; [by injection Hlen|].
      apply elem_of_cons in Hi as [->|Hi]; done.
Qed.

Lemma elem_of_np_unique (a : list Z) (v : Z) : v ∈ np_unique a <-> v ∈ a.
Proof. unfold np_unique. by rewrite merge_sort_Permutation, elem_of_remove_dups. Qed.

Lemma NoDup_np_unique (a : list Z) : NoDup (np_unique a).
Proof. unfold np_unique. rewrite merge_sort_Permutation. apply NoDup_remove_dups. Qed.

Lemma returns_emit (e : event) (P : list event -> unit -> Prop) :
  P [e] tt -> returns (emit e) P.
Proof. done. Qed.

Lemma np_mask_same_length {A} (a : list A) (mask : list bool) :
  length mask = length a ->
  np_mask a mask = ret (map fst (filter (fun xb => snd xb = true) (zip a mask))).
Proof. intros H. unfold np_mask. by rewrite (decide_True _ _ H). Qed.

End clustering_lemmas.

Section combined_clustering.
Variable cluster_kmeans : matrix -> Z -> Z -> Py (list Z).
Variable cluster_regspace : matrix -> Qc -> Py (list Z).
Variable trajectory_frames : string -> nat.
Local Open Scope Qc_scope.

Lemma obtain_combined_clusters_spec (data_g data_a data : matrix)
    (start_frame : Z) (label_g label_a algorithm : string) (num_clusters : Z)
    (min_dist : Qc) (max_iter : Z) (plot : bool) (saveas : option string)
    (called : list event) (cidx : list Z) :
  np_concatenate_rows data_g data_a = ret data ->
  (algorithm = "kmeans" /\
     cluster_kmeans data num_clusters 100 = (called, inr cidx)) \/
  (algorithm = "rspace" /\
     cluster_regspace data min_dist = (called, inr cidx)) ->
  length cidx = length data ->
  returns (obtain_combined_clusters cluster_kmeans cluster_regspace
             data_g data_a start_frame label_g label_a algorithm
             num_clusters min_dist max_iter plot saveas)
    (fun _ '(cidx', cond, oidx, total_wss, centroids) =>
       let centroid i := np_mean_axis0 (members data cidx i) in
       cidx' = cidx /\
       cond = np_ones (length data_g) ++ np_zeros (length data_a) /\
       oidx = np_arange_from (length data_g) start_frame
              ++ np_arange_from (length data_a) start_frame /\
       centroids = map centroid (np_unique cidx) /\
       total_wss = np_sum (map (fun i =>
                      np_sum (map (fun row => squared_distance row (centroid i))
                                  (members data cidx i)))
                    (np_unique cidx))).
Proof.
  intros Hdata Hcall Hlen.
  destruct (np_concatenate_rows_app _ _ _ _ Hdata) as [_ Happ].
  unfold obtain_combined_clusters. rewrite Hdata, bind_ret.
  assert (Hknown : known_algorithm algorithm = true).
  { unfold known_algorithm. apply bool_decide_eq_true_2.
    destruct Hcall as [[-> _]|[-> _]]; [by left|by right; left]. }
  rewrite (assert_true _ Hknown), bind_ret.
  apply returns_bind.
  assert (Hcidx : returns
    (if decide (algorithm = "kmeans")
     then bind (emit (KMeans data num_clusters 100))
               (fun _ => cluster_kmeans data num_clusters 100)
     else bind (emit (Regspace data min_dist))
               (fun _ => cluster_regspace data min_dist))
    (fun _ c => c = cidx)).
  { destruct Hcall as [[-> Hc]|[-> Hc]].
    - rewrite decide_True by done. apply returns_bind, returns_emit. by rewrite Hc.
    - rewrite decide_False by done. apply returns_bind, returns_emit. by rewrite Hc. }
  eapply returns_impl; [exact Hcidx|]. clear Hcidx. intros _ ? ->.
  apply returns_bind.
  set (centroid := fun i => np_mean_axis0 (members data cidx i)).
  set (wss := fun i => np_sum (map (fun row => squared_distance row (centroid i))
                                   (members data cidx i))).
  eapply returns_impl.
  { apply (for_each_returns (fun done _ '(centroids, total_wss) =>
      centroids = map centroid done /\ total_wss = np_sum (map wss done))).
    - done.
    - intros done i rest out [centroids total_wss] _ [-> ->].
      rewrite (cluster_members_spec _ _ _ Hlen), bind_ret. simpl.
      rewrite !map_app, np_sum_app. simpl. split; [done|].
      rewrite np_sum2_squared_deviations. unfold wss, centroid. ring. }
  intros _ [centroids total_wss] [-> ->]. simpl.
  apply returns_bind.
  assert (Hcond : length (np_concatenate (np_ones (length data_g))
                                         (np_zeros (length data_a))) = length cidx).
  { unfold np_concatenate, np_ones, np_zeros.
    rewrite length_app, !length_replicate, Hlen, Happ, length_app. done. }
  destruct plot.
  - unfold np_unique_counts. lazy beta iota.
    rewrite np_mask_same_length by (unfold np_equal; by rewrite length_map).
    rewrite bind_ret. lazy beta iota.
    rewrite np_mask_same_length by (unfold np_equal; by rewrite length_map).
    rewrite bind_ret. lazy beta iota.
    destruct saveas; done.
  - simpl. done.
Qed.

Lemma obtain_combined_clusters_on_return (data_g data_a : matrix)
    (start_frame : Z) (label_g label_a algorithm : string) (num_clusters : Z)
    (min_dist : Qc) (max_iter : Z) (plot : bool) (saveas : option string) :
  on_return (obtain_combined_clusters cluster_kmeans cluster_regspace
               data_g data_a start_frame label_g label_a algorithm
               num_clusters min_dist max_iter plot saveas)
    (fun _ '(cidx, cond, oidx, total_wss, centroids) =>
       let data := data_g ++ data_a in
       let centroid i := np_mean_axis0 (members data cidx i) in
       (exists called,
          (algorithm = "kmeans" /\
             cluster_kmeans data num_clusters 100 = (called, inr cidx)) \/
          (algorithm = "rspace" /\
             cluster_regspace data min_dist = (called, inr cidx))) /\
       cond = np_ones (length data_g) ++ np_zeros (length data_a) /\
       oidx = np_arange_from (length data_g) start_frame
              ++ np_arange_from (length data_a) start_frame /\
       (length cidx = length data ->
        centroids = map centroid (np_unique cidx) /\
        total_wss = np_sum (map (fun i =>
                       np_sum (map (fun row => squared_distance row (centroid i))
                                   (members data cidx i)))
                     (np_unique cidx)))).
Proof.
  unfold obtain_combined_clusters.
  apply on_return_bind, on_return_np_concatenate_rows.
  set (data := data_g ++ data_a).
  apply on_return_bind, on_return_assert; intros Hknown.
  apply on_return_bind.
  assert (Hcall : on_return
    (if decide (algorithm = "kmeans")
     then bind (emit (KMeans data num_clusters 100))
               (fun _ => cluster_kmeans data num_clusters 100)
     else bind (emit (Regspace data min_dist))
               (fun _ => cluster_regspace data min_dist))
    (fun _ cidx => exists called,
       (algorithm = "kmeans" /\
          cluster_kmeans data num_clusters 100 = (called, inr cidx)) \/
       (algorithm = "rspace" /\
          cluster_regspace data min_dist = (called, inr cidx)))).
  { case_decide as Halg.
    - apply on_return_bind, on_return_emit.
      destruct (cluster_kmeans data num_clusters 100) as [called [e|c]] eqn:E;
        [done|]. simpl. exists called. by left.
    - apply on_return_bind, on_return_emit.
      assert (algorithm = "rspace") as Hr.
      { unfold known_algorithm in Hknown. apply bool_decide_eq_true_1 in Hknown.
        apply elem_of_cons in Hknown as [?|Hknown]; [done|].
        by apply list_elem_of_singleton in Hknown. }
      destruct (cluster_regspace data min_dist) as [called [e|c]] eqn:E;
        [done|]. simpl. exists called. by right. }
  eapply on_return_impl; [exact Hcall|]. clear Hcall. intros out0 cidx Hcidx.
  apply on_return_bind.
  set (centroid := fun i => np_mean_axis0 (members data cidx i)).
  set (wss := fun i => np_sum (map (fun row => squared_distance row (centroid i))
                                   (members data cidx i))).
  eapply on_return_impl.
  { apply (on_return_for_each (fun done _ '(centroids, total_wss) =>
      length cidx = length data ->
      centroids = map centroid done /\ total_wss = np_sum (map wss done))).
    - done.
    - intros done i rest out [centroids total_wss] _ Hinv.
      destruct (decide (length cidx = length data)) as [Hlen|Hlen].
      + destruct (Hinv Hlen) as [-> ->].
        rewrite (cluster_members_spec _ _ _ Hlen), bind_ret. simpl. intros _.
        rewrite !map_app, np_sum_app. simpl. split; [done|].
        rewrite np_sum2_squared_deviations. unfold wss, centroid. ring.
      + eapply on_return_impl; [apply on_return_True|]. by intros ? [? ?] _ ?. }
  intros out1 [centroids total_wss] Hloop. simpl.
  apply on_return_bind.
  eapply on_return_impl; [apply on_return_True|].
  intros out2 [] _. simpl. done.
Qed.
Lemma lookup_np_arange_from n start p :
  (p < n)%nat -> np_arange_from n start !! p = Some (Z.of_nat p + start)%Z.
Proof.
  intros Hp. unfold np_arange_from. rewrite list_lookup_fmap.
  by rewrite lookup_seq_lt.
Qed.

(** C3. [obtain_combined_clusters] clusters the rows of the first
    ensemble followed by those of the second, tags every row with its
    source (1 for the first ensemble, 0 for the second), records for every
    row its position within its own ensemble plus [start_frame], and
    returns the tag and index arrays next to the cluster assignment.  This
    holds of every call that returns; and the call returns whenever NumPy
    accepts the concatenation and the selected clustering routine yields
    one index per row. *)
Theorem combined_rows_tags_and_frame_indices (data_g data_a : matrix)
    (start_frame : Z) (label_g label_a algorithm : string) (num_clusters : Z)
    (min_dist : Qc) (max_iter : Z) (plot : bool) (saveas : option string) :
  on_return (obtain_combined_clusters cluster_kmeans cluster_regspace
               data_g data_a start_frame label_g label_a algorithm
               num_clusters min_dist max_iter plot saveas)
    (fun _ '(cidx, cond, oidx, _, _) =>
       let data := data_g ++ data_a in
       (exists called,
          (algorithm = "kmeans" /\
             cluster_kmeans data num_clusters 100 = (called, inr cidx)) \/
          (algorithm = "rspace" /\
             cluster_regspace data min_dist = (called, inr cidx))) /\
       length cond = length data /\ length oidx = length data /\
       (forall p row, data_g !! p = Some row ->
          data !! p = Some row /\ cond !! p = Some 1 /\
          oidx !! p = Some (Z.of_nat p + start_frame)%Z) /\
       (forall p row, data_a !! p = Some row ->
          data !! (length data_g + p)%nat = Some row /\
          cond !! (length data_g + p)%nat = Some 0 /\
          oidx !! (length data_g + p)%nat = Some (Z.of_nat p + start_frame)%Z))
  /\ forall data called cidx,
       np_concatenate_rows data_g data_a = ret data ->
       (algorithm = "kmeans" /\
          cluster_kmeans data num_clusters 100 = (called, inr cidx)) \/
       (algorithm = "rspace" /\
          cluster_regspace data min_dist = (called, inr cidx)) ->
       length cidx = length data ->
       returns (obtain_combined_clusters cluster_kmeans cluster_regspace
               data_g data_a start_frame label_g label_a algorithm
               num_clusters min_dist max_iter plot saveas)
         (fun _ '(cidx', _, _, _, _) => cidx' = cidx).
Proof.
  split.
  - eapply on_return_impl; [apply obtain_combined_clusters_on_return|].
    intros _ [[[[cidx cond] oidx] wss] centroids] (Hcall & -> & -> & _).
    assert (Hg : length (np_ones (length data_g)) = length data_g)
      by apply length_replicate.
    assert (Hg' : length (np_arange_from (length data_g) start_frame)
                  = length data_g).
    { unfold np_arange_from. by rewrite length_map, length_seq. }
    split_and!; [done| | | |].
    + rewrite !length_app. unfold np_ones, np_zeros.
      by rewrite !length_replicate.
    + rewrite !length_app. unfold np_arange_from.
      by rewrite !length_map, !length_seq.
    + intros p row Hrow. pose proof (lookup_lt_Some _ _ _ Hrow) as Hp.
      rewrite !lookup_app_l by lia. split_and!; [done| |].
      * by apply lookup_replicate_2.
      * by apply lookup_np_arange_from.
    + intros p row Hrow. pose proof (lookup_lt_Some _ _ _ Hrow) as Hp.
      rewrite !lookup_app_r by lia.
      rewrite Hg, Hg'.
      replace (length data_g + p - length data_g)%nat with p by lia.
      split_and!; [done| |].
      * by apply lookup_replicate_2.
      * by apply lookup_np_arange_from.
  - intros data called cidx Hdata Hcall Hlen.
    eapply returns_impl; [by eapply obtain_combined_clusters_spec|].
    by intros out [[[[cidx' cond] oidx] wss] centroids] (-> & _).
Qed.

Lemma lookup_np_mean_axis0 (row0 : list Qc) (rest : matrix) (j : nat) :
  (j < length row0)%nat ->
  np_mean_axis0 (row0 :: rest) !! j
  = Some (np_mean (map (fun r => nth j r 0) (row0 :: rest))).
Proof.
  intros Hj. unfold np_mean_axis0. rewrite list_lookup_fmap.
  by rewrite lookup_seq_lt.
Qed.

(** C4. [obtain_combined_clusters] computes one centroid per cluster id
    that occurs in the assignment, the column-wise mean of the rows
    assigned to it; such a cluster always has a member, so no mean is taken
    over an empty set; the total WSS it returns is the sum, over these
    clusters, of the squared Euclidean distances of the members to their
    centroid, and is not negative.  This holds of every call that returns
    with one cluster index per row; and the call returns whenever NumPy
    accepts the concatenation and the selected clustering routine yields
    one index per row. *)
Theorem centroids_and_total_wss (data_g data_a : matrix)
    (start_frame : Z) (label_g label_a algorithm : string) (num_clusters : Z)
    (min_dist : Qc) (max_iter : Z) (plot : bool) (saveas : option string) :
  on_return (obtain_combined_clusters cluster_kmeans cluster_regspace
               data_g data_a start_frame label_g label_a algorithm
               num_clusters min_dist max_iter plot saveas)
    (fun _ '(cidx, _, _, total_wss, centroids) =>
       let data := data_g ++ data_a in
       let realized := np_unique cidx in
       let centroid i := np_mean_axis0 (members data cidx i) in
       length cidx = length data ->
       (forall i, i ∈ realized <-> i ∈ cidx) /\ NoDup realized /\
       centroids = map centroid realized /\
       (forall i, i ∈ realized ->
          cluster_members data cidx i = ret (members data cidx i) /\
          exists row0 rest, members data cidx i = row0 :: rest /\
            forall j, (j < length row0)%nat ->
              centroid i !! j
              = Some (np_mean (map (fun r => nth j r 0) (row0 :: rest)))) /\
       total_wss = np_sum (map (fun i =>
                      np_sum (map (fun row => squared_distance row (centroid i))
                                  (members data cidx i)))
                    realized) /\
       0 ≤ total_wss)
  /\ forall data called cidx,
       np_concatenate_rows data_g data_a = ret data ->
       (algorithm = "kmeans" /\
          cluster_kmeans data num_clusters 100 = (called, inr cidx)) \/
       (algorithm = "rspace" /\
          cluster_regspace data min_dist = (called, inr cidx)) ->
       length cidx = length data ->
       returns (obtain_combined_clusters cluster_kmeans cluster_regspace
               data_g data_a start_frame label_g label_a algorithm
               num_clusters min_dist max_iter plot saveas)
         (fun _ '(cidx', _, _, _, _) => cidx' = cidx).
Proof.
  split.
  - eapply on_return_impl; [apply obtain_combined_clusters_on_return|].
    intros _ [[[[cidx cond] oidx] wss] centroids] (_ & _ & _ & Hloop).
    cbv zeta. intros Hlen. destruct (Hloop Hlen) as [-> ->].
    set (data := data_g ++ data_a) in *.
    split_and!; [apply elem_of_np_unique|apply NoDup_np_unique|done| |done|].
    + intros i Hi. split; [by apply cluster_members_spec|].
      apply (proj1 (elem_of_np_unique cidx i)) in Hi.
      pose proof (members_nonempty data cidx i Hlen Hi) as Hne.
      destruct (members data cidx i) as [|row0 rest]; [done|].
      exists row0, rest. split; [done|].
      intros j Hj. by apply lookup_np_mean_axis0.
    + apply np_sum_nonneg, Forall_forall. intros w Hw.
      apply list_elem_of_fmap in Hw as (i & -> & _).
      apply np_sum_nonneg, Forall_forall. intros d Hd.
      apply list_elem_of_fmap in Hd as (row & -> & _).
      apply squared_distance_nonneg.
  - intros data called cidx Hdata Hcall Hlen.
    eapply returns_impl; [by eapply obtain_combined_clusters_spec|].
    by intros out [[[[cidx' cond] oidx] wss] centroids] (-> & _).
Qed.

Lemma bind_emit {A B} (e : event) (m : Py A) (f : A -> Py B) :
  bind (bind (emit e) (fun _ => m)) f
  = (e :: (bind m f).1, (bind m f).2).
Proof.
  destruct m as [out [err|a]]; simpl; [done|]. by destruct (f a).
Qed.

(** C10. With [algorithm = "kmeans"] the outcome of
    [obtain_combined_clusters] does not depend on [max_iter]: whatever the
    argument, the k-means routine is invoked on the concatenated rows with
    the iteration cap 100. *)
Theorem combined_clusters_ignore_max_iter (data_g data_a : matrix)
    (start_frame : Z) (label_g label_a : string) (num_clusters : Z)
    (min_dist : Qc) (max_iter max_iter' : Z) (plot : bool)
    (saveas : option string) :
  obtain_combined_clusters cluster_kmeans cluster_regspace
    data_g data_a start_frame label_g label_a "kmeans"
    num_clusters min_dist max_iter plot saveas
  = obtain_combined_clusters cluster_kmeans cluster_regspace
      data_g data_a start_frame label_g label_a "kmeans"
      num_clusters min_dist max_iter' plot saveas
  /\ forall data, np_concatenate_rows data_g data_a = ret data ->
     exists out r,
       obtain_combined_clusters cluster_kmeans cluster_regspace
         data_g data_a start_frame label_g label_a "kmeans"
         num_clusters min_dist max_iter plot saveas
       = (KMeans data num_clusters 100 :: out, r).
Proof.
  split; [done|]. intros data Hdata.
  unfold obtain_combined_clusters. rewrite Hdata, bind_ret.
  rewrite assert_true, bind_ret by done.
  rewrite decide_True by done. rewrite bind_emit. by eexists _, _.
Qed.

(** By contrast [obtain_clusters] hands its [max_iter] on. *)
Lemma obtain_clusters_max_iter (data : matrix) (num_clusters : Z)
    (min_dist : Qc) (max_iter : Z) :
  exists out r,
    obtain_clusters cluster_kmeans cluster_regspace data "kmeans"
      num_clusters min_dist max_iter
    = (KMeans data num_clusters max_iter :: out, r).
Proof.
  unfold obtain_clusters. rewrite assert_true, bind_ret by done.
  rewrite decide_True by done. rewrite bind_emit. by eexists _, _.
Qed.

Lemma np_mask_second (cidx_a cidx_b : list Z) :
  np_mask (cidx_a ++ cidx_b)
          (np_equal (np_concatenate (np_ones (length cidx_a))
                                    (np_zeros (length cidx_b))) 0)
  = ret cidx_b.
Proof.
  rewrite np_mask_same_length.
  2:{ unfold np_equal, np_concatenate, np_ones, np_zeros.
      by rewrite length_map, !length_app, !length_replicate. }
  f_equal. f_equal. unfold np_equal, np_concatenate, np_ones, np_zeros.
  assert (H10 : bool_decide (1 = 0) = false) by (by apply bool_decide_eq_false_2).
  assert (H00 : bool_decide (0 = 0) = true) by (by apply bool_decide_eq_true_2).
  induction cidx_a as [|c cidx_a IH].
  - induction cidx_b as [|c cidx_b IH]; [done|].
    cbn [length replicate app map zip zip_with]. rewrite H00.
    rewrite filter_cons_True by done. cbn [map fst]. f_equal. apply IH.
  - cbn [length replicate app map zip zip_with]. rewrite H10.
    rewrite filter_cons_False by done. apply IH.
Qed.

(** C6. In the write branch of the driver both calls of
    [write_cluster_traj], the one for simulation A's files and the one for
    simulation B's, receive [cidx[cond==0]], the assignments of the second
    ensemble; the assignments of the first ensemble do not influence what
    is written. *)
Theorem write_branch_uses_second_ensemble_twice
    (args : arguments) (cidx_a cidx_b : list Z) :
  let cond := np_concatenate (np_ones (length cidx_a))
                             (np_zeros (length cidx_b)) in
  write_branch trajectory_frames args (cidx_a ++ cidx_b) cond
  = (write_cluster_traj trajectory_frames cidx_b
       (ref_file_a args) (trj_file_a args) (out_frames_a args)
       (start_frame args) ;;;
     write_cluster_traj trajectory_frames cidx_b
       (ref_file_b args) (trj_file_b args) (out_frames_b args)
       (start_frame args))
  /\ forall cidx_a', length cidx_a' = length cidx_a ->
       write_branch trajectory_frames args (cidx_a' ++ cidx_b) cond
       = write_branch trajectory_frames args (cidx_a ++ cidx_b) cond.
Proof.
  intros cond.
  assert (Hbranch : forall ca, length ca = length cidx_a ->
    write_branch trajectory_frames args (ca ++ cidx_b) cond
    = (write_cluster_traj trajectory_frames cidx_b
         (ref_file_a args) (trj_file_a args) (out_frames_a args)
         (start_frame args) ;;;
       write_cluster_traj trajectory_frames cidx_b
         (ref_file_b args) (trj_file_b args) (out_frames_b args)
         (start_frame args))).
  { intros ca Hca. unfold write_branch, cond. rewrite <- Hca.
    by rewrite np_mask_second, !bind_ret. }
  split; [by apply Hbranch|].
  intros ca Hca. by rewrite !Hbranch.
Qed.
End combined_clustering.

(** * Further properties: error cases, effects and composition *)

(** ** More rules for loops and exceptions *)

Lemma bind_assoc {A B C} (m : Py A) (f : A -> Py B) (g : B -> Py C) :
  bind (bind m f) g = bind m (fun a => bind (f a) g).
Proof.
  destruct m as [out [e|a]]; simpl; [done|].
  destruct (f a) as [out' [e|b]]; simpl; [done|].
  destruct (g b) as [out'' r]. by rewrite app_assoc.
Qed.

Lemma for_each_app {I S} (l1 l2 : list I) (body : I -> S -> Py S) (s : S) :
  for_each (l1 ++ l2) body s = bind (for_each l1 body s) (for_each l2 body).
Proof.
  revert s. induction l1 as [|i l1 IH]; intros s; simpl.
  - by destruct (for_each l2 body s).
  - rewrite bind_assoc. destruct (body i s) as [out [e|s']]; simpl; [done|].
    by rewrite IH.
Qed.

Lemma for_each_emits {I} (idx : list I) (body : I -> unit -> Py unit)
    (g : I -> list event) :
  (forall i, i ∈ idx -> body i tt = (g i, inr tt)) ->
  for_each idx body tt = (concat (map g idx), inr tt).
Proof.
  induction idx as [|i idx IH]; intros Hbody; [done|].
  simpl. rewrite Hbody by left. simpl.
  rewrite IH; [done|]. intros j Hj. apply Hbody. by right.
Qed.

Lemma for_each_raises {I S} (Inv : S -> Prop) (e : exn) (idx : list I)
    (body : I -> S -> Py S) (s0 : S) :
  Inv s0 ->
  (forall i s, i ∈ idx -> Inv s ->
     returns (body i s) (fun _ s' => Inv s') \/ raises (body i s) e) ->
  (exists i, i ∈ idx /\ forall s, Inv s -> raises (body i s) e) ->
  raises (for_each idx body s0) e.
Proof.
  revert s0. induction idx as [|i idx IH]; intros s0 H0 Hstep (j & Hj & Hraise).
  - by apply elem_of_nil in Hj.
  - simpl. destruct (Hstep i s0 ltac:(left) H0) as [Hret|Hr].
    + destruct (body i s0) as [out [e'|s']] eqn:E; [done|]. simpl in Hret.
      apply elem_of_cons in Hj as [->|Hj].
      * specialize (Hraise s0 H0). rewrite E in Hraise. done.
      * assert (raises (for_each idx body s') e) as Hrec.
        { apply IH; [done| |by exists j].
          intros i' s Hi'. apply Hstep. by right. }
        unfold raises in *. simpl. by destruct (for_each idx body s').
    + unfold raises in *. destruct (body i s0) as [out [e'|s']]; simpl in *; done.
Qed.

Lemma for_each_fails {I S} (Inv : S -> Prop) (idx : list I)
    (body : I -> S -> Py S) (s0 : S) :
  Inv s0 ->
  (forall i s, i ∈ idx -> Inv s -> on_return (body i s) (fun _ s' => Inv s')) ->
  (exists i, i ∈ idx /\ forall s, Inv s -> fails (body i s)) ->
  fails (for_each idx body s0).
Proof.
  revert s0. induction idx as [|i idx IH]; intros s0 H0 Hstep (j & Hj & Hfail).
  - by apply elem_of_nil in Hj.
  - simpl. pose proof (Hstep i s0 ltac:(left) H0) as Hret.
    destruct (body i s0) as [out [e'|s']] eqn:E; [done|]. simpl in Hret.
    apply elem_of_cons in Hj as [->|Hj].
    + specialize (Hfail s0 H0). by rewrite E in Hfail.
    + assert (fails (for_each idx body s')) as Hrec.
      { apply IH; [done| |by exists j].
        intros i' s Hi'. apply Hstep. by right. }
      simpl. by destruct (for_each idx body s') as [? [?|?]].
Qed.

Lemma fails_bind {A B} (m : Py A) (f : A -> Py B) :
  on_return m (fun _ a => fails (f a)) -> fails (bind m f).
Proof.
  destruct m as [out [e|a]]; simpl; [done|]. by destruct (f a) as [? [?|?]].
Qed.

Lemma raises_bind_l {A B} (m : Py A) (f : A -> Py B) e :
  raises m e -> raises (bind m f) e.
Proof. unfold raises. destruct m as [out [e'|a]]; simpl; by intros [= ->]. Qed.

Lemma raises_bind_r {A B} (m : Py A) (f : A -> Py B) e out a :
  m = (out, inr a) -> raises (f a) e -> raises (bind m f) e.
Proof. intros ->. unfold raises. simpl. by destruct (f a). Qed.

Lemma for_each_raises_at {I S} (Inv : S -> Prop) (e : exn)
    (before : list I) (i : I) (after : list I)
    (body : I -> S -> Py S) (s0 : S) :
  Inv s0 ->
  (forall j s, j ∈ before -> Inv s ->
     returns (body j s) (fun _ s' => Inv s') \/ raises (body j s) e) ->
  (forall s, Inv s -> raises (body i s) e) ->
  raises (for_each (before ++ i :: after) body s0) e.
Proof.
  revert s0. induction before as [|j before IH]; intros s0 H0 Hstep Hraise.
  - simpl. apply raises_bind_l. by apply Hraise.
  - simpl. destruct (Hstep j s0 ltac:(left) H0) as [Hret|Hr].
    + destruct (body j s0) as [out [e'|s']] eqn:E; [done|]. simpl in Hret.
      eapply raises_bind_r; [reflexivity|].
      apply IH; [done| |done]. intros j' s Hj'. apply Hstep. by right.
    + by apply raises_bind_l.
Qed.

Lemma on_return_bind_suffix {A B} (m : Py A) (f : A -> Py B)
    (P : list event -> B -> Prop) :
  (forall out out' b, P out' b -> P (out ++ out') b) ->
  (forall a, on_return (f a) P) -> on_return (bind m f) P.
Proof.
  intros Hclosed Hf. apply on_return_bind.
  eapply on_return_impl; [apply on_return_True|].
  intros out a _. eapply on_return_impl; [apply Hf|]. intros out' b. apply Hclosed.
Qed.

Lemma on_return_np_mask {A} (a : list A) (mask : list bool)
    (P : list event -> list A -> Prop) :
  (length mask = length a ->
   P [] (map fst (filter (fun xb => snd xb = true) (zip a mask)))) ->
  on_return (np_mask a mask) P.
Proof. intros HP. unfold np_mask. case_decide; simpl; auto. Qed.

Lemma on_return_returns {A} (m : Py A) (P : list event -> A -> Prop) :
  on_return m P -> (exists out a, m = (out, inr a)) -> returns m P.
Proof. by intros H (out & a & ->). Qed.

Lemma filter_none {A} (P : A -> Prop) `{!forall x, Decision (P x)} (l : list A) :
  Forall (fun x => ~ P x) l -> filter P l = [].
Proof.
  induction 1 as [|x l Hx _ IH]; [done|]. by rewrite filter_cons_False.
Qed.

(** ** The feature comparisons on irregular input *)

Section kolmogorov_smirnov.
Variable ks_2samp : list Qc -> list Qc -> Py (Qc * Qc).
Local Open Scope Qc_scope.

(** X1. Whenever [kolmogorov_smirnov_analysis] returns, the names are those
    of the first active feature, both result arrays have one entry per name,
    entry [i] holds the statistic and the p-value that [ks_2samp] gave for
    row [i] of the two data sets, and the entries past the last row are
    still 0. *)
Theorem kolmogorov_smirnov_values fa fg (A G : matrix) bw verbose :
  on_return (kolmogorov_smirnov_analysis ks_2samp fa fg A G bw verbose)
    (fun _ '(data_names, data_kss, data_ksp) =>
       (exists f0, active_features fa !! 0%nat = Some f0 /\
                   data_names = feature_describe f0) /\
       length data_kss = length data_names /\
       length data_ksp = length data_names /\
       (forall i a g, A !! i = Some a -> G !! i = Some g ->
          exists out statistic pvalue,
            ks_2samp a g = (out, inr (statistic, pvalue)) /\
            data_kss !! i = Some statistic /\ data_ksp !! i = Some pvalue) /\
       (forall i, (length A <= i < length data_names)%nat ->
          data_kss !! i = Some 0 /\ data_ksp !! i = Some 0)).
Proof.
  unfold kolmogorov_smirnov_analysis.
  apply on_return_bind, on_return_assert; intros _.
  apply on_return_bind, on_return_assert; intros _.
  apply on_return_bind, on_return_getitem; intros f0 Hf0.
  set (names := feature_describe f0).
  apply on_return_bind.
  eapply on_return_impl.
  - apply (on_return_for_each_range (fun k _ '(avg, kss, ksp) =>
      length kss = length names /\ length ksp = length names /\
      (forall i a g, (i < k)%nat -> A !! i = Some a -> G !! i = Some g ->
         exists out statistic pvalue,
           ks_2samp a g = (out, inr (statistic, pvalue)) /\
           kss !! i = Some statistic /\ ksp !! i = Some pvalue) /\
      (forall i, (k <= i < length names)%nat ->
         kss !! i = Some 0 /\ ksp !! i = Some 0))).
    + unfold np_zeros. rewrite !length_replicate. split_and!; [done..| |].
      * intros; lia.
      * intros i Hi. by rewrite !lookup_replicate_2 by lia.
    + intros i out [[avg kss] ksp] Hi (Hkss & Hksp & Hdone & Hrest).
      apply on_return_bind, on_return_getitem; intros a Ha.
      apply on_return_bind, on_return_getitem; intros g Hg.
      apply on_return_bind.
      destruct (ks_2samp a g) as [out_ks [e|[statistic pvalue]]] eqn:Eks; [done|].
      simpl.
      apply on_return_bind, on_return_setitem; intros Hkss_i.
      apply on_return_bind, on_return_setitem; intros Hksp_i.
      apply on_return_bind, on_return_setitem; intros Havg_i.
      apply on_return_bind.
      eapply (on_return_impl _ (fun _ _ => True)).
      { by destruct (if verbose then _ else _) as [? [?|?]]. }
      intros _ _ _. simpl. rewrite !length_insert. split_and!; [done..| |].
      * intros j a' g' Hj Ha' Hg'. destruct (decide (j = i)) as [->|Hne].
        -- rewrite !list_lookup_insert_eq by lia. simplify_eq.
           by exists out_ks, statistic, pvalue.
        -- rewrite !list_lookup_insert_ne by done. apply Hdone; [lia|done..].
      * intros j Hj. rewrite !list_lookup_insert_ne by lia. apply Hrest. lia.
  - intros out [[avg kss] ksp] (Hkss & Hksp & Hdone & Hrest). simpl.
    split_and!; [by exists f0|done..| |done].
    intros i a g Ha Hg. apply (Hdone i a g); [by eapply lookup_lt_Some|done..].
Qed.

End kolmogorov_smirnov.

Section empty_sample.
Variable kl_div : Qc -> Qc -> Qc.
Variable jensenshannon : list Qc -> list Qc -> Qc -> Qc.
Variable np_arange : Qc -> Qc -> Qc -> Py (list Qc).
Local Open Scope Qc_scope.

(** X2. With [verbose=False], on inputs that pass both assertions and have
    a name for every row, a feature whose sample is empty in both ensembles
    makes [relative_entropy_analysis] raise [ValueError], provided the call
    of [np.arange] returns for the rows before it: [np.min] is asked for
    the minimum of the empty pooled sample. *)
Theorem relative_entropy_empty_sample fa fg (A G : matrix) bw f0 (i : nat) :
  describe fa = describe fg ->
  length A = length G ->
  active_features fa !! 0%nat = Some f0 ->
  (length A <= length (feature_describe f0))%nat ->
  A !! i = Some [] -> G !! i = Some [] ->
  (forall j a g bins_min bins_max, (j < i)%nat ->
     A !! j = Some a -> G !! j = Some g ->
     np_min (a ++ g) = ret bins_min -> np_max (a ++ g) = ret bins_max ->
     exists out bins, np_arange bins_min bins_max bw = (out, inr bins)) ->
  raises (relative_entropy_analysis kl_div jensenshannon np_arange
            fa fg A G bw false)
         ValueError.
Proof.
  intros Hd Hl Hf0 Hn Hai Hgi Harange. unfold relative_entropy_analysis.
  rewrite assert_true, bind_ret by (by apply bool_decide_eq_true_2).
  rewrite assert_true, bind_ret by (by apply bool_decide_eq_true_2).
  rewrite (getitem_Some _ _ _ Hf0), bind_ret.
  set (N := length (feature_describe f0)) in *.
  apply raises_bind_l.
  assert (i < length A)%nat as Hi by (by eapply lookup_lt_Some).
  assert (range (length A)
          = seq 0 i ++ i :: seq (S i) (length A - S i)) as ->.
  { unfold range. replace (length A) with (i + S (length A - S i))%nat at 1
      by lia.
    by rewrite seq_app. }
  apply (for_each_raises_at (fun '(js, kag, kga, avg) =>
           length js = N /\ length kag = N /\ length kga = N /\ length avg = N)).
  - unfold np_zeros. by rewrite !length_replicate.
  - intros j [[[js kag] kga] avg] Hj (Hjs & Hkag & Hkga & Havg).
    apply elem_of_seq in Hj.
    destruct (lookup_lt_is_Some_2 A j) as [a Ha]; [lia|].
    destruct (lookup_lt_is_Some_2 G j) as [g Hg]; [lia|].
    rewrite (getitem_Some _ _ _ Ha), bind_ret.
    rewrite (getitem_Some _ _ _ Hg), bind_ret.
    rewrite setitem_lt, bind_ret by lia.
    unfold np_concatenate.
    destruct (a ++ g) as [|x both] eqn:Eboth; [by right|].
    destruct (Harange j a g (foldr Qc_min x both) (foldr Qc_max x both))
      as (out_bins & bins & Hbins); [lia|done|done|by rewrite Eboth..|].
    unfold np_min, np_max. rewrite !bind_ret.
    rewrite Hbins. rewrite <- Eboth. clear Eboth x both Hbins.
    destruct (binned_distributions_spec a g)
      as (ha & hg & Hha & Hhg & Hbinned & _).
    cbn [bind]. rewrite Hbinned, bind_ret.
    rewrite setitem_lt, bind_ret by lia.
    rewrite setitem_lt, bind_ret by lia.
    rewrite setitem_lt, bind_ret by lia.
    left. simpl. by rewrite !length_insert.
  - intros [[[js kag] kga] avg] (Hjs & Hkag & Hkga & Havg).
    rewrite (getitem_Some _ _ _ Hai), bind_ret.
    rewrite (getitem_Some _ _ _ Hgi), bind_ret.
    rewrite setitem_lt, bind_ret by lia. done.
Qed.

End empty_sample.

Section names_and_rows.
Local Open Scope Qc_scope.

(** X3. The result arrays of [mean_difference_analysis] are sized by the
    names of the first active feature, the loop runs over the rows of the
    data: when there are fewer names than rows, the call passes both
    assertions and then raises [IndexError]. *)
Theorem mean_difference_fewer_names_than_rows fa fg (A G : matrix) verbose f0 :
  describe fa = describe fg ->
  length A = length G ->
  active_features fa !! 0%nat = Some f0 ->
  (length (feature_describe f0) < length A)%nat ->
  raises (mean_difference_analysis fa fg A G verbose) IndexError.
Proof.
  intros Hd Hl Hf0 Hn. unfold mean_difference_analysis.
  rewrite assert_true, bind_ret by (by apply bool_decide_eq_true_2).
  rewrite assert_true, bind_ret by (by apply bool_decide_eq_true_2).
  rewrite (getitem_Some _ _ _ Hf0), bind_ret.
  set (names := feature_describe f0) in *.
  apply raises_bind_l.
  apply (for_each_raises (fun '(avg, diff) =>
           length avg = length names /\ length diff = length names)).
  - unfold np_zeros. by rewrite !length_replicate.
  - intros i [avg diff] Hi [Havg Hdiff]. apply elem_of_seq in Hi.
    destruct (lookup_lt_is_Some_2 A i) as [a Ha]; [lia|].
    destruct (lookup_lt_is_Some_2 G i) as [g Hg]; [lia|].
    rewrite (getitem_Some _ _ _ Ha), bind_ret.
    rewrite (getitem_Some _ _ _ Hg), bind_ret.
    destruct (decide (i < length names)%nat) as [Hlt|Hge].
    + left. rewrite setitem_lt, bind_ret by lia.
      rewrite setitem_lt, bind_ret by lia.
      destruct verbose.
      * destruct (lookup_lt_is_Some_2 names i Hlt) as [name Hname].
        rewrite (getitem_Some _ _ _ Hname), bind_ret.
        rewrite (getitem_Some _ _ (half * (np_mean a + np_mean g))), bind_ret
          by (apply list_lookup_insert_eq; lia).
        rewrite (getitem_Some _ _ (np_mean a - np_mean g)), bind_ret
          by (apply list_lookup_insert_eq; lia).
        simpl. by rewrite !length_insert.
      * simpl. by rewrite !length_insert.
    + right. unfold setitem at 1. rewrite decide_False by lia. done.
  - exists (length names). split; [apply elem_of_seq; lia|].
    intros [avg diff] [Havg Hdiff].
    destruct (lookup_lt_is_Some_2 A (length names)) as [a Ha]; [lia|].
    destruct (lookup_lt_is_Some_2 G (length names)) as [g Hg]; [lia|].
    rewrite (getitem_Some _ _ _ Ha), bind_ret.
    rewrite (getitem_Some _ _ _ Hg), bind_ret.
    unfold setitem at 1. rewrite decide_False by lia. done.
Qed.

End names_and_rows.

(** ** One feature by name; sorting with too few names *)

Lemma dict_getitem_missing {V} (d : dict V) (key : string) :
  (forall v, (key, v) ∉ d) -> dict_getitem d key = raise (KeyError key).
Proof.
  induction d as [|[k v] d IH]; intros Hkey; [done|].
  simpl. rewrite decide_False.
  - apply IH. intros v' Hv'. apply (Hkey v'). by right.
  - intros ->. apply (Hkey v). by left.
Qed.

Lemma np_where_equal_absent {A} `{EqDecision A} (a : list A) (v : A) :
  v ∉ a -> np_where_equal a v = [].
Proof.
  intros Hv. unfold np_where_equal. apply filter_none, Forall_forall.
  intros p _ Hp. apply Hv. by eapply list_elem_of_lookup_2.
Qed.

Lemma np_where_equal_first {A} `{EqDecision A} (before after : list A) (v : A) :
  v ∉ before ->
  head (np_where_equal (before ++ v :: after) v) = Some (length before).
Proof.
  intros Hv. unfold np_where_equal. rewrite length_app. cbn [length].
  rewrite seq_app, filter_app. cbn [seq]. rewrite Nat.add_0_l.
  rewrite filter_none.
  - rewrite filter_cons_True by (by rewrite list_lookup_middle). done.
  - apply Forall_forall. intros p Hp%elem_of_seq Hlook.
    rewrite lookup_app_l in Hlook by lia.
    apply Hv. by eapply list_elem_of_lookup_2.
Qed.

Section one_feature.
Local Open Scope Qc_scope.

(** X4. [get_feature_timeseries] returns the column of the first feature
    that carries the requested name: for every frame, the entry at the
    position at which the name first occurs in [describe()]. *)
Theorem get_feature_timeseries_first_match
    (feat : dict featurizer) (data : dict matrix)
    (feature_type feature_name : string)
    (features : featurizer) (values : matrix) (before after : list string) :
  dict_getitem feat feature_type = ret features ->
  dict_getitem data feature_type = ret values ->
  describe features = before ++ feature_name :: after ->
  feature_name ∉ before ->
  Forall (fun frame => (length before < length frame)%nat) values ->
  get_feature_timeseries feat data feature_type feature_name
  = ret (map (fun frame => nth (length before) frame 0) values).
Proof.
  intros Hfeat Hdata Hnames Hfirst Hwidth. unfold get_feature_timeseries.
  rewrite Hfeat, bind_ret, Hnames.
  pose proof (np_where_equal_first before after feature_name Hfirst) as Hhead.
  rewrite (getitem_Some _ _ (length before)), bind_ret.
  2:{ by rewrite <- head_lookup. }
  rewrite Hdata, bind_ret. by apply np_column_in_range.
Qed.

(** X5. A feature type that is not a key of [feat] makes
    [get_feature_timeseries] raise [KeyError] with that key; a name that the
    feature type does not list makes it raise [IndexError]. *)
Theorem get_feature_timeseries_unknown
    (feat : dict featurizer) (data : dict matrix)
    (feature_type feature_name : string) :
  ((forall features, (feature_type, features) ∉ feat) ->
   get_feature_timeseries feat data feature_type feature_name
   = raise (KeyError feature_type))
  /\ (forall features,
        dict_getitem feat feature_type = ret features ->
        feature_name ∉ describe features ->
        get_feature_timeseries feat data feature_type feature_name
        = raise IndexError).
Proof.
  unfold get_feature_timeseries. split.
  - intros Hkey. by rewrite dict_getitem_missing.
  - intros features Hfeat Hname. rewrite Hfeat, bind_ret.
    by rewrite np_where_equal_absent.
Qed.

End one_feature.

Section short_names.
Local Open Scope Qc_scope.

(** X6. With fewer names than values, [sort_features] raises
    [IndexError]: every index of [sortby] is looked up in [names]. *)
Theorem sort_features_fewer_names_than_values
    (names : list string) (sortby : list Qc) :
  (length names < length sortby)%nat ->
  raises (sort_features names sortby) IndexError.
Proof.
  intros Hshort. unfold sort_features. apply raises_bind_l.
  apply (for_each_raises (fun _ => True)); [done| |].
  - intros i [sn sv] _ _. unfold getitem.
    destruct (names !! i) as [name|]; [|by right].
    rewrite bind_ret. destruct (sortby !! i) as [value|]; [|by right].
    by left.
  - exists (length names). split.
    + rewrite elem_of_reverse, np_argsort_Permutation. apply elem_of_seq. lia.
    + intros [sn sv] _. unfold getitem.
      by rewrite (lookup_ge_None_2 names (length names)).
Qed.

End short_names.

(** ** Values per residue *)

Lemma py_index_inv (n : nat) (k : Z) out i :
  py_index n k = (out, inr i) -> out = [] /\ i < n.
Proof.
  unfold py_index, ret, raise.
  repeat case_decide; intros Heq; simplify_eq; split; (done || lia).
Qed.

Lemma on_return_py_index (n : nat) (k : Z) (P : list event -> nat -> Prop) :
  (forall i, i < n -> py_index n k = ret i -> P [] i) ->
  on_return (py_index n k) P.
Proof.
  intros HP. destruct (py_index n k) as [out [e|i]] eqn:E; [done|].
  destruct (py_index_inv _ _ _ _ E) as [-> Hi]. simpl. by apply HP.
Qed.

Lemma getitem_Z_last {A} (l : list A) :
  getitem_Z l (-1)
  = match last l with Some x => ret x | None => raise IndexError end.
Proof.
  unfold getitem_Z, py_index. rewrite last_lookup.
  destruct l as [|x l]; [done|]. cbn [length].
  rewrite decide_False by lia. rewrite decide_True by lia.
  rewrite bind_ret. unfold getitem.
  replace (Z.to_nat (Z.of_nat (S (length l)) + -1)) with (length l) by lia.
  done.
Qed.

Lemma elem_of_enumerate {A} (l : list A) (i : nat) (x : A) :
  (i, x) ∈ enumerate l <-> l !! i = Some x.
Proof.
  unfold enumerate. rewrite list_elem_of_lookup. split.
  - intros (p & Hp). apply lookup_zip_with_Some in Hp as (a & b & [= <- <-] & Ha & Hb).
    apply lookup_seq in Ha as [-> _]. done.
  - intros Hx. exists i. apply lookup_zip_with_Some. exists i, x.
    split_and!; [done| |done]. apply lookup_seq. split; [done|].
    by eapply lookup_lt_Some.
Qed.

Section residues.
Variable python_int : string -> option Z.
Variable residue_ids : string -> list Z.
Local Open Scope Qc_scope.

Lemma Qc_max_l x y : x ≤ Qc_max x y.
Proof. unfold Qc_max. case_decide; [done|apply Qcle_refl]. Qed.

Lemma Qc_max_r x y : y ≤ Qc_max x y.
Proof.
  unfold Qc_max. case_decide; [apply Qcle_refl|].
  apply Qclt_le_weak. by apply Qcnot_le_lt.
Qed.

Lemma Qc_max_cases x y : Qc_max x y = x \/ Qc_max x y = y.
Proof. unfold Qc_max. case_decide; auto. Qed.

(** What the first three statements of the loop body compute. *)
Lemma on_return_residue_position (vis_resids : list Z) (name : string)
    (P : list event -> nat -> Prop) :
  (forall index, residue_position python_int vis_resids name = Some index ->
     (index < length vis_resids)%nat -> P [] index) ->
  on_return
    (let* token := getitem_Z (split_space name) (-1) in
     let* resid := int python_int (all_but_last token) in
     getitem (np_where_equal vis_resids resid) 0) P.
Proof.
  intros HP. rewrite getitem_Z_last.
  destruct (last (split_space name)) as [token|] eqn:Htoken; [|done].
  rewrite bind_ret. unfold int.
  destruct (python_int (all_but_last token)) as [resid|] eqn:Hresid; [|done].
  rewrite bind_ret.
  apply on_return_getitem. intros index Hindex. apply HP.
  - unfold residue_position. rewrite Htoken. simpl. rewrite Hresid. simpl.
    by rewrite head_lookup.
  - apply list_elem_of_lookup_2 in Hindex. unfold np_where_equal in Hindex.
    apply list_elem_of_filter in Hindex as [_ Hindex%elem_of_seq]. lia.
Qed.

(** X7. Whenever [residue_visualization] returns with [selection='max']:
    there is one value per residue of the reference structure; every
    feature has a value in [data] and a residue in the structure, and its
    value is at most the one shown at that residue; every value shown is 0
    or the value of one of the features of that residue; no value shown is
    negative.  The call saves the figure and then writes the structure
    file. *)
Theorem residue_visualization_max_per_residue
    (names : list string) (data : list Qc)
    (ref_filename pdf_filename pdb_filename y_label : string) :
  on_return (residue_visualization python_int residue_ids names data
               ref_filename pdf_filename pdb_filename "max" y_label)
    (fun out '(vis_resids, vis_values) =>
       let position := residue_position python_int vis_resids in
       out = [Savefig pdf_filename; OpenWriter pdb_filename] /\
       vis_resids = residue_ids ref_filename /\
       length vis_values = length vis_resids /\
       (forall i name, names !! i = Some name ->
          exists value index shown,
            data !! i = Some value /\ position name = Some index /\
            vis_values !! index = Some shown /\ value ≤ shown) /\
       (forall index shown, vis_values !! index = Some shown ->
          shown = 0 \/
          exists i name, names !! i = Some name /\ position name = Some index /\
                         data !! i = Some shown) /\
       Forall (fun shown => 0 ≤ shown) vis_values).
Proof.
  unfold residue_visualization.
  set (vis_resids := residue_ids ref_filename).
  set (position := residue_position python_int vis_resids).
  rewrite decide_True by done.
  apply on_return_bind.
  eapply on_return_impl.
  - apply (on_return_for_each (fun done out vis_values =>
      out = [] /\ length vis_values = length vis_resids /\
      (forall i name, (i, name) ∈ done ->
         exists value index shown,
           data !! i = Some value /\ position name = Some index /\
           vis_values !! index = Some shown /\ value ≤ shown) /\
      (forall index shown, vis_values !! index = Some shown ->
         shown = 0 \/
         exists i name, (i, name) ∈ done /\ position name = Some index /\
                        data !! i = Some shown) /\
      Forall (fun shown => 0 ≤ shown) vis_values)).
    + split_and!; [done| | | |].
      * unfold np_ones. by rewrite length_map, length_replicate.
      * intros i name Hin. by apply elem_of_nil in Hin.
      * intros index shown Hshown. left. unfold np_ones in Hshown.
        rewrite list_lookup_fmap in Hshown.
        destruct (replicate _ _ !! index) as [x|] eqn:Hx; [|done].
        simpl in Hshown. simplify_eq. ring.
      * apply Forall_forall. intros shown Hin. unfold np_ones in Hin.
        apply list_elem_of_fmap in Hin as (x & -> & _).
        replace (0 * x) with 0 by ring. apply Qcle_refl.
    + intros done [i name] rest out vis_values Hsplit
        (-> & Hlen & Hdone & Hshown & Hpos).
      rewrite <- !bind_assoc.
      apply on_return_bind.
      rewrite !bind_assoc.
      apply on_return_residue_position. intros index Hindex Hlt.
      rewrite decide_True by done.
      apply on_return_bind, on_return_getitem. intros current Hcurrent.
      apply on_return_bind, on_return_getitem. intros value Hvalue.
      apply on_return_setitem. intros _.
      rewrite length_insert. split_and!; [done..| | |].
      * intros i' name' Hin. apply elem_of_app in Hin as [Hin|Hin].
        -- destruct (Hdone i' name' Hin) as (v & ix & s & Hv & Hix & Hs & Hle).
           destruct (decide (ix = index)) as [->|Hne].
           ++ exists v, index, (Qc_max current value).
              split_and!; [done..| |].
              ** apply list_lookup_insert_eq. by eapply lookup_lt_Some.
              ** simplify_eq. eapply Qcle_trans; [exact Hle|apply Qc_max_l].
           ++ exists v, ix, s. by rewrite list_lookup_insert_ne.
        -- apply list_elem_of_singleton in Hin. simplify_eq.
           exists value, index, (Qc_max current value).
           split_and!; [done..| |apply Qc_max_r].
           apply list_lookup_insert_eq. by eapply lookup_lt_Some.
      * intros ix shown Hix. destruct (decide (ix = index)) as [->|Hne].
        -- rewrite list_lookup_insert_eq in Hix by (by eapply lookup_lt_Some).
           simplify_eq. destruct (Qc_max_cases current value) as [->| ->].
           ++ destruct (Hshown index current Hcurrent) as [?|(i' & name' & Hin & ? & ?)];
                [by left|right].
              exists i', name'. split_and!; [|done..].
              apply elem_of_app. by left.
           ++ right. exists i, name. split_and!; [|done..].
              apply elem_of_app. right. by apply list_elem_of_singleton.
        -- rewrite list_lookup_insert_ne in Hix by done.
           destruct (Hshown ix shown Hix) as [?|(i' & name' & Hin & ? & ?)];
             [by left|right].
           exists i', name'. split_and!; [|done..]. apply elem_of_app. by left.
      * apply Forall_insert; [done|].
        eapply Qcle_trans; [|apply Qc_max_l].
        rewrite Forall_forall in Hpos. apply Hpos.
        by eapply list_elem_of_lookup_2.
  - intros out vis_values (-> & Hlen & Hdone & Hshown & Hpos). simpl.
    split_and!; [done..| | |done].
    + intros i name Hname. apply Hdone. by apply elem_of_enumerate.
    + intros index shown Hix.
      destruct (Hshown index shown Hix) as [?|(i & name & Hin & ? & ?)];
        [by left|right].
      exists i, name. split_and!; [|done..]. by apply elem_of_enumerate.
Qed.

(** X8. A [selection] other than ['max'] and ['min'] is not rejected:
    whenever the call returns, every residue is shown with the value 1,
    whatever [data] holds. *)
Theorem residue_visualization_other_selection
    (names : list string) (data : list Qc)
    (ref_filename pdf_filename pdb_filename selection y_label : string) :
  selection <> "max"%string -> selection <> "min"%string ->
  on_return (residue_visualization python_int residue_ids names data
               ref_filename pdf_filename pdb_filename selection y_label)
    (fun _ '(vis_resids, vis_values) =>
       vis_values = np_ones (length vis_resids)).
Proof.
  intros Hmax Hmin. unfold residue_visualization.
  set (vis_resids := residue_ids ref_filename).
  rewrite decide_False by done.
  assert (map (Qcmult 1) (np_ones (length vis_resids))
          = np_ones (length vis_resids)) as ->.
  { unfold np_ones. generalize (length vis_resids). intros n.
    induction n as [|n IH]; [done|]. simpl. rewrite IH. f_equal; ring. }
  apply on_return_bind.
  eapply on_return_impl.
  - apply (on_return_for_each (fun _ _ vis_values =>
      vis_values = np_ones (length vis_resids))); [done|].
    intros done [i name] rest out vis_values _ ->.
    rewrite <- !bind_assoc. apply on_return_bind. rewrite !bind_assoc.
    apply on_return_residue_position. intros index _ _.
    by rewrite !decide_False by done.
  - by intros out vis_values ->.
Qed.

(** X9. [residue_visualization] skips no feature: when the text after
    the last space of some name, without its last character, is not an
    integer, or is the id of no residue of the reference structure, the call
    ends in an exception, whatever the selection. *)
Theorem residue_visualization_unplaced_feature
    (names : list string) (data : list Qc)
    (ref_filename pdf_filename pdb_filename selection y_label : string)
    (i : nat) (name : string) :
  names !! i = Some name ->
  residue_position python_int (residue_ids ref_filename) name = None ->
  fails (residue_visualization python_int residue_ids names data
           ref_filename pdf_filename pdb_filename selection y_label).
Proof.
  intros Hname Hnone. unfold residue_visualization. apply fails_bind_l.
  apply (for_each_fails (fun _ => True)); [done| |].
  - intros [j name'] values _ _. eapply on_return_impl; [apply on_return_True|done].
  - exists (i, name). split; [by apply elem_of_enumerate|]. intros values _.
    unfold residue_position in Hnone. rewrite getitem_Z_last.
    destruct (last (split_space name)) as [token|]; [|done].
    rewrite bind_ret. unfold int. simpl in Hnone.
    destruct (python_int (all_but_last token)) as [resid|]; [|done].
    rewrite bind_ret. simpl in Hnone. rewrite head_lookup in Hnone.
    apply fails_bind_l. unfold getitem. by rewrite Hnone.
Qed.

Lemma Qc_min_l x y : Qc_min x y ≤ x.
Proof.
  unfold Qc_min. case_decide; [apply Qcle_refl|].
  apply Qclt_le_weak. by apply Qcnot_le_lt.
Qed.

Lemma Qc_min_r x y : Qc_min x y ≤ y.
Proof. unfold Qc_min. case_decide; [done|apply Qcle_refl]. Qed.

Lemma Qc_min_cases x y : Qc_min x y = x \/ Qc_min x y = y.
Proof. unfold Qc_min. case_decide; auto. Qed.

(** X10. Whenever [residue_visualization] returns with [selection='min']:
    there is one value per residue; the value shown at a residue is at most
    the value of each of its features; it is 1 or the value of one of them;
    no value shown exceeds 1. *)
Theorem residue_visualization_min_per_residue
    (names : list string) (data : list Qc)
    (ref_filename pdf_filename pdb_filename y_label : string) :
  on_return (residue_visualization python_int residue_ids names data
               ref_filename pdf_filename pdb_filename "min" y_label)
    (fun out '(vis_resids, vis_values) =>
       let position := residue_position python_int vis_resids in
       length vis_values = length vis_resids /\
       (forall i name, names !! i = Some name ->
          exists value index shown,
            data !! i = Some value /\ position name = Some index /\
            vis_values !! index = Some shown /\ shown ≤ value) /\
       (forall index shown, vis_values !! index = Some shown ->
          shown = 1 \/
          exists i name, names !! i = Some name /\ position name = Some index /\
                         data !! i = Some shown) /\
       Forall (fun shown => shown ≤ 1) vis_values).
Proof.
  unfold residue_visualization.
  set (vis_resids := residue_ids ref_filename).
  set (position := residue_position python_int vis_resids).
  rewrite decide_False by done.
  apply on_return_bind.
  eapply on_return_impl.
  - apply (on_return_for_each (fun done out vis_values =>
      length vis_values = length vis_resids /\
      (forall i name, (i, name) ∈ done ->
         exists value index shown,
           data !! i = Some value /\ position name = Some index /\
           vis_values !! index = Some shown /\ shown ≤ value) /\
      (forall index shown, vis_values !! index = Some shown ->
         shown = 1 \/
         exists i name, (i, name) ∈ done /\ position name = Some index /\
                        data !! i = Some shown) /\
      Forall (fun shown => shown ≤ 1) vis_values)).
    + split_and!.
      * unfold np_ones. by rewrite length_map, length_replicate.
      * intros i name Hin. by apply elem_of_nil in Hin.
      * intros index shown Hshown. left. unfold np_ones in Hshown.
        rewrite list_lookup_fmap in Hshown.
        destruct (replicate _ _ !! index) as [x|] eqn:Hx; [|done].
        apply lookup_replicate in Hx as [-> _].
        simpl in Hshown. simplify_eq. ring.
      * apply Forall_forall. intros shown Hin. unfold np_ones in Hin.
        apply list_elem_of_fmap in Hin as (x & -> & Hx).
        apply elem_of_replicate in Hx as [-> _].
        replace (1 * 1) with 1 by ring. apply Qcle_refl.
    + intros done [i name] rest out vis_values Hsplit
        (Hlen & Hdone & Hshown & Hpos).
      rewrite <- !bind_assoc.
      apply on_return_bind.
      rewrite !bind_assoc.
      apply on_return_residue_position. intros index Hindex Hlt.
      rewrite decide_False by done. rewrite decide_True by done.
      apply on_return_bind, on_return_getitem. intros current Hcurrent.
      apply on_return_bind, on_return_getitem. intros value Hvalue.
      apply on_return_setitem. intros _.
      rewrite length_insert. split_and!; [done| | |].
      * intros i' name' Hin. apply elem_of_app in Hin as [Hin|Hin].
        -- destruct (Hdone i' name' Hin) as (v & ix & s & Hv & Hix & Hs & Hle).
           destruct (decide (ix = index)) as [->|Hne].
           ++ exists v, index, (Qc_min current value).
              split_and!; [done..| |].
              ** apply list_lookup_insert_eq. by eapply lookup_lt_Some.
              ** simplify_eq. eapply Qcle_trans; [apply Qc_min_l|exact Hle].
           ++ exists v, ix, s. by rewrite list_lookup_insert_ne.
        -- apply list_elem_of_singleton in Hin. simplify_eq.
           exists value, index, (Qc_min current value).
           split_and!; [done..| |apply Qc_min_r].
           apply list_lookup_insert_eq. by eapply lookup_lt_Some.
      * intros ix shown Hix. destruct (decide (ix = index)) as [->|Hne].
        -- rewrite list_lookup_insert_eq in Hix by (by eapply lookup_lt_Some).
           simplify_eq. destruct (Qc_min_cases current value) as [->| ->].
           ++ destruct (Hshown index current Hcurrent) as [?|(i' & name' & Hin & ? & ?)];
                [by left|right].
              exists i', name'. split_and!; [|done..].
              apply elem_of_app. by left.
           ++ right. exists i, name. split_and!; [|done..].
              apply elem_of_app. right. by apply list_elem_of_singleton.
        -- rewrite list_lookup_insert_ne in Hix by done.
           destruct (Hshown ix shown Hix) as [?|(i' & name' & Hin & ? & ?)];
             [by left|right].
           exists i', name'. split_and!; [|done..]. apply elem_of_app. by left.
      * apply Forall_insert; [done|].
        eapply Qcle_trans; [apply Qc_min_l|].
        rewrite Forall_forall in Hpos. apply Hpos.
        by eapply list_elem_of_lookup_2.
  - intros out vis_values (Hlen & Hdone & Hshown & Hpos). simpl.
    split_and!; [done| | |done].
    + intros i name Hname. apply Hdone. by apply elem_of_enumerate.
    + intros index shown Hix.
      destruct (Hshown index shown Hix) as [?|(i & name & Hin & ? & ?)];
        [by left|right].
      exists i, name. split_and!; [|done..]. by apply elem_of_enumerate.
Qed.

End residues.

(** ** The distance filter *)

Section distance_filter.
Variable percent_format : string -> Qc -> string.
Local Open Scope Qc_scope.
#[local] Existing Instance key_le_total.
#[local] Existing Instance key_le_trans.

Lemma np_column_Z_in_range (m : list (list Z)) (j : nat) :
  Forall (fun v => (j < length v)%nat) m ->
  np_column_Z m j = ret (map (fun v => nth j v 0%Z) m).
Proof.
  induction 1 as [|v m Hv _ IH]; [done|].
  simpl. destruct (lookup_lt_is_Some_2 v j Hv) as [x Hx].
  rewrite (getitem_Some _ _ _ Hx), bind_ret, IH, bind_ret.
  by rewrite (nth_lookup_Some _ _ 0%Z _ Hx).
Qed.

Lemma np_imul_bool_same_length (criteria other : list bool) :
  length other = length criteria ->
  np_imul_bool criteria other = ret (zip_with andb criteria other).
Proof. intros H. unfold np_imul_bool. by rewrite decide_True. Qed.

Lemma map_nth_seq {A} (d : A) (l : list A) :
  map (fun i => nth i l d) (seq 0 (length l)) = l.
Proof.
  apply list_eq. intros i. rewrite list_lookup_fmap.
  destruct (l !! i) as [x|] eqn:Hx.
  - rewrite lookup_seq_lt by (by eapply lookup_lt_Some). simpl.
    by rewrite (nth_lookup_Some _ _ _ _ Hx).
  - rewrite lookup_seq_ge; [done|]. by apply lookup_ge_None.
Qed.

Lemma filter_indexed {A} (f : nat -> A) (P : nat -> Prop)
    `{!forall p, Decision (P p)} (l : list nat) :
  map fst (filter (fun xb : A * bool => snd xb = true)
             (map (fun p => (f p, bool_decide (P p))) l))
  = map f (filter P l).
Proof.
  induction l as [|p l IH]; [done|]. cbn [map].
  rewrite (filter_cons P p l).
  destruct (decide (P p)) as [HP|HP].
  - rewrite filter_cons_True by (by apply bool_decide_eq_true_2).
    cbn [map fst]. by rewrite IH.
  - rewrite filter_cons_False; [done|]. simpl.
    rewrite bool_decide_eq_false_2 by done. done.
Qed.

(** Masking an array by the entries at which a decidable property of the
    position holds keeps the entries at those positions, in order. *)
Lemma np_mask_positions {A} (d : A) (a : list A) (mask : list bool)
    (P : nat -> Prop) `{!forall p, Decision (P p)} :
  length mask = length a ->
  (forall p, (p < length a)%nat -> mask !! p = Some (bool_decide (P p))) ->
  np_mask a mask
  = ret (map (fun p => nth p a d) (filter P (seq 0 (length a)))).
Proof.
  intros Hlen Hmask. rewrite np_mask_same_length by done. f_equal. f_equal.
  rewrite (zip_as_map d false a mask) by done.
  rewrite <- (filter_indexed (fun p => nth p a d) P). f_equal. f_equal.
  apply map_ext_in. intros p Hp%in_seq. f_equal.
  apply nth_lookup_Some. apply Hmask. lia.
Qed.

(** X11. For arrays of one length, [sort_distances] prints exactly the
    distances that pass all four thresholds (atom number difference above
    300, relative entropy above 0.2, average strictly between 0 and 2.5),
    each once, one line per distance, in descending order of relative
    entropy; it raises nothing. *)
Theorem sort_distances_prints_kept_rows_descending
    (dist_names : list string) (dist_avg dist_relen : list Qc)
    (dist_id : list (list Z)) :
  length dist_avg = length dist_names ->
  length dist_relen = length dist_names ->
  length dist_id = length dist_names ->
  Forall (fun ids => (2 <= length ids)%nat) dist_id ->
  exists rows : list nat,
    sort_distances percent_format dist_names dist_avg dist_relen dist_id
    = (map (fun p => PrintLine (distance_line percent_format
                       (nth p dist_names ""%string) (nth p dist_avg 0)
                       (nth p dist_relen 0)))
           rows, inr tt)
    /\ rows ≡ₚ filter (fun p => passes_distance_criteria
                          (nth p dist_avg 0) (nth p dist_relen 0)
                          (nth p dist_id []))
                 (seq 0 (length dist_names))
    /\ forall i j p q, (i <= j)%nat -> rows !! i = Some p -> rows !! j = Some q ->
         nth q dist_relen 0 ≤ nth p dist_relen 0.
Proof.
  intros Havg Hrelen Hid Hwidth.
  set (n := length dist_names) in *.
  set (P := fun p => passes_distance_criteria
                       (nth p dist_avg 0) (nth p dist_relen 0) (nth p dist_id [])).
  set (kept := filter P (seq 0 n)).
  unfold sort_distances.
  rewrite np_column_Z_in_range, bind_ret
    by (eapply Forall_impl; [exact Hwidth|]; simpl; intros; lia).
  rewrite np_column_Z_in_range, bind_ret
    by (eapply Forall_impl; [exact Hwidth|]; simpl; intros; lia).
  rewrite np_imul_bool_same_length, bind_ret.
  2:{ unfold np_greater, np_greater_Z.
      rewrite length_map, length_map, length_zip_with, !length_map. lia. }
  rewrite np_imul_bool_same_length, bind_ret.
  2:{ unfold np_greater, np_greater_Z, np_less.
      rewrite length_map, !length_zip_with, !length_map, length_zip_with,
        !length_map. lia. }
  rewrite np_imul_bool_same_length, bind_ret.
  2:{ unfold np_greater, np_greater_Z, np_less.
      rewrite length_map, !length_zip_with, !length_map, length_zip_with,
        !length_map. lia. }
  match goal with |- context [np_mask dist_relen ?c] => set (criteria := c) end.
  assert (length criteria = n) as Hcrit_len.
  { unfold criteria, np_greater, np_greater_Z, np_less.
    rewrite !length_zip_with, !length_map, length_zip_with, !length_map. lia. }
  assert (forall p, (p < n)%nat -> criteria !! p = Some (bool_decide (P p)))
    as Hcrit.
  { intros p Hp.
    destruct (lookup_lt_is_Some_2 dist_avg p ltac:(lia)) as [avg Ha].
    destruct (lookup_lt_is_Some_2 dist_relen p ltac:(lia)) as [relen Hr].
    destruct (lookup_lt_is_Some_2 dist_id p ltac:(lia)) as [ids Hi].
    unfold criteria, np_greater, np_greater_Z, np_less.
    rewrite !lookup_zip_with, !list_lookup_fmap, lookup_zip_with,
      !list_lookup_fmap, Ha, Hr, Hi. simpl. f_equal.
    unfold P, passes_distance_criteria.
    rewrite (nth_lookup_Some _ _ _ _ Ha), (nth_lookup_Some _ _ _ _ Hr),
      (nth_lookup_Some _ _ _ _ Hi).
    repeat case_bool_decide; simpl; try done; tauto. }
  rewrite (np_mask_positions 0 dist_relen criteria P), bind_ret
    by (rewrite ?Hrelen; done || lia).
  rewrite Hrelen. fold n kept.
  set (selected := map (fun p => nth p dist_relen 0) kept).
  set (sort_id := reverse (np_argsort selected)).
  assert (length selected = length kept) as Hsel by (unfold selected; by rewrite length_map).
  assert (Forall (fun i => (i < length kept)%nat) sort_id) as Hrange.
  { unfold sort_id. rewrite Forall_reverse, <- Hsel. apply np_argsort_in_range. }
  exists (map (fun i => nth i kept 0%nat) sort_id). split_and!.
  - rewrite (for_each_emits _ _ (fun i =>
      [PrintLine (distance_line percent_format
         (nth (nth i kept 0%nat) dist_names ""%string)
         (nth (nth i kept 0%nat) dist_avg 0)
         (nth (nth i kept 0%nat) dist_relen 0))])).
    + f_equal. rewrite map_map. generalize sort_id. clear.
      intros l. induction l as [|i l IH]; [done|]. simpl. by rewrite IH.
    + intros i Hi. rewrite Forall_forall in Hrange. specialize (Hrange i Hi).
      rewrite (np_mask_positions ""%string dist_names criteria P), bind_ret
        by (done || lia).
      fold n kept.
      rewrite (getitem_Some _ _ (nth (nth i kept 0%nat) dist_names ""%string)),
        bind_ret.
      2:{ rewrite list_lookup_fmap.
          destruct (lookup_lt_is_Some_2 kept i Hrange) as [p Hp].
          by rewrite Hp, (nth_lookup_Some _ _ _ _ Hp). }
      rewrite (np_mask_positions 0 dist_avg criteria P), bind_ret
        by (rewrite ?Havg; done || lia).
      rewrite Havg. fold n kept.
      rewrite (getitem_Some _ _ (nth (nth i kept 0%nat) dist_avg 0)), bind_ret.
      2:{ rewrite list_lookup_fmap.
          destruct (lookup_lt_is_Some_2 kept i Hrange) as [p Hp].
          by rewrite Hp, (nth_lookup_Some _ _ _ _ Hp). }
      rewrite bind_ret.
      rewrite (getitem_Some _ _ (nth (nth i kept 0%nat) dist_relen 0)), bind_ret.
      2:{ unfold selected. rewrite list_lookup_fmap.
          destruct (lookup_lt_is_Some_2 kept i Hrange) as [p Hp].
          by rewrite Hp, (nth_lookup_Some _ _ _ _ Hp). }
      done.
  - unfold sort_id. rewrite reverse_Permutation, np_argsort_Permutation, Hsel.
    by rewrite map_nth_seq.
  - intros i j p q Hij Hp Hq.
    rewrite list_lookup_fmap in Hp, Hq.
    destruct (sort_id !! i) as [a|] eqn:Ha; [|done].
    destruct (sort_id !! j) as [b|] eqn:Hb; [|done].
    simpl in Hp, Hq. simplify_eq.
    pose proof (StronglySorted_lookup (flip (key_le selected)) sort_id i j a b
      (fun z => Qcle_refl _)
      (StronglySorted_reverse _ _ (np_argsort_sorted selected)) Hij Ha Hb) as Hle.
    unfold flip, key_le, selected in Hle.
    assert (forall c, c ∈ sort_id ->
      nth c (map (fun p => nth p dist_relen 0) kept) 0
      = nth (nth c kept 0%nat) dist_relen 0) as Hnth.
    { intros c Hc. rewrite Forall_forall in Hrange. specialize (Hrange c Hc).
      destruct (lookup_lt_is_Some_2 kept c Hrange) as [r Hr].
      rewrite (nth_lookup_Some _ _ _ _ Hr).
      apply nth_lookup_Some. by rewrite list_lookup_fmap, Hr. }
    rewrite !Hnth in Hle by (by eapply list_elem_of_lookup_2). done.
Qed.

End distance_filter.

(** ** The distance matrix *)

Section distance_matrix.
Variable python_int : string -> option Z.
Local Open Scope Qc_scope.

Lemma on_return_int (text : string) (P : list event -> Z -> Prop) :
  (forall z, python_int text = Some z -> P [] z) ->
  on_return (int python_int text) P.
Proof. intros HP. unfold int. destruct (python_int text); simpl; auto. Qed.

Lemma entry_insert (m : matrix) (r c : nat) (row : list Qc) (v : Qc) (a b : nat) :
  m !! r = Some row -> (c < length row)%nat ->
  entry (<[r:=<[c:=v]> row]> m) a b
  = if decide (a = r /\ b = c) then Some v else entry m a b.
Proof.
  intros Hrow Hc. unfold entry.
  destruct (decide (a = r)) as [->|Hne].
  - rewrite list_lookup_insert_eq by (by eapply lookup_lt_Some). simpl.
    rewrite Hrow. simpl. destruct (decide (b = c)) as [->|Hne].
    + rewrite decide_True by done. by apply list_lookup_insert_eq.
    + rewrite decide_False by tauto. by apply list_lookup_insert_ne.
  - rewrite list_lookup_insert_ne by done. rewrite decide_False by tauto. done.
Qed.

Lemma entry_zeros (n r c : nat) :
  entry (replicate n (np_zeros n)) r c
  = if decide (r < n /\ c < n)%nat then Some 0 else None.
Proof.
  unfold entry, np_zeros. destruct (decide (r < n)%nat) as [Hr|Hr].
  - rewrite lookup_replicate_2 by done. simpl.
    destruct (decide (c < n)%nat) as [Hc|Hc].
    + rewrite decide_True by done. by apply lookup_replicate_2.
    + rewrite decide_False by tauto. apply lookup_ge_None_2.
      rewrite length_replicate. lia.
  - rewrite lookup_ge_None_2 by (rewrite length_replicate; lia).
    rewrite decide_False by tauto. done.
Qed.


Lemma on_return_setitem2 (size : nat) (m : matrix) (i j : Z) (v : Qc)
    (P : list event -> matrix -> Prop) :
  square_of_side size m ->
  (forall r c row, py_index size i = ret r -> py_index size j = ret c ->
     m !! r = Some row -> (c < length row)%nat ->
     square_of_side size (<[r:=<[c:=v]> row]> m) ->
     P [] (<[r:=<[c:=v]> row]> m)) ->
  on_return (setitem2 m i j v) P.
Proof.
  intros [Hlen Hrows] HP. unfold setitem2. rewrite Hlen.
  apply on_return_bind, on_return_py_index. intros r Hr Hir.
  apply on_return_bind, on_return_getitem. intros row Hrow.
  assert (length row = size) as Hrow_len.
  { rewrite Forall_forall in Hrows. apply Hrows. by eapply list_elem_of_lookup_2. }
  rewrite Hrow_len.
  apply on_return_bind, on_return_py_index. intros c Hc Hjc.
  apply on_return_setitem. intros _. apply HP; [done..|lia|].
  split; [by rewrite length_insert|].
  apply Forall_insert; [done|]. by rewrite length_insert.
Qed.


(** X12. Whenever [distances_visualization] returns, the residue numbers
    [firstres] and [lastres] were read from the third piece of the first and
    of the last name, the matrix returned is square with
    [lastres - firstres + 2] rows, and it is symmetric.  The call prints the
    two residue numbers and saves the figure. *)
Theorem distances_visualization_symmetric_square
    (dist_names : list string) (dist_diff : list Qc) (out_filename : string)
    (vmin vmax : option Qc) :
  on_return (distances_visualization python_int dist_names dist_diff
               out_filename vmin vmax)
    (fun out diff =>
       exists first_name last_name first_token last_token firstres lastres,
         dist_names !! 0%nat = Some first_name /\
         last dist_names = Some last_name /\
         split_space first_name !! 2%nat = Some first_token /\
         split_space last_name !! 2%nat = Some last_token /\
         python_int first_token = Some firstres /\
         python_int last_token = Some lastres /\
         out = [PrintLine ("first: " +:+ pretty firstres +:+ " , last: "
                           +:+ pretty lastres);
                Savefig out_filename] /\
         (0 ≤ lastres - firstres + 2)%Z /\
         square_of_side (Z.to_nat (lastres - firstres + 2)) diff /\
         forall r c, entry diff r c = entry diff c r).
Proof.
  unfold distances_visualization.
  apply on_return_bind, on_return_getitem. intros first_name Hfirst.
  apply on_return_bind, on_return_getitem. intros first_token Hftoken.
  apply on_return_bind, on_return_int. intros firstres Hfirstres.
  apply on_return_bind. rewrite getitem_Z_last.
  destruct (last dist_names) as [last_name|] eqn:Hlast; [|done].
  apply on_return_bind, on_return_getitem. intros last_token Hltoken.
  apply on_return_bind, on_return_int. intros lastres Hlastres.
  apply on_return_bind, on_return_emit.
  set (size := (lastres - firstres + 2)%Z).
  apply on_return_bind. unfold np_zeros2.
  case_decide as Hsize; [|done].
  apply on_return_bind.
  eapply on_return_impl.
  - apply (on_return_for_each (fun _ out diff =>
      out = [] /\ square_of_side (Z.to_nat size) diff /\
      forall r c, entry diff r c = entry diff c r)).
    + split_and!; [done| |].
      * split; [by rewrite length_replicate|].
        apply Forall_forall. intros row Hrow%elem_of_replicate.
        destruct Hrow as [-> _]. unfold np_zeros. by rewrite length_replicate.
      * intros r c. rewrite !entry_zeros.
        repeat case_decide; try done; tauto.
    + intros done [n name] rest out diff _ (-> & Hsquare & Hsym).
      apply on_return_bind, on_return_getitem. intros token_i _.
      apply on_return_bind, on_return_int. intros resi _.
      apply on_return_bind, on_return_getitem. intros token_j _.
      apply on_return_bind, on_return_int. intros resj _.
      apply on_return_bind, on_return_getitem. intros value Hvalue.
      apply on_return_bind.
      apply (on_return_setitem2 (Z.to_nat size)); [done|].
      intros r c row Hr Hc Hrow Hclt Hsquare1.
      apply on_return_bind, on_return_getitem. intros value' Hvalue'.
      apply (on_return_setitem2 (Z.to_nat size)); [done|].
      intros r' c' row' Hr' Hc' Hrow' Hclt' Hsquare2.
      rewrite Hc in Hr'. rewrite Hr in Hc'.
      injection Hr' as <-. injection Hc' as <-.
      rewrite Hvalue in Hvalue'. injection Hvalue' as <-.
      split_and!; [done..|].
      intros a b. rewrite !(entry_insert _ c r row') by done.
      rewrite !(entry_insert _ r c row) by done.
      repeat case_decide; try done; try tauto.
  - intros out diff (-> & Hsquare & Hsym). simpl.
    exists first_name, last_name, first_token, last_token, firstres, lastres.
    split_and!; try done. lia.
Qed.

(** X13. A distance name with fewer than eight pieces between single
    spaces makes [distances_visualization] end in an exception. *)
Theorem distances_visualization_short_name
    (dist_names : list string) (dist_diff : list Qc) (out_filename : string)
    (vmin vmax : option Qc) (n : nat) (name : string) :
  dist_names !! n = Some name ->
  (length (split_space name) < 8)%nat ->
  fails (distances_visualization python_int dist_names dist_diff
           out_filename vmin vmax).
Proof.
  intros Hname Hshort. unfold distances_visualization.
  do 8 (apply fails_bind; eapply on_return_impl; [apply on_return_True|];
        intros ? ? _).
  apply fails_bind_l.
  apply (for_each_fails (fun _ => True)); [done| |].
  - intros [j name'] diff _ _. eapply on_return_impl; [apply on_return_True|done].
  - exists (n, name). split; [by apply elem_of_enumerate|]. intros diff _.
    apply fails_bind; eapply on_return_impl; [apply on_return_True|]; intros ? ? _.
    apply fails_bind; eapply on_return_impl; [apply on_return_True|]; intros ? ? _.
    apply fails_bind_l. unfold getitem. by rewrite lookup_ge_None_2 by lia.
Qed.

End distance_matrix.

(** ** Projections and sorted trajectories *)

Section projection_errors.
Variable pyemma_pca : matrix -> option nat -> pca_model.
Local Open Scope Qc_scope.

Lemma np_column_short_row (m : matrix) (j : nat) (v : list Qc) :
  v ∈ m -> (length v <= j)%nat -> np_column m j = raise IndexError.
Proof.
  induction m as [|row m IH]; intros Hv Hshort; [by apply elem_of_nil in Hv|].
  simpl. unfold getitem. destruct (row !! j) as [x|] eqn:Hx; [|done].
  rewrite bind_ret. apply elem_of_cons in Hv as [->|Hv].
  - apply lookup_lt_Some in Hx. lia.
  - by rewrite IH.
Qed.

(** X14. On data with at least one frame, [project_on_pc] raises
    [IndexError] when some row of the eigenvector matrix has no column
    [ev_idx], and [ValueError] when the column exists but the first frame
    has not as many entries as the eigenvector matrix has rows. *)
Theorem project_on_pc_shape_errors (data : matrix) (ev_idx : nat)
    (pca : pca_model) (frame : list Qc) (rest : matrix) :
  data = frame :: rest ->
  ((exists v, v ∈ eigenvectors pca /\ (length v <= ev_idx)%nat) ->
   project_on_pc pyemma_pca data ev_idx (Some pca) = raise IndexError)
  /\ (Forall (fun v => (ev_idx < length v)%nat) (eigenvectors pca) ->
      length frame <> length (eigenvectors pca) ->
      project_on_pc pyemma_pca data ev_idx (Some pca) = raise ValueError).
Proof.
  intros ->. unfold project_on_pc. cbn [length]. unfold range.
  cbn [seq for_each getitem lookup list_lookup]. split.
  - intros (v & Hv & Hshort). rewrite bind_ret.
    by rewrite (np_column_short_row _ _ v).
  - intros Hidx Hshape. rewrite bind_ret.
    rewrite (np_column_in_range _ _ Hidx), bind_ret.
    unfold np_dot. rewrite decide_False; [done|]. by rewrite length_map.
Qed.

End projection_errors.

Section sorted_trajectories.
Variable pyemma_pca : matrix -> option nat -> pca_model.
Variable trajectory_frames : string -> nat.
Local Open Scope Qc_scope.

Lemma sorted_projection_closed (data : matrix) (evi : nat) (pca : pca_model) :
  Forall (fun frame => length frame = length (eigenvectors pca)) data ->
  Forall (fun v => (evi < length v)%nat) (eigenvectors pca) ->
  sorted_projection pyemma_pca data evi pca
  = ret (projection data pca evi, np_argsort (projection data pca evi),
         map (fun i => nth i (projection data pca evi) 0)
             (np_argsort (projection data pca evi))).
Proof.
  intros Hshape Hidx.
  pose proof (sorted_projection_total pyemma_pca data evi pca Hshape Hidx) as H.
  destruct (sorted_projection pyemma_pca data evi pca)
    as [out [e|[[proj sort_idx] proj_sort]]]; [done|].
  simpl in H. destruct H as (-> & Hlen & Hproj & -> & _ & -> & _).
  assert (proj = projection data pca evi) as ->; [|done].
  apply list_eq. intros ti. unfold projection. rewrite list_lookup_fmap.
  destruct (data !! ti) as [frame|] eqn:Hframe; simpl.
  - by apply Hproj.
  - apply lookup_ge_None. apply lookup_ge_None in Hframe. lia.
Qed.

Lemma length_projection data pca evi : length (projection data pca evi) = length data.
Proof. unfold projection. by rewrite length_map. Qed.

Lemma nth_np_arange_from n start i :
  (i < n)%nat -> nth i (np_arange_from n start) 0%Z = (Z.of_nat i + start)%Z.
Proof.
  intros Hi. unfold np_arange_from.
  apply nth_lookup_Some with (d := 0%Z). rewrite list_lookup_fmap.
  by rewrite lookup_seq_lt.
Qed.

Lemma concat_lookup_seq {A B} (f : A -> B) (l : list A) :
  concat (map (fun i => match l !! i with Some p => [f p] | None => [] end)
              (seq 0 (length l)))
  = map f l.
Proof.
  induction l as [|p l IH] using rev_ind; [done|].
  rewrite length_app. simpl. rewrite Nat.add_1_r, seq_S, !map_app, concat_app.
  simpl. rewrite list_lookup_middle by done. simpl. rewrite <- IH. f_equal.
  f_equal. apply map_ext_in. intros i Hi%in_seq.
  by rewrite lookup_app_l by lia.
Qed.

Lemma trajectory_getitem_in_range n k :
  (0 ≤ k < Z.of_nat n)%Z -> trajectory_getitem n k = ret k.
Proof. intros H. unfold trajectory_getitem. by rewrite decide_True. Qed.

(** X15. For data that fits the PCA and a trajectory that holds the
    frames [start_frame, start_frame + len(data)), [sort_traj_along_pc]
    returns after opening, for each of the [num_pc] components in turn, one
    file and writing to it every frame of the data once, offset by
    [start_frame], in an order along which the projection on that component
    ascends.  (The order among frames of equal projection is left open.) *)
Theorem sort_traj_along_pc_writes_every_frame_in_order
    (data : matrix) (pca : pca_model) (start_frame : Z)
    (ref name out_name : string) (num_pc : nat) :
  let u := ("traj/" +:+ name +:+ ".xtc")%string in
  Forall (fun frame => length frame = length (eigenvectors pca)) data ->
  Forall (fun v => (num_pc <= length v)%nat) (eigenvectors pca) ->
  (0 ≤ start_frame)%Z ->
  (start_frame + Z.of_nat (length data) ≤ Z.of_nat (trajectory_frames u))%Z ->
  exists order : nat -> list nat,
    sort_traj_along_pc pyemma_pca trajectory_frames data pca start_frame
      ref name out_name num_pc
    = (concat (map (fun evi =>
         OpenWriter (pc_file out_name evi)
         :: map (fun i => WriteFrame (pc_file out_name evi) u
                                     (Z.of_nat i + start_frame))
                (order evi))
         (range num_pc)), inr tt)
    /\ forall evi,
         order evi ≡ₚ seq 0 (length data) /\
         forall i j p q x y, (i <= j)%nat ->
           order evi !! i = Some p -> order evi !! j = Some q ->
           projection data pca evi !! p = Some x ->
           projection data pca evi !! q = Some y -> x ≤ y.
Proof.
  intros u Hshape Hidx Hstart Hlong.
  exists (fun evi => np_argsort (projection data pca evi)). split.
  - unfold sort_traj_along_pc. fold u.
    apply for_each_emits. intros evi Hevi. apply elem_of_seq in Hevi.
    rewrite sorted_projection_closed; [|done|].
    2:{ eapply Forall_impl; [exact Hidx|]. simpl. intros; lia. }
    rewrite bind_ret.
    set (order := np_argsort (projection data pca evi)).
    assert (Forall (fun i => (i < length data)%nat) order) as Horder.
    { unfold order. rewrite <- (length_projection data pca evi).
      apply np_argsort_in_range. }
    rewrite (np_take_in_range 0%Z).
    2:{ unfold np_arange_from. by rewrite length_map, length_seq. }
    rewrite bind_ret.
    assert (length order = length data) as Hlen.
    { unfold order. rewrite np_argsort_Permutation, length_seq.
      apply length_projection. }
    rewrite (for_each_emits _ _ (fun i =>
      match order !! i with
      | Some p => [WriteFrame (pc_file out_name evi) u (Z.of_nat p + start_frame)]
      | None => []
      end)).
    + simpl. f_equal. f_equal. unfold range. rewrite <- Hlen.
      apply (concat_lookup_seq (fun p =>
        WriteFrame (pc_file out_name evi) u (Z.of_nat p + start_frame))).
    + intros i Hi. apply elem_of_seq in Hi.
      destruct (lookup_lt_is_Some_2 order i) as [p Hp]; [lia|]. rewrite Hp.
      assert (p < length data)%nat as Hplt.
      { rewrite Forall_forall in Horder. apply Horder.
        by eapply list_elem_of_lookup_2. }
      rewrite (getitem_Some _ _ (Z.of_nat p + start_frame)%Z).
      2:{ rewrite list_lookup_fmap, Hp. simpl. by rewrite nth_np_arange_from. }
      rewrite bind_ret, trajectory_getitem_in_range by lia.
      by rewrite bind_ret.
  - intros evi. split.
    + rewrite np_argsort_Permutation. by rewrite length_projection.
    + intros i j p q x y Hij Hp Hq Hx Hy.
      pose proof (StronglySorted_lookup (key_le (projection data pca evi))
        _ i j p q (fun z => Qcle_refl _) (np_argsort_sorted _) Hij Hp Hq) as Hle.
      unfold key_le in Hle.
      by rewrite (nth_lookup_Some _ _ 0 _ Hx), (nth_lookup_Some _ _ 0 _ Hy) in Hle.
Qed.

(** X16. When the trajectory has fewer frames than
    [start_frame + len(data)], [sort_traj_along_pc] raises [IndexError]
    while it writes the file of the first component. *)
Theorem sort_traj_along_pc_trajectory_too_short
    (data : matrix) (pca : pca_model) (start_frame : Z)
    (ref name out_name : string) (num_pc : nat) :
  let u := ("traj/" +:+ name +:+ ".xtc")%string in
  Forall (fun frame => length frame = length (eigenvectors pca)) data ->
  Forall (fun v => (num_pc <= length v)%nat) (eigenvectors pca) ->
  (0 < num_pc)%nat ->
  data <> [] ->
  (0 ≤ start_frame)%Z ->
  (Z.of_nat (trajectory_frames u) < start_frame + Z.of_nat (length data))%Z ->
  raises (sort_traj_along_pc pyemma_pca trajectory_frames data pca start_frame
            ref name out_name num_pc)
         IndexError.
Proof.
  intros u Hshape Hidx Hpc Hdata Hstart Hshort.
  unfold sort_traj_along_pc. fold u.
  destruct num_pc as [|num_pc]; [lia|].
  unfold range at 1. cbn [seq for_each]. apply raises_bind_l.
  rewrite sorted_projection_closed; [|done|].
  2:{ eapply Forall_impl; [exact Hidx|]. simpl. intros; lia. }
  rewrite bind_ret.
  set (order := np_argsort (projection data pca 0)).
  assert (Forall (fun i => (i < length data)%nat) order) as Horder.
  { unfold order. rewrite <- (length_projection data pca 0).
    apply np_argsort_in_range. }
  assert (order ≡ₚ seq 0 (length data)) as Hperm.
  { unfold order. rewrite np_argsort_Permutation. by rewrite length_projection. }
  rewrite (np_take_in_range 0%Z).
  2:{ unfold np_arange_from. by rewrite length_map, length_seq. }
  rewrite bind_ret.
  eapply raises_bind_r; [reflexivity|].
  apply (for_each_raises (fun _ => True)); [done| |].
  - intros i [] _ _. unfold getitem.
    destruct (_ !! i) as [k|]; [|by right]. rewrite bind_ret.
    unfold trajectory_getitem.
    repeat case_decide;
      first [left; by rewrite bind_ret | right; by unfold raises].
  - assert (0 < length data)%nat as Hne by (destruct data; [done|simpl; lia]).
    assert (pred (length data) ∈ order) as Hin.
    { rewrite Hperm. apply elem_of_seq. lia. }
    apply list_elem_of_lookup in Hin as [i Hi].
    exists i. split.
    + apply elem_of_seq. apply lookup_lt_Some in Hi.
      rewrite Hperm, length_seq in Hi. lia.
    + intros [] _.
      rewrite (getitem_Some _ _ (Z.of_nat (pred (length data)) + start_frame)%Z).
      2:{ rewrite list_lookup_fmap, Hi. simpl. f_equal.
          apply nth_np_arange_from. lia. }
      rewrite bind_ret. unfold trajectory_getitem.
      rewrite decide_False by lia. rewrite decide_False by lia. done.
Qed.

End sorted_trajectories.

Section common_axes.
Variable pyemma_pca : matrix -> option nat -> pca_model.
Variable trajectory_frames : string -> nat.
Local Open Scope Qc_scope.

Lemma nth_ones_zeros (n m p : nat) :
  nth p (np_concatenate (np_ones n) (np_zeros m)) 0
  = if decide (p < n)%nat then 1 else 0.
Proof.
  unfold np_concatenate, np_ones, np_zeros. case_decide as Hp.
  - rewrite app_nth1 by (by rewrite length_replicate).
    apply nth_lookup_Some with (d := 0). by apply lookup_replicate_2.
  - rewrite app_nth2 by (rewrite length_replicate; lia).
    rewrite length_replicate.
    destruct (decide (p - n < m)%nat) as [Hlt|Hge].
    + apply nth_lookup_Some with (d := 0). by apply lookup_replicate_2.
    + apply nth_overflow. rewrite length_replicate. lia.
Qed.

Lemma nth_arange_pair (n m : nat) (start : Z) (p : nat) :
  (p < n + m)%nat ->
  nth p (np_concatenate (np_arange_from n start) (np_arange_from m start)) 0%Z
  = if decide (p < n)%nat then (Z.of_nat p + start)%Z
    else (Z.of_nat (p - n) + start)%Z.
Proof.
  intros Hp. unfold np_concatenate. case_decide as Hn.
  - rewrite app_nth1 by (unfold np_arange_from; by rewrite length_map, length_seq).
    by apply nth_np_arange_from.
  - assert (length (np_arange_from n start) = n) as Hlen.
    { unfold np_arange_from. by rewrite length_map, length_seq. }
    rewrite app_nth2 by lia. rewrite Hlen. apply nth_np_arange_from. lia.
Qed.

Lemma np_concatenate_rows_same_width (w : nat) (m1 m2 : matrix) :
  Forall (fun row => length row = w) (m1 ++ m2) ->
  np_concatenate_rows m1 m2 = ret (m1 ++ m2).
Proof.
  intros H. unfold np_concatenate_rows.
  destruct m1 as [|r1 m1], m2 as [|r2 m2]; try done.
  rewrite decide_True; [done|].
  apply Forall_app in H as [H1 H2].
  apply Forall_cons in H1 as [-> _]. by apply Forall_cons in H2 as [-> _].
Qed.

(** X17. When the PCA of the combined data has twelve components and both
    trajectories are long enough, [sort_trajs_along_common_pc] returns after
    writing twelve files; in each, a row of the first data set is read from
    the first trajectory and a row of the second from the second one, at
    the row's index within its own data set plus [start_frame]; every row
    of the combined data is written once, in an order along which the
    projection on the component ascends.  (The order among rows of equal
    projection is left open.) *)
Theorem sort_trajs_along_common_pc_takes_frames_from_their_source
    (data_g data_a : matrix) (start_frame : Z)
    (ref_g ref_a name_g name_a out_name : string) :
  let data := data_g ++ data_a in
  let pca := pyemma_pca data (Some 3%nat) in
  let ug := ("traj/" +:+ name_g +:+ ".xtc")%string in
  let ua := ("traj/" +:+ name_a +:+ ".xtc")%string in
  Forall (fun frame => length frame = length (eigenvectors pca)) data ->
  Forall (fun v => (12 <= length v)%nat) (eigenvectors pca) ->
  (0 ≤ start_frame)%Z ->
  (start_frame + Z.of_nat (length data_g) ≤ Z.of_nat (trajectory_frames ug))%Z ->
  (start_frame + Z.of_nat (length data_a) ≤ Z.of_nat (trajectory_frames ua))%Z ->
  exists order : nat -> list nat,
    sort_trajs_along_common_pc pyemma_pca trajectory_frames data_g data_a
      start_frame ref_g ref_a name_g name_a out_name
    = (concat (map (fun evi =>
         OpenWriter (pc_file out_name evi)
         :: map (fun p =>
                   if decide (p < length data_g)%nat
                   then WriteFrame (pc_file out_name evi) ug
                                   (Z.of_nat p + start_frame)
                   else WriteFrame (pc_file out_name evi) ua
                                   (Z.of_nat (p - length data_g) + start_frame))
                (order evi))
         (range 12)), inr tt)
    /\ forall evi,
         order evi ≡ₚ seq 0 (length data) /\
         forall i j p q x y, (i <= j)%nat ->
           order evi !! i = Some p -> order evi !! j = Some q ->
           projection data pca evi !! p = Some x ->
           projection data pca evi !! q = Some y -> x ≤ y.
Proof.
  intros data pca ug ua Hshape Hidx Hstart Hlong_g Hlong_a.
  exists (fun evi => np_argsort (projection data pca evi)). split.
  2:{ intros evi. split.
      - rewrite np_argsort_Permutation. by rewrite length_projection.
      - intros i j p q x y Hij Hp Hq Hx Hy.
        pose proof (StronglySorted_lookup (key_le (projection data pca evi))
          _ i j p q (fun z => Qcle_refl _) (np_argsort_sorted _) Hij Hp Hq)
          as Hle.
        unfold key_le in Hle.
        by rewrite (nth_lookup_Some _ _ 0 _ Hx), (nth_lookup_Some _ _ 0 _ Hy)
          in Hle. }
  unfold sort_trajs_along_common_pc.
  rewrite (np_concatenate_rows_same_width _ _ _ Hshape), bind_ret.
  fold data pca ug ua.
  apply for_each_emits. intros evi Hevi. apply elem_of_seq in Hevi.
  rewrite sorted_projection_closed; [|done|].
  2:{ eapply Forall_impl; [exact Hidx|]. simpl. intros; lia. }
  rewrite bind_ret.
  set (order := np_argsort (projection data pca evi)).
  assert (length data = (length data_g + length data_a)%nat) as Hdata.
  { unfold data. by rewrite length_app. }
  assert (Forall (fun i => (i < length data)%nat) order) as Horder.
  { unfold order. rewrite <- (length_projection data pca evi).
    apply np_argsort_in_range. }
  rewrite (np_take_in_range 0).
  2:{ unfold np_concatenate, np_ones, np_zeros.
      rewrite length_app, !length_replicate. by rewrite <- Hdata. }
  rewrite bind_ret.
  rewrite (np_take_in_range 0%Z).
  2:{ unfold np_concatenate, np_arange_from.
      rewrite length_app, !length_map, !length_seq. by rewrite <- Hdata. }
  rewrite bind_ret.
  assert (length order = length data) as Hlen.
  { unfold order. rewrite np_argsort_Permutation, length_seq.
    apply length_projection. }
  rewrite (for_each_emits _ _ (fun i =>
    match order !! i with
    | Some p => [if decide (p < length data_g)%nat
                 then WriteFrame (pc_file out_name evi) ug
                                 (Z.of_nat p + start_frame)
                 else WriteFrame (pc_file out_name evi) ua
                                 (Z.of_nat (p - length data_g) + start_frame)]
    | None => []
    end)).
  - simpl. f_equal. f_equal. unfold range. rewrite <- Hlen.
    apply (concat_lookup_seq (fun p =>
      if decide (p < length data_g)%nat
      then WriteFrame (pc_file out_name evi) ug (Z.of_nat p + start_frame)
      else WriteFrame (pc_file out_name evi) ua
                      (Z.of_nat (p - length data_g) + start_frame))).
  - intros i Hi. apply elem_of_seq in Hi.
    destruct (lookup_lt_is_Some_2 order i) as [p Hp]; [lia|]. rewrite Hp.
    assert (p < length data)%nat as Hplt.
    { rewrite Forall_forall in Horder. apply Horder.
      by eapply list_elem_of_lookup_2. }
    rewrite (getitem_Some _ _ (if decide (p < length data_g)%nat then 1 else 0)).
    2:{ rewrite list_lookup_fmap, Hp. simpl. by rewrite nth_ones_zeros. }
    rewrite bind_ret.
    rewrite (getitem_Some _ _
      (if decide (p < length data_g)%nat then (Z.of_nat p + start_frame)%Z
       else (Z.of_nat (p - length data_g) + start_frame)%Z)).
    2:{ rewrite list_lookup_fmap, Hp. simpl. rewrite nth_arange_pair by lia. done. }
    destruct (decide (p < length data_g)%nat) as [Hg|Ha].
    + rewrite decide_True by done.
      rewrite bind_ret, trajectory_getitem_in_range by lia. by rewrite bind_ret.
    + rewrite decide_False by done. rewrite decide_True by done.
      rewrite bind_ret, trajectory_getitem_in_range by lia. by rewrite bind_ret.
Qed.

(** X18. [sort_trajs_along_common_pc] always projects on twelve
    components: on non-empty data whose PCA has fewer than twelve
    eigenvector columns the call ends in an exception. *)
Theorem sort_trajs_along_common_pc_needs_twelve_axes
    (data_g data_a : matrix) (start_frame : Z)
    (ref_g ref_a name_g name_a out_name : string) (row : list Qc) (rest : matrix) :
  data_g ++ data_a <> [] ->
  eigenvectors (pyemma_pca (data_g ++ data_a) (Some 3%nat)) = row :: rest ->
  (length row < 12)%nat ->
  fails (sort_trajs_along_common_pc pyemma_pca trajectory_frames data_g data_a
           start_frame ref_g ref_a name_g name_a out_name).
Proof.
  intros Hne Hrow Hshort. unfold sort_trajs_along_common_pc.
  apply fails_bind, on_return_np_concatenate_rows.
  apply (for_each_fails (fun _ => True)); [done| |].
  - intros evi [] _ _. eapply on_return_impl; [apply on_return_True|done].
  - exists (length row). split; [apply elem_of_seq; lia|]. intros [] _.
    apply fails_bind_l. unfold sorted_projection. apply fails_bind_l.
    unfold project_on_pc. rewrite Hrow.
    destruct (data_g ++ data_a) as [|frame data] eqn:Hdata; [done|].
    cbn [length]. unfold range. cbn [seq for_each]. apply fails_bind_l.
    cbn [getitem lookup list_lookup]. rewrite bind_ret.
    apply fails_bind_l. cbn [np_column]. apply fails_bind_l.
    unfold getitem. by rewrite lookup_ge_None_2.
Qed.

End common_axes.

(** ** Cluster populations and rejected algorithms *)

Section populations.
Local Open Scope Qc_scope.

Lemma sum_unique_counts (a : list Z) :
  sum_list (snd (np_unique_counts a)) = length a.
Proof.
  unfold np_unique_counts. cbn [snd].
  pose proof (NoDup_np_unique a) as Hnodup.
  assert (forall x, x ∈ a -> x ∈ np_unique a) as Hall.
  { intros x. apply elem_of_np_unique. }
  revert Hnodup Hall. generalize (np_unique a). intros U. revert U.
  induction a as [|x a IH]; intros U Hnodup Hall.
  - simpl. induction U as [|u U IHU]; [done|]. simpl. apply IHU.
    + by apply NoDup_cons in Hnodup as [_ ?].
    + intros y Hy. by apply elem_of_nil in Hy.
  - assert (x ∈ U) as Hx by (apply Hall; left).
    assert (sum_list (map (fun v => length (filter (fun y => y = v) (x :: a))) U)
            = S (sum_list (map (fun v => length (filter (fun y => y = v) a)) U)))
      as ->.
    { clear IH Hall. induction U as [|u U IHU]; [by apply elem_of_nil in Hx|].
      apply NoDup_cons in Hnodup as [Hu Hnodup]. cbn [map sum_list sum_list_with].
      rewrite (filter_cons (fun y => y = u) x a).
      destruct (decide (x = u)) as [->|Hne].
      - simpl. f_equal. f_equal.
        clear IHU Hx. induction U as [|w U IHU]; [done|].
        cbn [map sum_list sum_list_with].
        apply not_elem_of_cons in Hu as [Hw Hu].
        apply NoDup_cons in Hnodup as [_ Hnodup].
        rewrite filter_cons_False by done. f_equal. by apply IHU.
      - apply elem_of_cons in Hx as [->|Hx]; [done|].
        rewrite IHU by done. lia. }
    simpl. f_equal. apply IH; [done|]. intros y Hy. apply Hall. by right.
Qed.

Lemma np_mask_first (cidx_a cidx_b : list Z) :
  np_mask (cidx_a ++ cidx_b)
          (np_equal (np_concatenate (np_ones (length cidx_a))
                                    (np_zeros (length cidx_b))) 1)
  = ret cidx_a.
Proof.
  rewrite np_mask_same_length.
  2:{ unfold np_equal, np_concatenate, np_ones, np_zeros.
      by rewrite length_map, !length_app, !length_replicate. }
  f_equal. f_equal. unfold np_equal, np_concatenate, np_ones, np_zeros.
  assert (H01 : bool_decide (0 = 1) = false) by (by apply bool_decide_eq_false_2).
  assert (H11 : bool_decide (1 = 1) = true) by (by apply bool_decide_eq_true_2).
  induction cidx_a as [|c cidx_a IH].
  - induction cidx_b as [|c cidx_b IH]; [done|].
    cbn [length replicate app map zip zip_with]. rewrite H01.
    rewrite filter_cons_False by done. apply IH.
  - cbn [length replicate app map zip zip_with]. rewrite H11.
    rewrite filter_cons_True by done. cbn [map fst]. f_equal. apply IH.
Qed.

End populations.

Section cluster_plots.
Variable cluster_kmeans : matrix -> Z -> Z -> Py (list Z).
Variable cluster_regspace : matrix -> Qc -> Py (list Z).
Local Open Scope Qc_scope.

(** X19. An algorithm name other than ['kmeans'] and ['rspace'] makes
    [obtain_clusters] and [obtain_combined_clusters] raise
    [AssertionError] before any clustering routine has been invoked and
    before anything is plotted; in [obtain_combined_clusters] the two data
    sets have been concatenated by then, so arrays of different widths raise
    [ValueError] instead. *)
Theorem unknown_algorithm_is_rejected_before_clustering
    (data data_g data_a : matrix) (start_frame : Z) (label_g label_a : string)
    (algorithm : string) (num_clusters : Z) (min_dist : Qc) (max_iter : Z)
    (plot : bool) (saveas : option string) :
  algorithm <> "kmeans"%string -> algorithm <> "rspace"%string ->
  obtain_clusters cluster_kmeans cluster_regspace data algorithm
    num_clusters min_dist max_iter = ([], inl AssertionError)
  /\ obtain_combined_clusters cluster_kmeans cluster_regspace data_g data_a
       start_frame label_g label_a algorithm num_clusters min_dist max_iter
       plot saveas
     = ([], inl (match np_concatenate_rows data_g data_a with
                 | (_, inl e) => e
                 | (_, inr _) => AssertionError
                 end)).
Proof.
  intros Hk Hr.
  assert (known_algorithm algorithm = false) as Hunknown.
  { apply bool_decide_eq_false_2. rewrite !elem_of_cons.
    intros [?|[?|H]]; [done..|]. by apply elem_of_nil in H. }
  split.
  - unfold obtain_clusters. by rewrite Hunknown.
  - unfold obtain_combined_clusters.
    destruct (np_concatenate_rows data_g data_a) as [out [e|rows]] eqn:E.
    + simpl. unfold np_concatenate_rows, ret, raise in E.
      repeat case_match; by simplify_eq.
    + destruct (np_concatenate_rows_app _ _ _ _ E) as [-> ->].
      simpl. by rewrite Hunknown.
Qed.

(** X20. Whenever [obtain_combined_clusters] returns with [plot=True],
    the last things it did were to draw one bar chart per ensemble, over the
    distinct cluster ids of that ensemble's rows shifted by 0.15 to the left
    and to the right, and to save the figure if a file name was given; the
    bar heights of each ensemble add up to its number of rows. *)
Theorem combined_cluster_populations (data_g data_a : matrix)
    (start_frame : Z) (label_g label_a : string) (algorithm : string)
    (num_clusters : Z) (min_dist : Qc) (max_iter : Z) (saveas : option string) :
  on_return (obtain_combined_clusters cluster_kmeans cluster_regspace
               data_g data_a start_frame label_g label_a algorithm
               num_clusters min_dist max_iter true saveas)
    (fun out '(cidx, _, _, _, _) =>
       exists before heights_g heights_a,
         let cidx_g := take (length data_g) cidx in
         let cidx_a := drop (length data_g) cidx in
         out = before
               ++ [Bar (map (fun v => Qc_of_Z v - bar_shift) (np_unique cidx_g))
                       heights_g label_g;
                   Bar (map (fun v => Qc_of_Z v + bar_shift) (np_unique cidx_a))
                       heights_a label_a]
               ++ match saveas with Some file => [Savefig file] | None => [] end
         /\ length heights_g = length (np_unique cidx_g)
         /\ length heights_a = length (np_unique cidx_a)
         /\ sum_list heights_g = length data_g
         /\ sum_list heights_a = length data_a).
Proof.
  unfold obtain_combined_clusters.
  match goal with |- on_return _ ?P =>
    assert (forall out out' b, P out' b -> P (out ++ out') b) as Hclosed
  end.
  { intros out out' [[[[cidx cond] oidx] wss] centroids].
    intros (before & hg & ha & -> & H). exists (out ++ before), hg, ha.
    split; [by rewrite <- app_assoc|done]. }
  apply on_return_bind_suffix; [done|]; intros data.
  apply on_return_bind_suffix; [done|]; intros _.
  apply on_return_bind_suffix; [done|]; intros cidx.
  apply on_return_bind_suffix; [done|]; intros [centroids total_wss].
  apply on_return_bind.
  unfold np_unique_counts at 1. lazy beta iota zeta.
  apply on_return_bind, on_return_np_mask. intros Hlen.
  assert (length cidx = (length data_g + length data_a)%nat) as Hcidx.
  { unfold np_equal, np_concatenate, np_ones, np_zeros in Hlen.
    by rewrite length_map, length_app, !length_replicate in Hlen. }
  assert (cidx = take (length data_g) cidx ++ drop (length data_g) cidx) as Hsplit
    by (by rewrite take_drop).
  set (cidx_g := take (length data_g) cidx) in *.
  set (cidx_a := drop (length data_g) cidx) in *.
  assert (length cidx_g = length data_g) as Hg.
  { unfold cidx_g. rewrite length_take. lia. }
  assert (length cidx_a = length data_a) as Ha.
  { unfold cidx_a. rewrite length_drop. lia. }
  pose proof (np_mask_first cidx_g cidx_a) as Hfirst.
  pose proof (np_mask_second cidx_g cidx_a) as Hsecond.
  rewrite <- Hsplit, Hg, Ha in Hfirst, Hsecond.
  rewrite np_mask_same_length in Hfirst by done.
  injection Hfirst as ->. rewrite Hsecond.
  pose proof (sum_unique_counts cidx_g) as Hsum_g.
  pose proof (sum_unique_counts cidx_a) as Hsum_a.
  unfold np_unique_counts in *. cbn [snd] in *. lazy beta iota zeta.
  rewrite bind_ret.
  assert (forall tail : list event,
    exists before heights_g heights_a,
      (Bar (map (fun v => Qc_of_Z v - bar_shift) (np_unique cidx_g))
           (map (fun v => length (filter (fun x => x = v) cidx_g)) (np_unique cidx_g))
           label_g
       :: Bar (map (fun v => Qc_of_Z v + bar_shift) (np_unique cidx_a))
           (map (fun v => length (filter (fun x => x = v) cidx_a)) (np_unique cidx_a))
           label_a :: tail)
      = before
        ++ Bar (map (fun v => Qc_of_Z v - bar_shift) (np_unique cidx_g))
               heights_g label_g
           :: Bar (map (fun v => Qc_of_Z v + bar_shift) (np_unique cidx_a))
                  heights_a label_a :: tail
      /\ length heights_g = length (np_unique cidx_g)
      /\ length heights_a = length (np_unique cidx_a)
      /\ sum_list heights_g = length data_g
      /\ sum_list heights_a = length data_a) as Hlog.
  { intros tail. eexists [], _, _.
    split_and!; [reflexivity|by rewrite length_map..|lia|lia]. }
  destruct saveas as [file|]; simpl; apply Hlog.
Qed.

(** X21. Whenever [obtain_clusters] returns, it has invoked the routine
    the algorithm names, k-means with the [max_iter] it was given, it
    returns the indices that routine gave, and the last thing it did was to
    draw one bar per distinct cluster id; the bar heights add up to the
    number of rows. *)
Theorem obtain_clusters_plots_populations (data : matrix) (algorithm : string)
    (num_clusters : Z) (min_dist : Qc) (max_iter : Z) :
  on_return (obtain_clusters cluster_kmeans cluster_regspace data algorithm
               num_clusters min_dist max_iter)
    (fun out cl_idx =>
       (exists called,
          (algorithm = "kmeans"%string /\
           cluster_kmeans data num_clusters max_iter = (called, inr cl_idx) /\
           head out = Some (KMeans data num_clusters max_iter)) \/
          (algorithm = "rspace"%string /\
           cluster_regspace data min_dist = (called, inr cl_idx) /\
           head out = Some (Regspace data min_dist))) /\
       exists heights,
         last out = Some (Bar (map Qc_of_Z (np_unique cl_idx)) heights "") /\
         length heights = length (np_unique cl_idx) /\
         sum_list heights = length cl_idx).
Proof.
  unfold obtain_clusters.
  apply on_return_bind, on_return_assert. intros Hknown.
  apply bool_decide_eq_true_1 in Hknown.
  apply on_return_bind.
  assert (forall (first : event) (m : Py (list Z)) (Q : list Z -> list event -> Prop),
    (forall called cl_idx, m = (called, inr cl_idx) -> Q cl_idx called) ->
    on_return (emit first ;;; m)
      (fun out cl_idx => exists called, out = first :: called /\ Q cl_idx called))
    as Hcall.
  { intros first m Q HQ. destruct m as [called [e|cl_idx]] eqn:E; [done|].
    simpl. exists called. split; [done|]. by apply HQ. }
  case_decide as Halg.
  - eapply on_return_impl.
    + apply (Hcall _ _ (fun cl_idx called =>
        cluster_kmeans data num_clusters max_iter = (called, inr cl_idx))).
      by intros.
    + intros out cl_idx (called & -> & Hcalled).
      pose proof (sum_unique_counts cl_idx) as Hsum.
      unfold np_unique_counts in *. cbn [snd] in Hsum. simpl. split.
      * exists called. by left.
      * eexists. split; [by rewrite app_comm_cons, last_snoc|].
        by rewrite length_map.
  - assert (algorithm = "rspace"%string) as Hr.
    { rewrite !elem_of_cons in Hknown. destruct Hknown as [?|[?|H]]; [done..|].
      by apply elem_of_nil in H. }
    eapply on_return_impl.
    + apply (Hcall _ _ (fun cl_idx called =>
        cluster_regspace data min_dist = (called, inr cl_idx))).
      by intros.
    + intros out cl_idx (called & -> & Hcalled).
      pose proof (sum_unique_counts cl_idx) as Hsum.
      unfold np_unique_counts in *. cbn [snd] in Hsum. simpl. split.
      * exists called. by right.
      * eexists. split; [by rewrite app_comm_cons, last_snoc|].
        by rewrite length_map.
Qed.

End cluster_plots.

(** ** Writing cluster trajectories, and the driver *)

Section cluster_trajectories.
Variable trajectory_frames : string -> nat.

Lemma le_np_max_Z (x : Z) (l : list Z) (c : Z) :
  c ∈ x :: l -> (c ≤ foldr Z.max x l)%Z.
Proof.
  induction l as [|y l IH]; simpl.
  - intros ->%list_elem_of_singleton. lia.
  - rewrite !elem_of_cons. intros [->|[->|H]].
    + assert (x ≤ foldr Z.max x l)%Z by (apply IH; left). lia.
    + lia.
    + assert (c ≤ foldr Z.max x l)%Z by (apply IH; by right). lia.
Qed.

(** The body of the frame loop emits at most one event and cannot fail
    when the assignment array covers the frame. *)
Lemma write_cluster_traj_frame (cluster_idx : list Z) (trj_file out_name : string)
    (start_frame : Z) (nr frame : nat) :
  ((start_frame ≤ Z.of_nat frame)%Z ->
   Z.to_nat (Z.of_nat frame - start_frame) < length cluster_idx) ->
  (if decide (start_frame ≤ Z.of_nat frame)%Z then
     let* c := getitem cluster_idx (Z.to_nat (Z.of_nat frame - start_frame)) in
     if decide (c = Z.of_nat nr)
     then emit (WriteFrame (cluster_file out_name nr) trj_file (Z.of_nat frame))
     else ret tt
   else ret tt)
  = (map (fun frame => WriteFrame (cluster_file out_name nr) trj_file (Z.of_nat frame))
         (filter (fun frame => (start_frame ≤ Z.of_nat frame)%Z /\
            cluster_idx !! Z.to_nat (Z.of_nat frame - start_frame)
            = Some (Z.of_nat nr)) [frame]), inr tt).
Proof.
  intros Hcov. case_decide as Hstart.
  - destruct (lookup_lt_is_Some_2 _ _ (Hcov Hstart)) as [c Hc].
    rewrite (getitem_Some _ _ _ Hc), bind_ret.
    case_decide as Hnr.
    + rewrite filter_cons_True; [done|]. split; [done|]. by rewrite Hc, Hnr.
    + rewrite filter_cons_False; [done|]. intros [_ Hc']. by simplify_eq.
  - rewrite filter_cons_False; [done|]. by intros [? _].
Qed.

Lemma concat_map_filter_singleton {A B} (P : A -> Prop) `{!forall x, Decision (P x)}
    (f : A -> B) (l : list A) :
  concat (map (fun x => map f (filter P [x])) l) = map f (filter P l).
Proof.
  induction l as [|x l IH]; [done|]. simpl. rewrite IH.
  rewrite (filter_cons P x l). rewrite (filter_cons P x []).
  by destruct (decide (P x)).
Qed.

(** X22. When the assignment array covers every frame of the trajectory
    from [start_frame] on, [write_cluster_traj] returns after opening one
    file for each cluster number from 0 to the largest assigned id, in that
    order, and writing to the file of cluster [nr] exactly the frames from
    [start_frame] on whose assignment is [nr], in trajectory order. *)
Theorem write_cluster_traj_files_and_frames (cluster_idx : list Z)
    (top_file trj_file out_name : string) (start_frame largest : Z) :
  np_max_Z cluster_idx = ret largest ->
  (forall frame, frame < trajectory_frames trj_file ->
     (start_frame ≤ Z.of_nat frame)%Z ->
     Z.to_nat (Z.of_nat frame - start_frame) < length cluster_idx) ->
  write_cluster_traj trajectory_frames cluster_idx top_file trj_file out_name
    start_frame
  = (concat (map (fun nr =>
       OpenWriter (cluster_file out_name nr)
       :: map (fun frame => WriteFrame (cluster_file out_name nr) trj_file
                                       (Z.of_nat frame))
              (frames_of_cluster cluster_idx (trajectory_frames trj_file)
                                 start_frame nr))
       (range (Z.to_nat (largest + 1)))), inr tt).
Proof.
  intros Hmax Hcov. unfold write_cluster_traj. rewrite Hmax, bind_ret.
  apply for_each_emits. intros nr _.
  rewrite (for_each_emits _ _ (fun frame =>
    map (fun frame => WriteFrame (cluster_file out_name nr) trj_file (Z.of_nat frame))
      (filter (fun frame => (start_frame ≤ Z.of_nat frame)%Z /\
            cluster_idx !! Z.to_nat (Z.of_nat frame - start_frame)
            = Some (Z.of_nat nr)) [frame]))).
  - simpl. by rewrite concat_map_filter_singleton.
  - intros frame Hframe. apply write_cluster_traj_frame.
    apply Hcov. apply elem_of_seq in Hframe. lia.
Qed.

Lemma write_cluster_traj_too_short (cluster_idx : list Z)
    (top_file trj_file out_name : string) (start_frame largest : Z) (frame : nat) :
  np_max_Z cluster_idx = ret largest -> (0 ≤ largest)%Z ->
  frame < trajectory_frames trj_file ->
  (start_frame ≤ Z.of_nat frame)%Z ->
  length cluster_idx <= Z.to_nat (Z.of_nat frame - start_frame) ->
  raises (write_cluster_traj trajectory_frames cluster_idx top_file trj_file
            out_name start_frame) IndexError.
Proof.
  intros Hmax Hpos Hframe Hstart Hshort.
  unfold write_cluster_traj. rewrite Hmax, bind_ret.
  replace (Z.to_nat (largest + 1)) with (S (Z.to_nat largest)) by lia.
  unfold range at 1. cbn [seq for_each]. apply raises_bind_l.
  eapply raises_bind_r; [reflexivity|].
  apply (for_each_raises (fun _ => True)); [done| |].
  - intros f [] _ _. case_decide; [|by left].
    unfold getitem. destruct (cluster_idx !! _) as [c|]; [|by right].
    rewrite bind_ret. left. by case_decide.
  - exists frame. split; [apply elem_of_seq; lia|]. intros [] _.
    rewrite decide_True by done. unfold getitem.
    by rewrite (lookup_ge_None_2 _ _ Hshort).
Qed.

End cluster_trajectories.

Section driver_write.
Variable trajectory_frames : string -> nat.

(** X23. The write branch of the driver hands the assignments of the
    second ensemble to the call for simulation A's trajectory.  When that
    trajectory has more frames from [start_frame] on than the second
    ensemble has rows (and some cluster id is not negative), the branch
    raises [IndexError]. *)
Theorem write_branch_trajectory_longer_than_second_ensemble
    (args : arguments) (cidx_a cidx_b : list Z) (c : Z) :
  c ∈ cidx_b -> (0 ≤ c)%Z -> (0 ≤ start_frame args)%Z ->
  Z.to_nat (start_frame args) + length cidx_b
    < trajectory_frames (trj_file_a args) ->
  raises (write_branch trajectory_frames args (cidx_a ++ cidx_b)
            (np_concatenate (np_ones (length cidx_a))
                            (np_zeros (length cidx_b))))
         IndexError.
Proof.
  intros Hc Hpos Hstart Hlong. unfold write_branch.
  rewrite np_mask_second, bind_ret. apply raises_bind_l.
  destruct cidx_b as [|x l] eqn:E; [by apply elem_of_nil in Hc|]. rewrite <- E in *.
  apply (write_cluster_traj_too_short _ _ _ _ _ _ (foldr Z.max x l)
           (Z.to_nat (start_frame args) + length cidx_b)).
  - by rewrite E.
  - rewrite E in Hc. pose proof (le_np_max_Z x l c Hc). lia.
  - done.
  - lia.
  - lia.
Qed.

(** X24. When no row of the combined data belongs to the second ensemble,
    the write branch raises [ValueError] before it opens any file:
    [write_cluster_traj] asks for the maximum of an empty array. *)
Theorem write_branch_without_second_ensemble
    (args : arguments) (cidx : list Z) (cond : list Qc) :
  length cond = length cidx -> 0%Qc ∉ cond ->
  write_branch trajectory_frames args cidx cond = ([], inl ValueError).
Proof.
  intros Hlen Hnone. unfold write_branch.
  rewrite np_mask_same_length by (unfold np_equal; by rewrite length_map).
  rewrite filter_none; [done|].
  apply Forall_forall. intros [c b] Hin Hb. simpl in Hb. subst b.
  apply elem_of_zip_r in Hin. unfold np_equal in Hin.
  apply list_elem_of_fmap in Hin as (x & Hx & Hin).
  symmetry in Hx. apply bool_decide_eq_true_1 in Hx. by subst x.
Qed.

End driver_write.

Section driver_keys.
Variable get_features :
  string -> string -> Z -> Py (dict featurizer * dict matrix).
Variable cluster_kmeans : matrix -> Z -> Z -> Py (list Z).
Variable cluster_regspace : matrix -> Qc -> Py (list Z).
Variable trajectory_frames : string -> nat.

Lemma report_dimensions_log (trj_file : string) (data : dict matrix) :
  report_dimensions trj_file data
  = (PrintLine ("Feature dimensions from " +:+ trj_file)
     :: map (fun km => PrintShape km.1 (shape km.2).1 (shape km.2).2) data,
     inr tt).
Proof.
  unfold report_dimensions.
  rewrite (for_each_emits _ _ (fun km =>
    [PrintShape km.1 (shape km.2).1 (shape km.2).2])).
  - simpl. f_equal. f_equal. induction data as [|km data IH]; [done|].
    simpl. by rewrite IH.
  - by intros [k m] _.
Qed.

Lemma dict_getitem_cases {V} (d : dict V) (key : string) :
  dict_getitem d key = raise (KeyError key) \/
  exists v, dict_getitem d key = ret v.
Proof.
  induction d as [|[k v] d IH]; [by left|].
  simpl. case_decide; [right; by exists v|done].
Qed.

(** X25. When the requested feature type is missing from the features of
    one of the two simulations, the driver prints the dimensions of both
    feature sets and then raises [KeyError] with the feature type: beyond
    what [get_features] did, the two reports are the only effects, so no
    clustering has been invoked and no trajectory written. *)
Theorem main_unknown_feature_type (args : arguments)
    (out_a out_b : list event) (feat_a feat_b : dict featurizer)
    (data_a data_b : dict matrix) :
  get_features (ref_file_a args) (trj_file_a args) (start_frame args)
  = (out_a, inr (feat_a, data_a)) ->
  get_features (ref_file_b args) (trj_file_b args) (start_frame args)
  = (out_b, inr (feat_b, data_b)) ->
  (forall values, (feature_type args, values) ∉ data_a) \/
  (forall values, (feature_type args, values) ∉ data_b) ->
  main get_features cluster_kmeans cluster_regspace trajectory_frames args
  = (out_a ++ out_b
     ++ (PrintLine ("Feature dimensions from " +:+ trj_file_a args)
         :: map (fun km => PrintShape km.1 (shape km.2).1 (shape km.2).2) data_a)
     ++ (PrintLine ("Feature dimensions from " +:+ trj_file_b args)
         :: map (fun km => PrintShape km.1 (shape km.2).1 (shape km.2).2) data_b),
     inl (KeyError (feature_type args))).
Proof.
  intros Ha Hb Hmissing. unfold main. rewrite Ha. cbn [bind]. rewrite Hb.
  cbn [bind]. rewrite !report_dimensions_log.
  destruct Hmissing as [Hmiss|Hmiss].
  - rewrite (dict_getitem_missing data_a) by done. cbn.
    by rewrite !app_nil_r.
  - destruct (dict_getitem_cases data_a (feature_type args)) as [->|[v ->]].
    + cbn. by rewrite !app_nil_r.
    + rewrite (dict_getitem_missing data_b) by done. cbn.
      by rewrite !app_nil_r.
Qed.

End driver_keys.

(** * The theorems at the sample inputs *)

Section witnesses.

Lemma mean_difference_values_witness :
  returns (mean_difference_analysis sample_features sample_features
             all_zero all_one true)
    (fun _ '(data_names, _, _) =>
       data_names = ["PHI 0 ALA 2"; "PSI 0 ALA 2"]).
Proof.
  apply (proj2 (mean_difference_values sample_features sample_features
                  all_zero all_one true)
               {| feature_describe := ["PHI 0 ALA 2"; "PSI 0 ALA 2"] |});
    [reflexivity | reflexivity | reflexivity | simpl; lia].
Defined.

Lemma relative_entropy_verbose_name_error_witness :
  relative_entropy_analysis sample_kl_div sample_jensenshannon
    sample_np_arange
    sample_features sample_features all_zero all_one default_bin_width true
  = ([], inl (NameError "js_dist")).
Proof.
  assert (Hrows : 1 <= length all_zero) by (simpl; lia).
  eapply (proj2 (relative_entropy_verbose_name_error
                   sample_kl_div sample_jensenshannon sample_np_arange
                   sample_features sample_features all_zero all_one
                   default_bin_width Hrows)
                {| feature_describe := ["PHI 0 ALA 2"; "PSI 0 ALA 2"] |}
                [0%Qc; 0%Qc] [1%Qc; 1%Qc]);
    first [reflexivity | discriminate].
Defined.

(** C1 as first stated promises the undefined-name error for every pair of
    data sets with at least one feature.  Two data sets with one and with
    two features are stopped by the second assertion; two data sets with
    one feature and no frame pass both assertions and are stopped by
    [np.min]. *)
Lemma relative_entropy_verbose_other_errors :
  (1 <= length one_feature)%nat /\
  relative_entropy_analysis sample_kl_div sample_jensenshannon
    sample_np_arange
    sample_features sample_features one_feature all_one default_bin_width true
  = ([], inl AssertionError)
  /\ (1 <= length no_frame)%nat /\
  relative_entropy_analysis sample_kl_div sample_jensenshannon
    sample_np_arange
    sample_features sample_features no_frame no_frame default_bin_width true
  = ([], inl ValueError).
Proof. split_and!; [simpl; lia | reflexivity | simpl; lia | reflexivity]. Qed.

Lemma shared_edges_and_renormalisation_witness :
  returns (relative_entropy_analysis sample_kl_div sample_jensenshannon
             sample_np_arange
             sample_features sample_features all_zero all_one
             default_bin_width false)
    (fun _ _ => True).
Proof.
  apply (proj2 (shared_edges_and_renormalisation
                  sample_kl_div sample_jensenshannon sample_np_arange
                  sample_features sample_features all_zero all_one
                  default_bin_width)
               {| feature_describe := ["PHI 0 ALA 2"; "PSI 0 ALA 2"] |});
    [reflexivity | reflexivity | reflexivity | simpl; lia |].
  intros [|[|i]] a g Ha Hg; simpl in Ha, Hg; try discriminate;
    injection Ha as <-; injection Hg as <-;
    eexists _, _, _, _; split_and!; reflexivity.
Defined.

Lemma analyses_reject_mismatch_witness :
  relative_entropy_analysis sample_kl_div sample_jensenshannon
    sample_np_arange
    sample_features other_features all_zero all_one default_bin_width true
  = ([], inl AssertionError)
  /\ kolmogorov_smirnov_analysis sample_ks_2samp
       sample_features other_features all_zero all_one default_bin_width true
     = ([], inl AssertionError)
  /\ mean_difference_analysis sample_features other_features
       all_zero all_one true
     = ([], inl AssertionError).
Proof.
  apply (analyses_reject_mismatch sample_kl_div sample_jensenshannon
           sample_ks_2samp sample_np_arange sample_features other_features
           all_zero all_one default_bin_width true).
  left. discriminate.
Defined.

Lemma sort_features_permutes_descending_witness :
  returns (sort_features ["chi"; "phi"; "psi"] [1%Qc; Qc_of_Z 3; Qc_of_Z 2])
    (fun out sort =>
       out = [] /\
       sort ≡ₚ zip ["chi"; "phi"; "psi"] [1%Qc; Qc_of_Z 3; Qc_of_Z 2] /\
       length sort = 3%nat /\
       forall i j p q, (i <= j)%nat -> sort !! i = Some p -> sort !! j = Some q ->
                       (q.2 ≤ p.2)%Qc).
Proof.
  apply (sort_features_permutes_descending
           ["chi"; "phi"; "psi"] [1%Qc; Qc_of_Z 3; Qc_of_Z 2]).
  reflexivity.
Defined.

Lemma sorted_projection_non_decreasing_witness :
  returns (sorted_projection sample_pyemma_pca sample_frames 0 sample_pca)
    (fun _ _ => True).
Proof.
  apply (proj2 (sorted_projection_non_decreasing sample_pyemma_pca
                  sample_frames 0 sample_pca)).
  - repeat constructor.
  - repeat constructor; simpl; lia.
Defined.

Lemma combined_rows_tags_and_frame_indices_witness :
  returns (obtain_combined_clusters sample_kmeans sample_regspace
             blob_g blob_a 5 "Sim A" "Sim B" "kmeans" 2 (Qc_of_Z 12) 100
             true None)
    (fun _ '(cidx, _, _, _, _) => cidx = [0; 0; 1]%Z).
Proof.
  apply (proj2 (combined_rows_tags_and_frame_indices
                  sample_kmeans sample_regspace blob_g blob_a 5
                  "Sim A" "Sim B" "kmeans" 2 (Qc_of_Z 12) 100 true None)
               (blob_g ++ blob_a) [] [0; 0; 1]%Z);
    [reflexivity | left; split; reflexivity | reflexivity].
Defined.

Lemma centroids_and_total_wss_witness :
  returns (obtain_combined_clusters sample_kmeans sample_regspace
             blob_g blob_a 5 "Sim A" "Sim B" "rspace" 2 (Qc_of_Z 12) 100
             false None)
    (fun _ '(cidx, _, _, _, _) => cidx = [0; 0; 1]%Z).
Proof.
  apply (proj2 (centroids_and_total_wss
                  sample_kmeans sample_regspace blob_g blob_a 5
                  "Sim A" "Sim B" "rspace" 2 (Qc_of_Z 12) 100 false None)
               (blob_g ++ blob_a) [] [0; 0; 1]%Z);
    [reflexivity | right; split; reflexivity | reflexivity].
Defined.

Lemma combined_clusters_ignore_max_iter_witness :
  obtain_combined_clusters sample_kmeans sample_regspace
    blob_g blob_a 0 "Sim A" "Sim B" "kmeans" 2 (Qc_of_Z 12) 7 true None
  = obtain_combined_clusters sample_kmeans sample_regspace
      blob_g blob_a 0 "Sim A" "Sim B" "kmeans" 2 (Qc_of_Z 12) 100000 true None.
Proof.
  apply (combined_clusters_ignore_max_iter sample_kmeans sample_regspace
           blob_g blob_a 0 "Sim A" "Sim B" 2 (Qc_of_Z 12) 7 100000 true None).
Defined.

Lemma write_branch_uses_second_ensemble_twice_witness :
  write_branch sample_trajectory_frames sample_arguments
    ([0; 0] ++ [1; 0])%Z [1%Qc; 1%Qc; 0%Qc; 0%Qc]
  = write_branch sample_trajectory_frames sample_arguments
      ([1; 1] ++ [1; 0])%Z [1%Qc; 1%Qc; 0%Qc; 0%Qc].
Proof.
  symmetry.
  apply (proj2 (write_branch_uses_second_ensemble_twice
                  sample_trajectory_frames sample_arguments
                  [0; 0]%Z [1; 0]%Z) [1; 1]%Z).
  reflexivity.
Defined.

End witnesses.

(** * The further properties at the sample inputs *)

Section further_witnesses.

Lemma kolmogorov_smirnov_values_witness :
  returns (kolmogorov_smirnov_analysis sample_ks_2samp sample_features
             sample_features all_zero all_one default_bin_width false)
    (fun _ '(data_names, data_kss, _) => length data_kss = length data_names).
Proof.
  eapply returns_impl.
  - apply on_return_returns.
    + apply (kolmogorov_smirnov_values sample_ks_2samp sample_features
               sample_features all_zero all_one default_bin_width false).
    + eexists _, _. vm_compute. reflexivity.
  - intros out [[names kss] ksp] (_ & H & _). exact H.
Defined.

Lemma relative_entropy_empty_sample_witness :
  raises (relative_entropy_analysis sample_kl_div sample_jensenshannon
            sample_np_arange
            sample_features sample_features no_frame no_frame
            default_bin_width false) ValueError.
Proof.
  apply (relative_entropy_empty_sample sample_kl_div sample_jensenshannon
           sample_np_arange
           sample_features sample_features no_frame no_frame default_bin_width
           {| feature_describe := ["PHI 0 ALA 2"; "PSI 0 ALA 2"] |} 0);
    [reflexivity | reflexivity | reflexivity | simpl; lia
    | reflexivity | reflexivity | intros; lia].
Defined.

Lemma mean_difference_fewer_names_than_rows_witness :
  raises (mean_difference_analysis one_name_features one_name_features
            all_zero all_one true) IndexError.
Proof.
  apply (mean_difference_fewer_names_than_rows one_name_features
           one_name_features all_zero all_one true
           {| feature_describe := ["PHI 0 ALA 2"] |});
    [reflexivity | reflexivity | reflexivity | simpl; lia].
Defined.

Lemma get_feature_timeseries_first_match_witness :
  get_feature_timeseries sample_feature_dict sample_data_dict
    "bb-torsions" "PSI 0 ALA 2"
  = ret (map (fun frame => nth 1 frame 0%Qc) sample_frames).
Proof.
  apply (get_feature_timeseries_first_match sample_feature_dict
           sample_data_dict "bb-torsions" "PSI 0 ALA 2"
           sample_features sample_frames ["PHI 0 ALA 2"%string] []);
    [reflexivity | reflexivity | reflexivity | | repeat constructor].
  intros [H|H]%elem_of_cons; [discriminate H | by apply elem_of_nil in H].
Defined.

Lemma get_feature_timeseries_unknown_witness :
  get_feature_timeseries sample_feature_dict sample_data_dict
    "bb-torsions" "CHI1 0 ALA 2"
  = raise IndexError.
Proof.
  apply (proj2 (get_feature_timeseries_unknown sample_feature_dict
                  sample_data_dict "bb-torsions" "CHI1 0 ALA 2")
               sample_features); [reflexivity|].
  intros [H|[H|H]%elem_of_cons]%elem_of_cons;
    [discriminate H | discriminate H | by apply elem_of_nil in H].
Defined.

Lemma sort_features_fewer_names_than_values_witness :
  raises (sort_features ["chi"] [1%Qc; Qc_of_Z 3]) IndexError.
Proof.
  apply (sort_features_fewer_names_than_values ["chi"%string] [1%Qc; Qc_of_Z 3]).
  simpl; lia.
Defined.

Lemma residue_visualization_max_per_residue_witness :
  returns (residue_visualization sample_python_int sample_residue_ids
             sample_residue_names sample_residue_data
             "ref.gro" "out.pdf" "out.pdb" "max" "max. JS dist.")
    (fun out '(vis_resids, vis_values) =>
       out = [Savefig "out.pdf"; OpenWriter "out.pdb"] /\
       length vis_values = length vis_resids).
Proof.
  eapply returns_impl.
  - apply on_return_returns.
    + apply (residue_visualization_max_per_residue sample_python_int
               sample_residue_ids sample_residue_names sample_residue_data
               "ref.gro" "out.pdf" "out.pdb" "max. JS dist.").
    + eexists _, _. vm_compute. reflexivity.
  - intros out [resids values] (Hout & _ & Hlen & _). by split.
Defined.

Lemma residue_visualization_min_per_residue_witness :
  returns (residue_visualization sample_python_int sample_residue_ids
             sample_residue_names sample_residue_data
             "ref.gro" "out.pdf" "out.pdb" "min" "min. p-value")
    (fun _ '(vis_resids, vis_values) => length vis_values = length vis_resids).
Proof.
  eapply returns_impl.
  - apply on_return_returns.
    + apply (residue_visualization_min_per_residue sample_python_int
               sample_residue_ids sample_residue_names sample_residue_data
               "ref.gro" "out.pdf" "out.pdb" "min. p-value").
    + eexists _, _. vm_compute. reflexivity.
  - intros out [resids values] (Hlen & _). exact Hlen.
Defined.

Lemma residue_visualization_other_selection_witness :
  returns (residue_visualization sample_python_int sample_residue_ids
             sample_residue_names sample_residue_data
             "ref.gro" "out.pdf" "out.pdb" "mean" "mean")
    (fun _ '(vis_resids, vis_values) =>
       vis_values = np_ones (length vis_resids)).
Proof.
  apply on_return_returns.
  - apply (residue_visualization_other_selection sample_python_int
             sample_residue_ids sample_residue_names sample_residue_data
             "ref.gro" "out.pdf" "out.pdb" "mean" "mean");
      discriminate.
  - eexists _, _. vm_compute. reflexivity.
Defined.

Lemma residue_visualization_unplaced_feature_witness :
  fails (residue_visualization sample_python_int sample_residue_ids
           ["COS(PHI 0 ALA 2)"; "COS(PHI 0 SER 4)"] sample_residue_data
           "ref.gro" "out.pdf" "out.pdb" "max" "max. JS dist.").
Proof.
  apply (residue_visualization_unplaced_feature sample_python_int
           sample_residue_ids ["COS(PHI 0 ALA 2)"; "COS(PHI 0 SER 4)"]%string
           sample_residue_data "ref.gro" "out.pdf" "out.pdb" "max"
           "max. JS dist." 1 "COS(PHI 0 SER 4)");
    reflexivity.
Defined.

Lemma sort_distances_prints_kept_rows_descending_witness :
  exists rows : list nat,
    sort_distances sample_percent_format ["d1"; "d2"; "d3"]
      [1%Qc; 1%Qc; Qc_of_Z 3] [half; 1%Qc; 1%Qc] sample_dist_id
    = (map (fun p => PrintLine (distance_line sample_percent_format
                       (nth p ["d1"; "d2"; "d3"] ""%string)
                       (nth p [1%Qc; 1%Qc; Qc_of_Z 3] 0%Qc)
                       (nth p [half; 1%Qc; 1%Qc] 0%Qc)))
           rows, inr tt)
    /\ rows ≡ₚ filter (fun p => passes_distance_criteria
                          (nth p [1%Qc; 1%Qc; Qc_of_Z 3] 0%Qc)
                          (nth p [half; 1%Qc; 1%Qc] 0%Qc)
                          (nth p sample_dist_id []))
                 (seq 0 3)
    /\ forall i j p q, (i <= j)%nat -> rows !! i = Some p -> rows !! j = Some q ->
         (nth q [half; 1%Qc; 1%Qc] 0 ≤ nth p [half; 1%Qc; 1%Qc] 0)%Qc.
Proof.
  apply (sort_distances_prints_kept_rows_descending sample_percent_format
           ["d1"; "d2"; "d3"]%string [1%Qc; 1%Qc; Qc_of_Z 3]
           [half; 1%Qc; 1%Qc] sample_dist_id);
    [reflexivity | reflexivity | reflexivity | repeat constructor].
Defined.

Lemma distances_visualization_symmetric_square_witness :
  returns (distances_visualization sample_python_int sample_dist_names
             [half] "distances.pdf" None None)
    (fun _ diff => forall r c, entry diff r c = entry diff c r).
Proof.
  eapply returns_impl.
  - apply on_return_returns.
    + apply (distances_visualization_symmetric_square sample_python_int
               sample_dist_names [half] "distances.pdf" None None).
    + eexists _, _. vm_compute. reflexivity.
  - intros out diff (? & ? & ? & ? & ? & ? & H). apply H.
Defined.

Lemma distances_visualization_short_name_witness :
  fails (distances_visualization sample_python_int ["DIST: ALA 2 CA 10"]
           [half] "distances.pdf" None None).
Proof.
  apply (distances_visualization_short_name sample_python_int
           ["DIST: ALA 2 CA 10"]%string [half] "distances.pdf" None None
           0 "DIST: ALA 2 CA 10"); [reflexivity | simpl; lia].
Defined.

Lemma project_on_pc_shape_errors_witness :
  project_on_pc sample_pyemma_pca sample_frames 2 (Some sample_pca)
  = raise IndexError.
Proof.
  apply (proj1 (project_on_pc_shape_errors sample_pyemma_pca sample_frames 2
                  sample_pca [Qc_of_Z 3; Qc_of_Z 1]
                  [[Qc_of_Z 1; Qc_of_Z 2]; [Qc_of_Z 2; Qc_of_Z 0]] eq_refl)).
  exists [1%Qc; 0%Qc]. split; [left | simpl; lia].
Defined.

Lemma sort_traj_along_pc_writes_every_frame_in_order_witness :
  exists order : nat -> list nat,
    sort_traj_along_pc sample_pyemma_pca long_trajectory_frames sample_frames
      sample_pca 1 "ref" "sim" "sorted" 2
    = (concat (map (fun evi =>
         OpenWriter (pc_file "sorted" evi)
         :: map (fun i => WriteFrame (pc_file "sorted" evi) "traj/sim.xtc"
                                     (Z.of_nat i + 1))
                (order evi))
         (range 2)), inr tt)
    /\ forall evi,
         order evi ≡ₚ seq 0 (length sample_frames) /\
         forall i j p q x y, (i <= j)%nat ->
           order evi !! i = Some p -> order evi !! j = Some q ->
           projection sample_frames sample_pca evi !! p = Some x ->
           projection sample_frames sample_pca evi !! q = Some y ->
           (x ≤ y)%Qc.
Proof.
  refine (sort_traj_along_pc_writes_every_frame_in_order
            sample_pyemma_pca long_trajectory_frames sample_frames
            sample_pca 1 "ref" "sim" "sorted" 2 _ _ _ _).
  - repeat constructor.
  - repeat constructor.
  - lia.
  - unfold long_trajectory_frames, sample_trajectory_frames. simpl. lia.
Defined.

Lemma sort_traj_along_pc_trajectory_too_short_witness :
  raises (sort_traj_along_pc sample_pyemma_pca sample_trajectory_frames
            sample_frames sample_pca 0 "ref" "sim" "sorted" 2) IndexError.
Proof.
  apply (sort_traj_along_pc_trajectory_too_short sample_pyemma_pca
           sample_trajectory_frames sample_frames sample_pca 0 "ref" "sim"
           "sorted" 2);
    [repeat constructor | repeat constructor | lia | discriminate | lia
    | unfold sample_trajectory_frames; simpl; lia].
Defined.

Lemma sort_trajs_along_common_pc_takes_frames_from_their_source_witness :
  exists order : nat -> list nat,
    sort_trajs_along_common_pc twelve_axes_pca long_trajectory_frames
      [[1%Qc]; [half]] [[0%Qc]] 0 "ref_g" "ref_a" "sim_g" "sim_a" "sorted"
    = (concat (map (fun evi =>
         OpenWriter (pc_file "sorted" evi)
         :: map (fun p =>
                   if decide (p < 2)%nat
                   then WriteFrame (pc_file "sorted" evi) "traj/sim_g.xtc"
                                   (Z.of_nat p + 0)
                   else WriteFrame (pc_file "sorted" evi) "traj/sim_a.xtc"
                                   (Z.of_nat (p - 2) + 0))
                (order evi))
         (range 12)), inr tt)
    /\ forall evi,
         order evi ≡ₚ seq 0 3 /\
         forall i j p q x y, (i <= j)%nat ->
           order evi !! i = Some p -> order evi !! j = Some q ->
           projection ([[1%Qc]; [half]] ++ [[0%Qc]])
             (twelve_axes_pca ([[1%Qc]; [half]] ++ [[0%Qc]]) (Some 3%nat))
             evi !! p = Some x ->
           projection ([[1%Qc]; [half]] ++ [[0%Qc]])
             (twelve_axes_pca ([[1%Qc]; [half]] ++ [[0%Qc]]) (Some 3%nat))
             evi !! q = Some y ->
           (x ≤ y)%Qc.
Proof.
  refine (sort_trajs_along_common_pc_takes_frames_from_their_source
            twelve_axes_pca long_trajectory_frames
            [[1%Qc]; [half]] [[0%Qc]]
            0 "ref_g" "ref_a" "sim_g" "sim_a" "sorted" _ _ _ _ _).
  - repeat constructor.
  - repeat constructor; simpl; lia.
  - lia.
  - unfold long_trajectory_frames, sample_trajectory_frames. simpl. lia.
  - unfold long_trajectory_frames, sample_trajectory_frames. simpl. lia.
Defined.

Lemma sort_trajs_along_common_pc_needs_twelve_axes_witness :
  fails (sort_trajs_along_common_pc sample_pyemma_pca long_trajectory_frames
           sample_frames [] 0 "ref_g" "ref_a" "sim_g" "sim_a" "sorted").
Proof.
  apply (sort_trajs_along_common_pc_needs_twelve_axes sample_pyemma_pca
           long_trajectory_frames sample_frames [] 0 "ref_g" "ref_a" "sim_g"
           "sim_a" "sorted" [1%Qc; 0%Qc] [[0%Qc; 1%Qc]]);
    [discriminate | reflexivity | simpl; lia].
Defined.

Lemma unknown_algorithm_is_rejected_before_clustering_witness :
  obtain_clusters sample_kmeans sample_regspace blob_g "dbscan" 2
    (Qc_of_Z 12) 100
  = ([], inl AssertionError).
Proof.
  apply (proj1 (unknown_algorithm_is_rejected_before_clustering
                  sample_kmeans sample_regspace blob_g blob_g blob_a 0
                  "Sim A" "Sim B" "dbscan" 2 (Qc_of_Z 12) 100 true None
                  ltac:(discriminate) ltac:(discriminate))).
Defined.

Lemma obtain_clusters_plots_populations_witness :
  returns (obtain_clusters sample_kmeans sample_regspace (blob_g ++ blob_a)
             "rspace" 2 (Qc_of_Z 12) 100)
    (fun out cl_idx =>
       exists heights,
         last out = Some (Bar (map Qc_of_Z (np_unique cl_idx)) heights "") /\
         length heights = length (np_unique cl_idx) /\
         sum_list heights = length cl_idx).
Proof.
  eapply returns_impl.
  - apply on_return_returns.
    + apply (obtain_clusters_plots_populations sample_kmeans sample_regspace
               (blob_g ++ blob_a) "rspace" 2 (Qc_of_Z 12) 100).
    + eexists _, _. vm_compute. reflexivity.
  - intros out cl_idx [_ H]. exact H.
Defined.

Lemma combined_cluster_populations_witness :
  returns (obtain_combined_clusters sample_kmeans sample_regspace
             blob_g blob_a 0 "Sim A" "Sim B" "kmeans" 2 (Qc_of_Z 12) 100
             true (Some "clusters.pdf"))
    (fun out _ => last out = Some (Savefig "clusters.pdf")).
Proof.
  eapply returns_impl.
  - apply on_return_returns.
    + apply (combined_cluster_populations sample_kmeans sample_regspace
               blob_g blob_a 0 "Sim A" "Sim B" "kmeans" 2 (Qc_of_Z 12) 100
               (Some "clusters.pdf")).
    + eexists _, _. vm_compute. reflexivity.
  - intros out [[[[cidx cond] oidx] wss] centroids]
      (before & hg & ha & -> & _).
    by rewrite !app_assoc, last_snoc.
Defined.

Lemma write_cluster_traj_files_and_frames_witness :
  write_cluster_traj sample_trajectory_frames [1; 0]%Z
    "traj/b.gro" "traj/b.xtc" "clusters/b" 0
  = (concat (map (fun nr =>
       OpenWriter (cluster_file "clusters/b" nr)
       :: map (fun frame => WriteFrame (cluster_file "clusters/b" nr)
                                       "traj/b.xtc" (Z.of_nat frame))
              (frames_of_cluster [1; 0]%Z 2 0 nr))
       (range 2)), inr tt).
Proof.
  apply (write_cluster_traj_files_and_frames sample_trajectory_frames
           [1; 0]%Z "traj/b.gro" "traj/b.xtc" "clusters/b" 0 1);
    [reflexivity|].
  unfold sample_trajectory_frames. simpl. lia.
Defined.

Lemma write_branch_trajectory_longer_than_second_ensemble_witness :
  raises (write_branch sample_trajectory_frames sample_arguments
            ([0; 1; 1] ++ [0])%Z
            (np_concatenate (np_ones 3) (np_zeros 1)))
         IndexError.
Proof.
  apply (write_branch_trajectory_longer_than_second_ensemble
           sample_trajectory_frames sample_arguments [0; 1; 1]%Z [0]%Z 0%Z);
    [left | lia | simpl; lia
    | unfold sample_trajectory_frames; simpl; lia].
Defined.

Lemma write_branch_without_second_ensemble_witness :
  write_branch sample_trajectory_frames sample_arguments [0; 1]%Z
    [1%Qc; 1%Qc]
  = ([], inl ValueError).
Proof.
  apply (write_branch_without_second_ensemble sample_trajectory_frames
           sample_arguments [0; 1]%Z [1%Qc; 1%Qc]); [reflexivity|].
  intros [H|[H|H]%elem_of_cons]%elem_of_cons;
    [discriminate H | discriminate H | by apply elem_of_nil in H].
Defined.

Lemma main_unknown_feature_type_witness :
  main sample_get_features sample_kmeans sample_regspace
    sample_trajectory_frames sample_arguments
  = ([PrintLine "Feature dimensions from traj/a.xtc";
      PrintShape "sc-torsions" 2 2;
      PrintLine "Feature dimensions from traj/b.xtc";
      PrintShape "sc-torsions" 2 2],
     inl (KeyError "bb-torsions")).
Proof.
  apply (main_unknown_feature_type sample_get_features sample_kmeans
           sample_regspace sample_trajectory_frames sample_arguments [] []
           [("sc-torsions"%string, sample_features)]
           [("sc-torsions"%string, sample_features)]
           [("sc-torsions"%string, blob_g)]
           [("sc-torsions"%string, blob_g)]);
    [reflexivity | reflexivity |].
  left. intros values [H|H]%elem_of_cons;
    [discriminate H | by apply elem_of_nil in H].
Defined.

End further_witnesses.
